(* ===== verification/_CoqProject ===== *)
-Q . S2P
Prelude.v
JsValue.v
JsNumber.v
Binary64.v
Store.v
Http.v
Url.v
JsonPrint.v
JsonParse.v
Pedidos.v
OrderTotal.v
Cardapio.v
Clientes.v
App.v
ContentType.v
Server.v
Listen.v
