(* ===== verification/Prelude.v ===== *)
(** * Lanchonete API: a verification development

    The program is a small Express application (src/app.js) for a snack
    counter.  It mounts three routers, each owning one in-memory array:

    - src/routes/cardapio.js  the menu ([itens]):       GET / and POST /
    - src/routes/clientes.js  the customers ([clientes]): GET / and POST /
    - src/routes/pedidos.js   the orders ([pedidos]):     GET / and POST /

    app.js installs the JSON body parser, a logging middleware
    ([console.log] of method and url), the three routers under /cardapio,
    /pedidos and /clientes, and a final 404 handler, then reads [PORT] and
    calls [app.listen].  The routers never call each other: they interact
    only through the application, which routes a request to exactly one
    of them.  The POST handlers validate the body, build a record whose id
    is [array.length + 1] and push it; the POST handler of the orders also
    computes a total with
    [reduce((sum, it) => sum + (it.preco || 0) * it.quantidade, 0)].

    ** Files and what they model

    - [Prelude] (this file): the scope, hint database, tactics and the
      generic lemmas on lists and integer sequences shared by the others.
    - [JsValue]: the JavaScript values a handler sees after [express.json()]
      (undefined, null, booleans, numbers, strings, arrays, objects), and
      the parts of ECMAScript the handlers use: [typeof], ToBoolean (the
      [!x] and [x || y] tests), property read [x.k], [Array.isArray],
      [String.prototype.trim] on UTF-16 code units, the number type with
      NaN and the infinities, exact [+] and [*], and ToNumber, over a
      typeclass [JsConversions] of StringToNumber and Number::toString.
    - [JsNumber]: those two conversions on exact decimals:
      Number::toString (6.1.6.1.20: the digits, the exponent and the
      layouts [ddd000], [dd.ddd], [0.000ddd] and [d.ddde+n]) and
      StringToNumber (7.1.4.1.1: trimming, the empty string,
      [0x]/[0o]/[0b], a sign, [Infinity], decimal literals), the instance
      [exact_conversions], and the grammar of JSON numbers.
    - [Binary64]: IEEE 754 binary64 as an engine computes: the rounding
      [round_binary64] (roundTiesToEven, subnormals, overflow to
      Infinity), the double [+] and [*] ([dbl_add], [dbl_mul]: the exact
      operation, then rounding), the shortest-digits Number::toString of a
      double and the rounded StringToNumber ([binary64_conversions]).
    - [Store]: the common shape of the three in-memory arrays: a list of
      records with an id, [length + 1] id assignment and [push], the
      invariant "the ids are 1..n in insertion order", a typeclass
      interface [HasId] the routers instantiate, and the abstract view of
      an array as a finite map from ids to records, which [length + 1]
      and [push] refine (insertion under a fresh key).
    - [Http]: the request (method, url, parsed body) and the response: a
      status and its payload, the value given to [res.json] or a text.
    - [Url]: the path Express routes on: parseurl's fast path (a url that
      starts with [/] and holds no white space or [#] is cut at [?]) and
      otherwise Node's legacy [url.parse] (protocol, [//] host, '#' and
      '?' cut, auto-escaping), with Express's [getPathname], which turns
      a url without a path into no path at all.
    - [JsonPrint]: JSON.stringify, which [res.json] applies to every
      answer: QuoteJSONString, the property order of objects, undefined
      and non-finite numbers; [normalize], the value such a text denotes.
    - [JsonParse]: JSON.parse, which [express.json()] applies to request
      bodies, as a recursive descent on fuel.
    - [Pedidos]: the order router, the core of the program: the record,
      the seeded array, the GET handler, the POST handler with its
      validation and its total, an inductive specification of order
      creation (spec.md 4.3, with the total as the relation [soma_linhas]
      read rule by rule) and the theorem that the handler implements it.
      The [reduce] callback is written once over the [+] and [*] it uses
      ([reduce_with]); the handler instantiates it with the doubles of
      [Binary64], as an engine computes.
    - [OrderTotal]: [reduce_binary64], the total of pedidos.js line 48
      under [binary64_conversions], and where it is exact.
    - [Cardapio], [Clientes]: the other two routers.
    - [App]: the application state (the three arrays and the log), the
      request dispatch of app.js after the body parser (router
      [getPathname], logger, mount points, 404), the relation
      [reachable] (every state a sequence of parsed requests leads to) and
      its invariant.  Mount matching follows Express 4: path-to-regexp
      0.1 compiles a mount m to [^m\/?(?=\/|$)] with flag [i] (ASCII case
      folding), [trim_prefix] removes the match and re-adds the leading
      [/] and the protocol-and-host of an absolute url, and the router's
      [/] route matches [^\/?$] on the rest's path; a GET route also
      answers HEAD, a mounted path with another method gets the router's
      OPTIONS answer (200, "GET,HEAD,POST") for OPTIONS and falls through
      otherwise; an exception in a handler ends in Express's 500.
    - [ContentType]: the Content-Type header as [express.json()] reads it:
      media-typer's grammar (type-is), the charset parameter, iconv-lite's
      test of an encoding name, and the Content-Encoding names.
    - [Server]: the request as it arrives (method, url, Content-Type,
      Content-Encoding, whether a Content-Length is sent, body text),
      [express.json()] of body-parser 1.x in front of [App] (media type,
      charset, Content-Encoding, raw-body's early 413 when the length is
      known, the decoder's 415, the 100kb limit, strict mode, JSON.parse;
      errors answered by Express's final handler before the logger runs),
      and [run], the server fed a sequence of requests.
    - [Listen]: app.js lines 33-36: [PORT], Node's [listen] (a TCP port, a
      local socket path, or the RangeError ERR_SOCKET_BAD_PORT that stops
      the process) and the line the callback logs; [boot] is the start of
      the server, from which [Server.run] then serves requests.

    The dependencies: [JsValue], [JsNumber] and [Store] are used by the
    three routers; [Binary64] gives [Pedidos] its arithmetic and
    [OrderTotal] the conversions; [App] composes the routers behind
    [Url]; [Server] puts [ContentType] and [JsonParse] in front of [App]
    and [JsonPrint] behind it; [Listen] starts [Server].

    ** Choices and their justification

    - Numbers.  A JSON number is a finite double, hence a rational; the
      model keeps a number as an exact rational [Qc] (canonical, so
      Leibniz equality is numeric equality), with NaN and the two
      infinities beside it.  The order total is computed as the engine
      does: every [+] and [*] of the [reduce] callback rounds to binary64
      ([dbl_add], [dbl_mul]); the claims about it (C1, C2, C28) hold of
      that arithmetic and none assumes an exact sum.  [OrderTotal] shows
      when the rounded total equals the exact one (C6).  Values read
      from a request by JSON.parse are kept as the exact decimal the text
      writes (see Not modelled).
    - Strings are lists of UTF-16 code units ([list N]) so that [trim]
      removes exactly the code points ECMAScript calls white space and
      line terminators, including the non-ASCII ones, and JSON.stringify
      can tell a lone surrogate from a pair.  A url is such a list too;
      Node hands the router a request line decoded as latin1, so each
      code unit is a byte.
    - The generic theorems (routers, application, JSON round trip) are
      stated for every instance of [JsConversions]; the server, the
      start-up and the witnesses use [exact_conversions].
    - Ids are integers [Z]; [run_next_id_exact] shows that [length + 1]
      stays below 2^53, where doubles are exact, for any run shorter than
      2^53 - 3 requests.  A port is checked as an integer in [0, 2^32) and
      then against 65535, as Node does.
    - The state of each router is the list of its records in insertion
      order (the JS array); the application state is the record of the
      three lists and the log.  Aliasing: the order record stores the very
      array of the request body ([itens: itensPedido]); the body is never
      mutated afterwards, so a value copy is exact.
    - An object is the list of its bindings in creation order; a repeated
      key (JSON.parse of a text with duplicate keys) keeps its first
      position and its last value, as ECMAScript's property semantics do.

    ** Not modelled

    - JSON.parse of a request body reads a number as its exact decimal (a
      text like 1e400 is not turned into Infinity, 0.1 is not rounded),
      and there is no negative zero (-0 and 0 are one number).
    - [url.parse]'s IDNA conversion of a non-ASCII hostname (punycode)
      is taken as the identity: it changes the host, never the path the
      router sees, and the 404 of a url whose host it rejects is not
      represented.
    - [express.json()]: zlib's inflation of a [deflate] or [gzip] body
      and the decoding of the body's bytes (a library the code only
      calls): the body is taken as its decoded text, its size as its
      UTF-8 length, and a corrupt compressed body (400) is not
      represented.  The page of Express's final handler is reduced to the
      status message.
    - The socket layer of the HTTP server (host, IPv4/IPv6, backlog,
      connections) is I/O; the requests the server receives are the input
      of [Server.run].  Response headers are not modelled (Content-Type,
      ETag and the 304 answer to a matching If-None-Match), nor Node's
      dropping of the body of an answer to HEAD.
    - Concurrency: Node runs each handler to completion; the model is a
      sequence of steps ([reachable], [run]), which is exactly that
      behaviour.

    ** Theorems (claims C1-C35)

    - order creation ([Pedidos]): the handler is equivalent to the
      inductive specification [cria_spec] of spec.md 4.3 (C1); on numeric
      lines the total is the left-to-right double sum of price times
      quantity (C2); ids stay 1..n (C4); every rejection is a 400 that
      leaves the array unchanged (C5); the error messages and odd inputs:
      no items (C23), a non-numeric quantity (C24), any truthy
      [clienteId] (C25), [clienteId] 0 (C26), a price with an own
      [toString] (C27), an object price and the NaN total (C28);
    - the store ([Store]): [length + 1] and [push] refine insertion into
      the abstract map (C3);
    - doubles ([OrderTotal]): the double total equals the exact sum for
      integer orders within 2^53 (C6);
    - application ([App]): the invariant of every reachable state by
      induction on [reachable] (C7) and no duplicate id (C8), logging
      before routing on every url with a path (C9), 404 (C10), the
      dispatch of orders (C11), which urls a mount serves on parseurl's
      fast path (C12), a created order is in the next GET (C13), GET and
      HEAD change nothing (C14);
    - start-up ([Listen]): the endpoint bound for every value of PORT
      (C15);
    - the server ([Server]): body errors 415, 400 and 413 leave the state
      and the log unchanged (C16, C17, C18), a stringified body reaches
      the routers as its value (C19), non-JSON requests get [{}] (C20),
      the type of [req.body] (C21), a valid customer is always accepted
      (C22);
    - menu and customers ([Cardapio], [Clientes]): the success branch,
      each rejection with its message, and the ids (C29-C35).

    ** What the modelling showed

    - The seeded order stores total 12 for a line without [preco]; the
      formula gives 0 ([pedidos0_total_divergente], pedidos.js line 10).
    - The menu accepts negative prices, which spec.md rules out (C29).
    - [clienteId] is only tested for truthiness: any non-falsy value is
      stored (C25), and 0 is rejected (C26).
    - [preco] is never validated: an object price with an own [toString]
      field makes [reduce] throw a TypeError, so the request ends in a 500
      (C27); an object price gives the total NaN (C28), which the client
      receives as [total: null].
    - The total is summed in doubles: prices 0.1 and 0.2 give the total
      0.30000000000000004, and [reduce] from the left turns the amounts
      1, 2^53, -2^53 into 0 where the exact sum is 1
      ([reduce_binary64_inexact]).
    - Routing is case-insensitive and tolerant of trailing slashes, so
      POST /PEDIDOS// creates an order (C11, C12); a url with no path
      ([mailto:x], [foo://h]) gets the final handler's 404 without being
      logged (C9).
    - [express.json()] runs before the logger: a request whose body is
      not JSON, is too large, or has a charset (latin1, utf-32) or a
      Content-Encoding (br) body-parser refuses is answered by Express
      (400, 413 or 415, a text page, not [{ error }]) and never logged,
      against the comment of app.js line 12 (C16, C17, C18).  A utf-32
      body above 100kb gets 413 when its length is known up front and
      415 when it is chunked or compressed.
    - A request that is not [application/json], or whose Content-Type
      media-typer cannot parse ([application/json;]), is handled with body
      [{}] and answered as if its fields were missing (C20); the fallback
      [req.body || {}] of the routers is never taken (C21).
    - PORT: a value that is not a number [>= 0] ([abc], [-1]) makes the
      server listen on a local socket of that name; [70000], a blank or a
      fractional value stops the process with ERR_SOCKET_BAD_PORT (C15).

    ** Bounds and fuel

    JSON.parse is a recursive descent on fuel; [json_fuel] gives it
    [2 * length + 1] units, and [json_parse_fuel_enough] shows this never
    runs out and that more fuel changes nothing.  The decimal expansion
    of a rational strips the factors 2 and 5 of its denominator with fuel
    [Pos.size] of the denominator, which bounds both counts
    ([decimal_parts_complete]); the Content-Type parameters are read with
    the header's length as fuel, each parameter consuming at least its
    [;].  The shortest-digits search of [Binary64] tries 1 to 17
    significant digits (17 always suffice for a double, and the search
    falls back to the exact digits otherwise); [log2_floor] corrects the
    estimate from the bit lengths of numerator and denominator by one
    step, which [log2_floor_spec] shows is enough.  The scans of [Url]
    and every other definition are structural.  The body limit is
    body-parser's 100kb (102400 bytes, counted in UTF-8).  Ids are
    unbounded integers, exact below 2^53 ([run_next_id_exact]). *)

From stdpp Require Import base list numbers.
From Stdlib Require Import ZArith Lia.

Declare Scope lanchonete_scope.
Delimit Scope lanchonete_scope with lanchonete.

Create HintDb lanchonete.
Create Rewrite HintDb lanchonete.

(** A test every element passes is passed by every suffix. *)
Lemma forallb_drop {A} (f : A → bool) k (l : list A) : forallb f l = true → forallb f (drop k l) = true.
Proof.
  revert k. induction l as [|x l IH]; intros [|k]; simpl; try done.
  intros [_ H]%andb_true_iff. by apply IH.
Qed.

(** ** Integer id sequences

    [Zseq s n] is the list [s; s+1; ...; s+n-1]. *)
Definition Zseq (s : Z) (n : nat) : list Z := map (λ i, s + Z.of_nat i)%Z (seq 0 n).

Lemma length_Zseq s n : length (Zseq s n) = n.
Proof. unfold Zseq. by rewrite length_map, length_seq. Qed.

Lemma Zseq_S s n : Zseq s (S n) = Zseq s n ++ [(s + Z.of_nat n)%Z].
Proof. unfold Zseq. by rewrite seq_S, map_app. Qed.

Lemma elem_of_Zseq s n x : x ∈ Zseq s n ↔ (s ≤ x < s + Z.of_nat n)%Z.
Proof.
  unfold Zseq. rewrite list_elem_of_fmap. split.
  - intros (i & -> & Hi). apply list_elem_of_In, in_seq in Hi. lia.
  - intros Hx. exists (Z.to_nat (x - s)). split; [lia|].
    apply list_elem_of_In, in_seq. lia.
Qed.

Lemma NoDup_Zseq s n : NoDup (Zseq s n).
Proof.
  apply NoDup_fmap_2; [intros i j ?; lia|]. apply NoDup_ListNoDup, seq_NoDup.
Qed.

#[export] Hint Resolve NoDup_Zseq : lanchonete.
#[export] Hint Rewrite length_Zseq Zseq_S : lanchonete.

(** ** Tactics *)

(** Case on every [bool_decide] and [if] of the goal, keeping the facts. *)
Ltac case_guards :=
  repeat first [ case_bool_decide | case_match ]; simplify_eq/=.
