(* ===== verification/JsValue.v ===== *)
(** * JavaScript values and the ECMAScript operations of the handlers

    The values a handler reads from [req.body] after [express.json()], and
    the operations the three routers apply to them: [typeof], ToBoolean
    ([!x], [x || y]), property read, [Array.isArray], [String.prototype.trim],
    numbers with [+] and [*], ToString and ToNumber with the TypeError an
    object whose own [toString] is data raises.

    Numbers are exact rationals extended with NaN and the infinities
    (the sign of zero is not modelled); [+] and [*] here are exact, and
    [Binary64] defines the rounded ones of an engine from them.  Strings
    are lists of UTF-16 code units. *)

From Stdlib Require Import String.
From stdpp Require Import base list numbers.
From Stdlib Require Import ZArith QArith Qcanon Ascii Lia.
From S2P Require Import Prelude.

(** ** Strings *)

(** A JavaScript string: its UTF-16 code units. *)
Abbreviation jsstring := (list N).

(** The code units of an ASCII literal, for the literals of the source. *)
Definition js (s : string) : jsstring := map N_of_ascii (list_ascii_of_string s).
Arguments js s%_string_scope.

(** ** Numbers *)

(** The Number type: a finite value, NaN or an infinity. *)
Inductive number :=
| Num (q : Qc)
| NaN
| PosInf
| NegInf.

#[export] Instance number_eq_dec : EqDecision number.
Proof. solve_decision. Defined.

Definition num_neg (x : number) : number :=
  match x with
  | Num q => Num (- q)%Qc
  | NaN => NaN
  | PosInf => NegInf
  | NegInf => PosInf
  end.

(** Number::add (ECMAScript 6.1.6.1.7), without rounding. *)
Definition num_add (x y : number) : number :=
  match x, y with
  | Num a, Num b => Num (a + b)%Qc
  | NaN, _ | _, NaN => NaN
  | PosInf, NegInf | NegInf, PosInf => NaN
  | PosInf, _ | _, PosInf => PosInf
  | NegInf, _ | _, NegInf => NegInf
  end.

(** An infinity times a finite value: NaN for zero, else the signed infinity. *)
Definition inf_times (i : number) (a : Qc) : number :=
  if decide (a = 0%Qc) then NaN
  else if decide (0 < a)%Qc then i else num_neg i.

(** Number::multiply (ECMAScript 6.1.6.1.4), without rounding. *)
Definition num_mul (x y : number) : number :=
  match x, y with
  | Num a, Num b => Num (a * b)%Qc
  | NaN, _ | _, NaN => NaN
  | Num a, i | i, Num a => inf_times i a
  | PosInf, PosInf | NegInf, NegInf => PosInf
  | PosInf, NegInf | NegInf, PosInf => NegInf
  end.

(** [x <= y] on numbers (IsLessThan, ECMAScript 7.2.13): false as soon as
    one side is NaN. *)
Definition num_le (x y : number) : bool :=
  match x, y with
  | NaN, _ | _, NaN => false
  | NegInf, _ | _, PosInf => true
  | PosInf, _ | _, NegInf => false
  | Num a, Num b => bool_decide (a ≤ b)%Qc
  end.

(** The literal [0]. *)
Definition num_zero : number := Num 0.

(** An integer literal of the source, such as [1] or [12.0]. *)
Definition num_of_Z (z : Z) : number := Num (Qc_of_Z z).

(** ** Values *)

(** The values of JSON.parse, plus [undefined] (a missing property). *)
Inductive value :=
| VUndefined
| VNull
| VBool (b : bool)
| VNumber (n : number)
| VString (s : jsstring)
| VArray (xs : list value)
| VObject (fields : list (jsstring * value)).

(** The result of [typeof] on these values. *)
Inductive jstype := TUndefined | TObject | TBoolean | TNumber | TString.

#[export] Instance jstype_eq_dec : EqDecision jstype.
Proof. solve_decision. Defined.

Definition typeof (v : value) : jstype :=
  match v with
  | VUndefined => TUndefined
  | VNull => TObject
  | VBool _ => TBoolean
  | VNumber _ => TNumber
  | VString _ => TString
  | VArray _ | VObject _ => TObject
  end.

(** ToBoolean (ECMAScript 7.1.2): [!v] is [negb (truthy v)]. *)
Definition truthy (v : value) : bool :=
  match v with
  | VUndefined | VNull => false
  | VBool b => b
  | VNumber (Num q) => bool_decide (q ≠ 0%Qc)
  | VNumber NaN => false
  | VNumber _ => true
  | VString s => bool_decide (s ≠ [])
  | VArray _ | VObject _ => true
  end.

(** [x || y] *)
Definition js_or (x y : value) : value := if truthy x then x else y.

(** [v == null] *)
Definition loose_eq_null (v : value) : bool :=
  match v with VUndefined | VNull => true | _ => false end.

(** The own property [k] of an object: the last binding, as JSON.parse
    keeps the last of duplicated keys. *)
Definition own_prop {A} (fs : list (jsstring * A)) (k : jsstring) : option A :=
  fold_left (λ acc kv, if decide (kv.1 = k) then Some kv.2 else acc) fs None.

(** Property read [v.k].  Exact for the keys the routers read (nome,
    preco, telefone, clienteId, itens, id, quantidade): none of them is
    [length], an array index or a member of Object.prototype, so only an
    object's own properties can hold them. *)
Definition get (v : value) (k : jsstring) : value :=
  match v with
  | VObject fs => default VUndefined (own_prop fs k)
  | _ => VUndefined
  end.

Notation "v .[ k ]" := (get v (js k)) (at level 1, format "v .[ k ]") : lanchonete_scope.

Definition is_array (v : value) : bool :=
  match v with VArray _ => true | _ => false end.

(** ** String.prototype.trim *)

(** WhiteSpace and LineTerminator code points (ECMAScript 12.2, 12.3):
    TAB, LF, VT, FF, CR, SP, NBSP, ZWNBSP, LS, PS and the Zs category. *)
Definition is_js_space (c : N) : bool :=
  bool_decide (c ∈ [9; 10; 11; 12; 13; 32; 160; 5760; 8232; 8233; 8239; 8287; 12288; 65279]%N)
  || bool_decide (8192 ≤ c ≤ 8202)%N.

Fixpoint trim_start (s : jsstring) : jsstring :=
  match s with
  | [] => []
  | c :: s' => if is_js_space c then trim_start s' else s
  end.

Definition trim_end (s : jsstring) : jsstring := rev (trim_start (rev s)).

(** TrimString(S, start+end) *)
Definition trim (s : jsstring) : jsstring := trim_end (trim_start s).

(** ** Abrupt completion

    ToNumber and ToString can throw a TypeError; the handlers run them
    inside [reduce], so a throw ends the handler.  [throws A] is the
    result of such a computation, with stdpp's monad notation. *)
Inductive js_error := TypeError.

Inductive throws (A : Type) : Type :=
| Ok (a : A)
| Throw (e : js_error).
Arguments Ok {A} a.
Arguments Throw {A} e.

#[export] Instance throws_ret : MRet throws := λ A a, Ok a.
#[export] Instance throws_bind : MBind throws :=
  λ A B f m, match m with Ok a => f a | Throw e => Throw e end.

(** ** Conversions

    StringToNumber (ECMAScript 7.1.4.1.1) and Number::toString of a finite
    number (6.1.6.1.20) are grammars the model is generic in. *)
Class JsConversions := {
  string_to_number : jsstring → number;
  finite_to_string : Qc → jsstring;
}.

Section conversions.
Context `{JsConversions}.

(** Number::toString *)
Definition number_to_string (n : number) : jsstring :=
  match n with
  | Num q => finite_to_string q
  | NaN => js "NaN"
  | PosInf => js "Infinity"
  | NegInf => js "-Infinity"
  end.

(** [Array.prototype.join(",")] of already converted elements. *)
Fixpoint join_comma (ss : list jsstring) : jsstring :=
  match ss with
  | [] => []
  | [s] => s
  | s :: ss' => s ++ js "," ++ join_comma ss'
  end.

Definition has_own (fs : list (jsstring * value)) (k : jsstring) : bool :=
  bool_decide (is_Some (own_prop fs k)).

(** ToString (7.1.17).  An object: ToPrimitive with hint string calls
    [toString] first; an own [toString] is data, not callable, so it is
    skipped and [valueOf] (inherited) returns the object itself: a
    TypeError.  An array: [Array.prototype.toString] is [join], which
    maps undefined and null to the empty string. *)
Fixpoint to_string (v : value) : throws jsstring :=
  match v with
  | VUndefined => Ok (js "undefined")
  | VNull => Ok (js "null")
  | VBool b => Ok (js (if b then "true" else "false"))
  | VNumber n => Ok (number_to_string n)
  | VString s => Ok s
  | VArray xs =>
      ss ← (fix go (xs : list value) : throws (list jsstring) :=
              match xs with
              | [] => Ok []
              | x :: xs' =>
                  s ← (if loose_eq_null x then Ok [] else to_string x);
                  ss ← go xs'; Ok (s :: ss)
              end) xs;
      Ok (join_comma ss)
  | VObject fs => if has_own fs (js "toString") then Throw TypeError
                  else Ok (js "[object Object]")
  end.

(** ToNumber (7.1.4).  For an object or array, ToPrimitive with hint
    number: the inherited [valueOf] returns the object, so [toString]
    decides, as in [to_string]. *)
Definition to_number (v : value) : throws number :=
  match v with
  | VUndefined => Ok NaN
  | VNull => Ok (Num 0)
  | VBool b => Ok (Num (if b then 1 else 0)%Qc)
  | VNumber n => Ok n
  | VString s => Ok (string_to_number s)
  | VArray _ | VObject _ => s ← to_string v; Ok (string_to_number s)
  end.
End conversions.

(** ** Laws of Number::add

    Without rounding, [+] on numbers is associative and commutative with
    identity [+0], the facts that let [reduce] be read as a sum. *)
#[export] Instance num_add_assoc : Assoc (=) num_add.
Proof.
  intros [a| | |] [b| | |] [c| | |]; simpl; try done.
  by rewrite Qcplus_assoc.
Qed.

#[export] Instance num_add_comm : Comm (=) num_add.
Proof. intros [a| | |] [b| | |]; simpl; try done. by rewrite Qcplus_comm. Qed.

#[export] Instance num_add_left_id : LeftId (=) num_zero num_add.
Proof. intros [a| | |]; simpl; try done. by rewrite Qcplus_0_l. Qed.

#[export] Instance num_add_right_id : RightId (=) num_zero num_add.
Proof. intros [a| | |]; simpl; try done. by rewrite Qcplus_0_r. Qed.

(** NaN absorbs [+] and [*]. *)
Lemma num_add_NaN_r x : num_add x NaN = NaN.
Proof. by destruct x. Qed.

Lemma num_mul_NaN_l x : num_mul NaN x = NaN.
Proof. by destruct x. Qed.

#[export] Hint Rewrite num_add_NaN_r num_mul_NaN_l : lanchonete.

(** ** Laws of trim *)

Lemma trim_start_app_spaces s t :
  Forall (λ c, is_js_space c = true) s → trim_start (s ++ t) = trim_start t.
Proof. induction 1 as [|c s Hc _ IH]; simpl; [done|]. by rewrite Hc. Qed.

(** [trim_start] drops a prefix of spaces and stops at a non-space. *)
Lemma trim_start_spec s :
  ∃ p, s = p ++ trim_start s ∧ Forall (λ c, is_js_space c = true) p ∧
       ∀ c t, trim_start s = c :: t → is_js_space c = false.
Proof.
  induction s as [|c s IH]; simpl.
  - exists []. naive_solver.
  - destruct (is_js_space c) eqn:Hc.
    + destruct IH as (p & Hs & Hp & Hhd). exists (c :: p).
      split; [by rewrite Hs at 1|]. split; [by constructor|done].
    + exists []. split; [done|]. split; [done|]. by intros ?? [= <- _].
Qed.

Lemma trim_start_idemp s : trim_start (trim_start s) = trim_start s.
Proof.
  destruct (trim_start_spec s) as (_ & _ & _ & Hhd).
  destruct (trim_start s) as [|c t] eqn:E; simpl; [done|]. by rewrite (Hhd c t).
Qed.

Lemma trim_start_nil_iff s :
  trim_start s = [] ↔ Forall (λ c, is_js_space c = true) s.
Proof.
  split.
  - destruct (trim_start_spec s) as (p & Hs & Hp & _). intros E.
    by rewrite E, app_nil_r in Hs; subst.
  - intros Hs. rewrite <-(app_nil_r s). by rewrite trim_start_app_spaces.
Qed.

(** A string is blank after trimming exactly when it is all white space. *)
Lemma trim_nil_iff s : trim s = [] ↔ Forall (λ c, is_js_space c = true) s.
Proof.
  unfold trim, trim_end. split.
  - intros E. apply (f_equal (@rev N)) in E. rewrite rev_involutive in E.
    apply trim_start_nil_iff, Forall_rev in E. rewrite rev_involutive in E.
    destruct (trim_start_spec s) as (p & Hs & Hp & _). rewrite Hs.
    by apply Forall_app.
  - intros Hs. apply trim_start_nil_iff in Hs. by rewrite Hs.
Qed.

(** ** A required text field

    [!x || typeof x !== 'string' || x.trim() === ''] fails exactly when
    this returns [None]; otherwise it returns the string. *)
Definition required_string (v : value) : option jsstring :=
  match v with
  | VString s => if bool_decide (s = []) || bool_decide (trim s = []) then None else Some s
  | _ => None
  end.

Lemma trim_nil_of_nil s : s = [] → trim s = [].
Proof. by intros ->. Qed.

Lemma required_string_Some v s : required_string v = Some s ↔ v = VString s ∧ trim s ≠ [].
Proof.
  destruct v as [| | | |s'| |]; simpl; try (split; [done|]; by intros [? _]).
  destruct (bool_decide (s' = []) || bool_decide (trim s' = [])) eqn:E;
    rewrite ?orb_true_iff, ?orb_false_iff, ?bool_decide_eq_true, ?bool_decide_eq_false in E.
  - split; [done|]. intros [[= <-] Ht]. exfalso. destruct E as [->|]; by apply Ht.
  - split; [intros [= <-]; naive_solver|by intros [[= <-] _]].
Qed.

Lemma required_string_None v : required_string v = None ↔ ∀ s, v = VString s → trim s = [].
Proof.
  destruct (required_string v) as [s|] eqn:E.
  - apply required_string_Some in E as [-> Hs]. split; [done|]. intros H. by rewrite (H s) in Hs.
  - split; [|done]. intros _ s ->. apply dec_stable. intros Hs.
    assert (required_string (VString s) = Some s) by (by apply required_string_Some). congruence.
Qed.

(** ** Idempotence of trim *)

Lemma length_trim_start s : (length (trim_start s) ≤ length s)%nat.
Proof. induction s as [|c s IH]; simpl; [lia|]. destruct (is_js_space c); simpl; lia. Qed.

Lemma trim_end_idemp s : trim_end (trim_end s) = trim_end s.
Proof. unfold trim_end. by rewrite rev_involutive, trim_start_idemp. Qed.

(** Trimming the end of a string with no leading space leaves no leading space. *)
Lemma trim_start_trim_end s : trim_start s = s → trim_start (trim_end s) = trim_end s.
Proof.
  intros Hs. destruct (trim_start_spec (rev s)) as (p & Hp & _ & _).
  assert (Es : s = trim_end s ++ rev p).
  { unfold trim_end. rewrite <-rev_app_distr, <-Hp. by rewrite rev_involutive. }
  destruct (trim_end s) as [|c t] eqn:E; [done|]. simpl.
  destruct (is_js_space c) eqn:Hc; [|done].
  exfalso. rewrite Es in Hs. simpl in Hs. rewrite Hc in Hs.
  pose proof (length_trim_start (t ++ rev p)) as Hl. rewrite Hs in Hl. simpl in Hl. lia.
Qed.

Lemma trim_idemp s : trim (trim s) = trim s.
Proof.
  unfold trim. rewrite trim_start_trim_end by apply trim_start_idemp.
  apply trim_end_idemp.
Qed.

#[export] Hint Rewrite trim_idemp : lanchonete.

(** ** Induction on values through their arrays and objects *)
Lemma value_ind' (P : value → Prop) :
  P VUndefined → P VNull → (∀ b, P (VBool b)) → (∀ n, P (VNumber n)) →
  (∀ s, P (VString s)) → (∀ xs, Forall P xs → P (VArray xs)) →
  (∀ fs, Forall (λ kv, P kv.2) fs → P (VObject fs)) →
  ∀ v, P v.
Proof.
  intros Hu Hn Hb Hnum Hs Ha Ho. fix IH 1. intros [| | | | |xs|fs].
  1-5: auto.
  - apply Ha. induction xs; constructor; auto.
  - apply Ho. induction fs as [|[k x] fs IHfs]; constructor; auto.
Qed.
