(* ===== verification/JsNumber.v ===== *)
(** * Numbers and their decimal texts

    The two conversions between numbers and strings that the handlers
    reach, as ECMAScript defines them, on the exact numbers of [JsValue]:

    - Number::toString (6.1.6.1.20), which JSON.stringify applies to every
      finite number a response holds and the template of the logger and
      of [app.listen]'s message applies to a port;
    - StringToNumber (7.1.4.1.1), which ToNumber applies to a string: the
      price ["2.5"] of an order line is multiplied as 2.5, and
      [process.env.PORT] is compared as a number by [listen].

    A double is a dyadic rational, so it has a finite decimal expansion;
    every number of the model that comes from a text or from [+] and [*]
    on such numbers is a finite decimal too ([decimal_parts],
    [is_decimal] and its closure lemmas).  Number::toString prints the
    shortest digit string [s] and the exponent [n] with value
    [s × 10^(n - k)]; on the exact numbers of the model the shortest
    digits that denote the number are its exact decimal expansion without
    trailing zeros, which is what [exact_to_string] prints.  A rational
    that is not a finite decimal is never printed by the program; it is
    printed from its expansion truncated to 20 decimals.  [Binary64]
    defines the same conversions on doubles (shortest digits, rounded
    reading) and prints through [exact_to_string]. *)

From Stdlib Require Import String.
From stdpp Require Import base list numbers.
From Stdlib Require Import ZArith QArith Qcanon Qround Znumtheory Lia.
From S2P Require Import Prelude JsValue.


Local Open Scope N_scope.

(** ** The number grammar of JSON

    JSON.parse reads a number with this grammar (ECMA-404: an optional
    minus, [0] or a non-zero digit and digits, an optional fraction, an
    optional exponent); StringToNumber shares its exponent part. *)

Definition is_digit (c : N) : bool := bool_decide (48 ≤ c ≤ 57).

Definition is_number_char (c : N) : bool :=
  is_digit c || bool_decide (c = 45 ∨ c = 43 ∨ c = 46 ∨ c = 101 ∨ c = 69).

Fixpoint span {A} (p : A → bool) (s : list A) : list A * list A :=
  match s with
  | x :: s' => if p x then prod_map (cons x) id (span p s') else ([], s)
  | [] => ([], [])
  end.

Definition digits_Z (ds : jsstring) : Z :=
  foldl (λ acc c, 10 * acc + Z.of_N (c - 48))%Z 0%Z ds.

(** [0] or a non-zero digit and digits. *)
Definition lex_int (t : jsstring) : option (jsstring * jsstring) :=
  match t with
  | c :: t' => if decide (c = 48) then Some ([48], t')
               else if decide (49 ≤ c ≤ 57) then Some (span is_digit t) else None
  | [] => None
  end.

(** An optional fraction: [.] and at least one digit. *)
Definition lex_frac (t : jsstring) : option (jsstring * jsstring) :=
  match t with
  | c :: t' => if decide (c = 46) then
                 match span is_digit t' with
                 | ([], _) => None
                 | (ds, r) => Some (ds, r)
                 end
               else Some ([], t)
  | [] => Some ([], [])
  end.

(** An optional exponent: [e] or [E], an optional sign, digits. *)
Definition lex_exp (t : jsstring) : option (Z * jsstring) :=
  match t with
  | c :: t' =>
      if decide (c = 101 ∨ c = 69) then
        let '(neg, t2) := match t' with
                          | d :: r => if decide (d = 43) then (false, r)
                                      else if decide (d = 45) then (true, r) else (false, t')
                          | [] => (false, [])
                          end in
        match span is_digit t2 with
        | ([], _) => None
        | (ds, r) => Some ((if neg then - digits_Z ds else digits_Z ds)%Z, r)
        end
      else Some (0%Z, t)
  | [] => Some (0%Z, [])
  end.

(** The exact value [±m × 10^e]. *)
Definition decimal (neg : bool) (m e : Z) : Qc :=
  let q : Q := if decide (0 ≤ e)%Z then inject_Z (m * 10 ^ e) else (m # Z.to_pos (10 ^ (- e))) in
  Q2Qc (if neg then Qopp q else q).

(** A whole text in the number grammar, and its value. *)
Definition json_number (t : jsstring) : option Qc :=
  let '(neg, t1) := match t with
                    | c :: t' => if decide (c = 45) then (true, t') else (false, t)
                    | [] => (false, [])
                    end in
  '(ip, t2) ← lex_int t1;
  '(fp, t3) ← lex_frac t2;
  '(e, t4) ← lex_exp t3;
  match t4 with
  | [] => Some (decimal neg (digits_Z (ip ++ fp)) (e - Z.of_nat (length fp)))
  | _ :: _ => None
  end.

Definition hex_value (c : N) : option N :=
  if decide (48 ≤ c ≤ 57) then Some (c - 48)
  else if decide (97 ≤ c ≤ 102) then Some (c - 87)
  else if decide (65 ≤ c ≤ 70) then Some (c - 55)
  else None.

Lemma span_app {A} (p : A → bool) s : (span p s).1 ++ (span p s).2 = s.
Proof. induction s as [|x s IH]; simpl; [done|]. case_match; simpl; by f_equal. Qed.

Lemma json_number_nil : json_number [] = None.
Proof. reflexivity. Qed.

Lemma span_stop {A} (p : A → bool) t r :
  Forall (λ c, p c = true) t → (∀ c r', r = c :: r' → p c = false) → span p (t ++ r) = (t, r).
Proof.
  intros Ht Hr. induction Ht as [|c t Hc Ht IH]; simpl.
  - destruct r as [|c r']; [done|]. simpl. by rewrite (Hr c r').
  - by rewrite Hc, IH.
Qed.

Section number_text.
Context `{JsConversions}.

(** A finite number whose printed form is a JSON number text that
    denotes it: ECMAScript's Number::toString has this property on
    doubles; it is assumed of the [JsConversions] instance where used. *)
Definition number_text (q : Qc) : Prop :=
  json_number (finite_to_string q) = Some q ∧
  Forall (λ c, is_number_char c = true) (finite_to_string q).
End number_text.

Local Open Scope Z_scope.

(** ** Digit strings *)

(** The decimal digits of [n ≥ 0] before [acc], on fuel above the
    number of digits. *)
Fixpoint positive_digits (fuel : nat) (n : Z) (acc : jsstring) : jsstring :=
  match fuel with
  | O => acc
  | S fuel' => if decide (n < 10)%Z then (Z.to_N n + 48)%N :: acc
               else positive_digits fuel' (n / 10)%Z ((Z.to_N (n mod 10) + 48)%N :: acc)
  end.

(** The decimal text of an integer. *)
Definition Z_to_jsstring (z : Z) : jsstring :=
  let digits := positive_digits (Z.to_nat (Z.log2_up (Z.abs z) + 1)) (Z.abs z) [] in
  if decide (z < 0)%Z then 45%N :: digits else digits.


(** [ds] is the decimal text of [n]: digits only, no leading zero. *)
Definition digit_string (n : Z) (ds : jsstring) : Prop :=
  ds ≠ [] ∧ Forall (λ c, is_digit c = true) ds ∧ digits_Z ds = n ∧ (0 < n → head ds ≠ Some 48%N).

Lemma digits_Z_acc acc ds :
  foldl (λ acc c, 10 * acc + Z.of_N (c - 48))%Z acc ds = acc * 10 ^ Z.of_nat (length ds) + digits_Z ds.
Proof.
  unfold digits_Z. revert acc. induction ds as [|c ds IH]; intros acc; simpl; [lia|].
  rewrite (IH (10 * acc + _)), (IH (10 * 0 + _)).
  rewrite Nat2Z.inj_succ, Z.pow_succ_r by lia. lia.
Qed.

Lemma digits_Z_app xs ys : digits_Z (xs ++ ys) = digits_Z xs * 10 ^ Z.of_nat (length ys) + digits_Z ys.
Proof. unfold digits_Z at 1. by rewrite foldl_app, digits_Z_acc. Qed.

Lemma digits_Z_cons c ds :
  digits_Z (c :: ds) = Z.of_N (c - 48) * 10 ^ Z.of_nat (length ds) + digits_Z ds.
Proof. apply (digits_Z_app [c]). Qed.

Lemma digits_Z_nonneg ds : 0 ≤ digits_Z ds.
Proof.
  induction ds as [|c ds IH] using rev_ind; [done|].
  rewrite digits_Z_app. unfold digits_Z at 2. simpl. lia.
Qed.

(** [n] zeros. *)
Definition zeros (n : nat) : jsstring := replicate n 48%N.

Lemma digits_Z_zeros z : digits_Z (zeros z) = 0.
Proof.
  induction z as [|z IH]; [done|]. unfold zeros in *. cbn [replicate].
  rewrite digits_Z_cons, IH. simpl. lia.
Qed.

Lemma zeros_digits z : Forall (λ c, is_digit c = true) (zeros z).
Proof. apply Forall_replicate. by apply bool_decide_eq_true. Qed.

Lemma digit_char_is_digit d : 0 ≤ d < 10 → is_digit (Z.to_N d + 48)%N = true.
Proof. intros. apply bool_decide_eq_true. lia. Qed.

Lemma positive_digits_spec fuel n acc :
  fuel ≠ O → 0 ≤ n < 10 ^ Z.of_nat fuel →
  ∃ ds, positive_digits fuel n acc = ds ++ acc ∧ digit_string n ds.
Proof.
  revert n acc. induction fuel as [|fuel IH]; intros n acc Hf Hn; [done|].
  rewrite Nat2Z.inj_succ, Z.pow_succ_r in Hn by lia. simpl.
  case_decide.
  - exists [(Z.to_N n + 48)%N]. split; [done|].
    split_and!; [done| |unfold digits_Z; simpl; lia|intros ? [=]; lia].
    constructor; [apply digit_char_is_digit; lia|done].
  - destruct (IH (n / 10) ((Z.to_N (n mod 10) + 48)%N :: acc)) as (ds & Hds & Hne & Hd & Hv & Hh).
    { destruct fuel; [simpl in Hn; lia|done]. }
    { split; [apply Z.div_pos; lia|]. apply Z.div_lt_upper_bound; lia. }
    exists (ds ++ [(Z.to_N (n mod 10) + 48)%N]). rewrite <-(assoc_L (++)). split; [done|].
    split_and!.
    + by destruct ds.
    + apply Forall_app. split; [done|]. constructor; [|done]. apply digit_char_is_digit.
      apply Z.mod_pos_bound. lia.
    + rewrite digits_Z_app, Hv. unfold digits_Z. simpl.
      pose proof (Z.div_mod n 10). pose proof (Z.mod_pos_bound n 10). lia.
    + intros _. destruct ds as [|c ds]; [done|]. apply Hh.
      assert (10 ≤ n) by lia. apply Z.div_str_pos. lia.
Qed.

Lemma Z_to_jsstring_digits n : 0 ≤ n → digit_string n (Z_to_jsstring n).
Proof.
  intros Hn. unfold Z_to_jsstring. rewrite Z.abs_eq by done.
  case_decide; [lia|].
  destruct (positive_digits_spec (Z.to_nat (Z.log2_up n + 1)) n []) as (ds & -> & Hds).
  - pose proof (Z.log2_up_nonneg n). lia.
  - split; [done|]. rewrite Z2Nat.id by (pose proof (Z.log2_up_nonneg n); lia).
    destruct (decide (n = 0)) as [->|]; [done|].
    pose proof (Z.log2_log2_up_spec n). pose proof (Z.log2_up_nonneg n).
    apply Z.lt_le_trans with (2 ^ (Z.log2_up n + 1)).
    + rewrite Z.pow_add_r, Z.pow_1_r by lia. lia.
    + apply Z.pow_le_mono_l. lia.
  - by rewrite app_nil_r.
Qed.

(** ** The decimal form of a rational *)

(** The power of [p] in [d]: [d = p^a × r] with [r] not a multiple of
    [p], given fuel above the bit length of [d]. *)
Fixpoint strip_factor (fuel : nat) (p d : Z) : nat * Z :=
  match fuel with
  | O => (O, d)
  | S f => if decide (d mod p = 0) then let '(a, r) := strip_factor f p (d / p) in (S a, r)
           else (O, d)
  end.

(** [Some (m, k)] with [q = m / 10^k] when the denominator of [q] has
    no prime factor but 2 and 5, that is when [q] has a finite decimal
    expansion. *)
Definition decimal_parts (q : Qc) : option (Z * Z) :=
  let d := Zpos (Qden q) in
  let f := Pos.to_nat (Pos.size (Qden q)) in
  let '(a, r1) := strip_factor f 2 d in
  let '(b, r) := strip_factor f 5 r1 in
  if decide (r = 1) then
    let k := Nat.max a b in
    Some (Qnum q * 2 ^ Z.of_nat (k - a) * 5 ^ Z.of_nat (k - b), Z.of_nat k)
  else None.

Definition is_decimal (q : Qc) : bool := bool_decide (is_Some (decimal_parts q)).

Lemma strip_factor_spec fuel p d :
  2 ≤ p → 0 < d →
  let '(a, r) := strip_factor fuel p d in
  d = p ^ Z.of_nat a * r ∧ 0 < r ∧ (d < 2 ^ Z.of_nat fuel → r mod p ≠ 0).
Proof.
  revert d. induction fuel as [|f IH]; intros d Hp Hd; simpl.
  - split_and!; [lia|done|]. simpl. lia.
  - case_decide as Hm; [|split_and!; [lia|done|done]].
    pose proof (Z.div_mod d p). pose proof (Z.div_pos d p).
    specialize (IH (d / p) Hp). destruct (strip_factor f p (d / p)) as [a r].
    destruct IH as (Hd' & Hr & Hm'); [nia|].
    split_and!; [rewrite Nat2Z.inj_succ, Z.pow_succ_r by lia; nia|done|].
    intros Hlt. apply Hm'. rewrite Nat2Z.inj_succ, Z.pow_succ_r in Hlt by lia.
    rewrite Hm, Z.add_0_r in H. nia.
Qed.

Lemma den_size q : Zpos (Qden q) < 2 ^ Z.of_nat (Pos.to_nat (Pos.size (Qden q))).
Proof.
  rewrite positive_nat_Z. pose proof (Pos.size_gt (Qden q)) as H.
  rewrite <-Pos2Z.inj_pow. exact H.
Qed.

Lemma Qc_as_fraction (q : Qc) : q = Q2Qc (Qnum q # Qden q).
Proof. apply Qc_is_canon. simpl. rewrite Qred_correct. by destruct q as [[]]. Qed.

Lemma decimal_neg_e m k : 0 < k → decimal false m (- k) = Q2Qc (m # Z.to_pos (10 ^ k)).
Proof. intros. unfold decimal. case_decide; [lia|]. by rewrite Z.opp_involutive. Qed.

Lemma pow10_pos x : 0 ≤ x → 0 < 10 ^ x.
Proof. intros. by apply Z.pow_pos_nonneg. Qed.

Lemma to_pos_pow10 x : 0 ≤ x → Zpos (Z.to_pos (10 ^ x)) = 10 ^ x.
Proof. intros. apply Z2Pos.id, pow10_pos. lia. Qed.

(** Moving trailing zeros of the mantissa into the exponent. *)
Lemma decimal_shift m z e : 0 ≤ z → decimal false (m * 10 ^ z) e = decimal false m (e + z).
Proof.
  intros Hz. unfold decimal. apply Q2Qc_eq_iff.
  repeat case_decide; unfold Qeq; simpl; rewrite ?to_pos_pow10 by lia; try lia.
  - rewrite Z.pow_add_r by lia. ring.
  - replace z with ((e + z) + - e) at 1 by lia. rewrite Z.pow_add_r by lia. ring.
  - replace (- e) with (z + - (e + z)) by lia. rewrite Z.pow_add_r by lia. ring.
Qed.

Lemma decimal_neg m e : decimal true m e = (- decimal false m e)%Qc.
Proof. unfold decimal, Qcopp. apply Q2Qc_eq_iff. simpl. by rewrite Qred_correct. Qed.

Lemma decimal_parts_sound q m k :
  decimal_parts q = Some (m, k) → 0 ≤ k ∧ q = decimal false m (- k).
Proof.
  unfold decimal_parts. pose proof (den_size q) as Hs.
  pose proof (strip_factor_spec (Pos.to_nat (Pos.size (Qden q))) 2 (Zpos (Qden q))) as H2.
  destruct (strip_factor _ 2 _) as [a r1]. destruct H2 as (Hd & Hr1 & _); [lia|lia|].
  pose proof (strip_factor_spec (Pos.to_nat (Pos.size (Qden q))) 5 r1) as H5.
  destruct (strip_factor _ 5 r1) as [b r]. destruct H5 as (Hr & _ & _); [lia|lia|].
  case_decide as Hr'; [|done]. intros [= <- <-]. split; [lia|].
  rewrite (Qc_as_fraction q) at 1. unfold decimal. apply Q2Qc_eq_iff.
  case_decide; unfold Qeq; simpl.
  - assert (Nat.max a b = 0)%nat as -> by lia. assert (a = 0 ∧ b = 0)%nat as [-> ->] by lia.
    simpl in *. lia.
  - rewrite Z.opp_involutive, to_pos_pow10 by lia. subst r. rewrite Hd, Hr, !Z.mul_1_r.
    set (k := Nat.max a b). replace (10 ^ Z.of_nat k) with (2 ^ Z.of_nat k * 5 ^ Z.of_nat k)
      by (rewrite <-Z.pow_mul_l; done).
    replace (Z.of_nat k) with (Z.of_nat (k - a) + Z.of_nat a) at 1 by lia.
    replace (Z.of_nat k) with (Z.of_nat (k - b) + Z.of_nat b) at 1 by lia.
    rewrite !Z.pow_add_r by lia. ring.
Qed.

Lemma gcd_10 r : r mod 2 ≠ 0 → r mod 5 ≠ 0 → Z.gcd r 10 = 1.
Proof.
  intros H2 H5. pose proof (Z.gcd_nonneg r 10).
  destruct (Z.gcd_divide_l r 10) as [c1 H1], (Z.gcd_divide_r r 10) as [c2 H10].
  remember (Z.gcd r 10) as g. assert (g ≠ 0) by (intros ->; lia).
  assert (0 < c2) by nia. assert (g ≤ 10) by nia.
  assert (g = 1 ∨ g = 2 ∨ g = 3 ∨ g = 4 ∨ g = 5 ∨ g = 6 ∨ g = 7 ∨ g = 8 ∨ g = 9 ∨ g = 10)
    as Hg by lia. clear Heqg.
  repeat destruct Hg as [Hg|Hg]; subst g; try lia; subst r; rewrite ?Z.mod_mul in * by lia; try lia.
  exfalso. apply H2. replace (c1 * 10) with ((c1 * 5) * 2) by ring. by rewrite Z.mod_mul.
Qed.

Lemma coprime10_divide_pow r j :
  0 < r → r mod 2 ≠ 0 → r mod 5 ≠ 0 → (r | 10 ^ Z.of_nat j) → r = 1.
Proof.
  intros Hr H2 H5. induction j as [|j IH]; intros Hd.
  - apply Z.divide_1_r_nonneg; [lia|done].
  - apply IH. rewrite Nat2Z.inj_succ, Z.pow_succ_r in Hd by lia.
    apply (Z.gauss _ 10); [done|]. by apply gcd_10.
Qed.

Lemma decimal_Q m j : 0 ≤ j → (decimal false m (- j) : Q) == m # Z.to_pos (10 ^ j).
Proof.
  intros Hj. unfold decimal. cbn [this Q2Qc]. rewrite Qred_correct.
  case_decide; [assert (j = 0) as -> by lia|]; unfold Qeq; simpl; rewrite ?Z.opp_involutive; lia.
Qed.

(** Every rational of the form [m / 10^j] has its decimal parts. *)
Lemma decimal_parts_complete (q : Qc) m j :
  0 ≤ j → (q : Q) == m # Z.to_pos (10 ^ j) → is_Some (decimal_parts q).
Proof.
  intros Hj Heq.
  assert (Qnum q * 10 ^ j = m * Zpos (Qden q)) as Hx.
  { unfold Qeq in Heq. simpl in Heq. rewrite to_pos_pow10 in Heq by lia. lia. }
  assert (Z.gcd (Zpos (Qden q)) (Qnum q) = 1) as Hg.
  { rewrite Z.gcd_comm. apply Qred_iff. apply (canon q). }
  assert (Zpos (Qden q) | 10 ^ j) as Hd.
  { apply (Z.gauss _ (Qnum q)); [|done]. exists m. lia. }
  unfold decimal_parts. pose proof (den_size q) as Hs.
  pose proof (strip_factor_spec (Pos.to_nat (Pos.size (Qden q))) 2 (Zpos (Qden q))) as H2.
  destruct (strip_factor _ 2 _) as [a r1]. destruct H2 as (Hd2 & Hr1 & Hm2); [lia|lia|].
  pose proof (strip_factor_spec (Pos.to_nat (Pos.size (Qden q))) 5 r1) as H5.
  destruct (strip_factor _ 5 r1) as [b r]. destruct H5 as (Hd5 & Hr & Hm5); [lia|lia|].
  assert (2 ^ 0 ≤ 2 ^ Z.of_nat a) by (apply Z.pow_le_mono_r; lia).
  assert (5 ^ 0 ≤ 5 ^ Z.of_nat b) by (apply Z.pow_le_mono_r; lia).
  specialize (Hm2 Hs). specialize (Hm5 ltac:(simpl in *; nia)).
  assert (r = 1) as ->; [|by case_decide].
  apply (coprime10_divide_pow r (Z.to_nat j)); [done| |done|].
  - intros Hr2. apply Hm2. apply Z.mod_divide in Hr2 as [c ->]; [|lia].
    rewrite Hd5. apply Z.mod_divide; [lia|]. exists (5 ^ Z.of_nat b * c). ring.
  - rewrite Z2Nat.id by done. eapply Z.divide_trans; [|exact Hd].
    exists (2 ^ Z.of_nat a * 5 ^ Z.of_nat b). lia.
Qed.

Lemma is_decimal_spec q :
  is_decimal q = true ↔ ∃ m j, 0 ≤ j ∧ (q : Q) == m # Z.to_pos (10 ^ j).
Proof.
  unfold is_decimal. rewrite bool_decide_eq_true. split.
  - intros [[m k] Hp]. destruct (decimal_parts_sound q m k Hp) as [Hk ->].
    exists m, k. split; [done|]. by apply decimal_Q.
  - intros (m & j & Hj & Hq). by apply (decimal_parts_complete q m j).
Qed.

(** ** Finite decimals are closed under the operations of the handlers *)

Section decimal_closure.
Implicit Types a b : Qc.

Lemma is_decimal_intro (q : Qc) m j : 0 ≤ j → (q : Q) == m # Z.to_pos (10 ^ j) → is_decimal q = true.
Proof. intros. apply is_decimal_spec. eauto. Qed.

Ltac decimal_parts_of H :=
  apply is_decimal_spec in H as (?m & ?j & ?Hj & H).

Ltac finish_decimal := unfold Qeq; simpl; rewrite ?Pos2Z.inj_mul, ?to_pos_pow10, ?Z.pow_add_r by lia; ring.

Lemma is_decimal_plus a b : is_decimal a = true → is_decimal b = true → is_decimal (a + b)%Qc = true.
Proof.
  intros Ha Hb. decimal_parts_of Ha. decimal_parts_of Hb.
  apply (is_decimal_intro _ (m * 10 ^ j0 + m0 * 10 ^ j) (j + j0)); [lia|].
  unfold Qcplus. cbn [this Q2Qc]. rewrite Qred_correct, Ha, Hb. finish_decimal.
Qed.

Lemma is_decimal_mult a b : is_decimal a = true → is_decimal b = true → is_decimal (a * b)%Qc = true.
Proof.
  intros Ha Hb. decimal_parts_of Ha. decimal_parts_of Hb.
  apply (is_decimal_intro _ (m * m0) (j + j0)); [lia|].
  unfold Qcmult. cbn [this Q2Qc]. rewrite Qred_correct, Ha, Hb. finish_decimal.
Qed.

Lemma is_decimal_opp a : is_decimal a = true → is_decimal (- a)%Qc = true.
Proof.
  intros Ha. decimal_parts_of Ha. apply (is_decimal_intro _ (- m) j); [done|].
  unfold Qcopp. cbn [this Q2Qc]. rewrite Qred_correct, Ha. finish_decimal.
Qed.

Lemma is_decimal_decimal neg m e : is_decimal (decimal neg m e) = true.
Proof.
  unfold decimal. destruct (decide (0 ≤ e)).
  - apply (is_decimal_intro _ ((if neg then -1 else 1) * m * 10 ^ e) 0); [done|].
    cbn [this Q2Qc]. rewrite Qred_correct. destruct neg; finish_decimal.
  - apply (is_decimal_intro _ ((if neg then -1 else 1) * m) (- e)); [lia|].
    cbn [this Q2Qc]. rewrite Qred_correct. destruct neg; finish_decimal.
Qed.

Lemma is_decimal_Z z : is_decimal (Qc_of_Z z) = true.
Proof.
  apply (is_decimal_intro _ z 0); [done|]. unfold Qc_of_Z. cbn [this].
  finish_decimal.
Qed.
End decimal_closure.

Definition num_decimal (n : number) : bool :=
  match n with Num q => is_decimal q | _ => true end.

Lemma num_decimal_add x y : num_decimal x = true → num_decimal y = true → num_decimal (num_add x y) = true.
Proof. destruct x, y; simpl; auto using is_decimal_plus. Qed.

Lemma num_decimal_mul x y : num_decimal x = true → num_decimal y = true → num_decimal (num_mul x y) = true.
Proof.
  unfold num_mul, inf_times. destruct x, y; simpl; repeat case_decide; auto using is_decimal_mult.
Qed.

(** ** Number::toString *)

(** A decimal text: the integer digits, the fraction digits (written
    after a [.] when there are any) and the exponent (written after [e]
    with its sign, when there is one). *)
Record dec_text := { dt_int : jsstring; dt_frac : jsstring; dt_exp : option Z }.

Definition exponent_text (x : Z) : jsstring :=
  (if decide (0 ≤ x) then 43%N else 45%N) :: Z_to_jsstring (Z.abs x).

Definition render (t : dec_text) : jsstring :=
  dt_int t ++ (match dt_frac t with [] => [] | fp => 46%N :: fp end)
           ++ (match dt_exp t with None => [] | Some x => 101%N :: exponent_text x end).

(** Steps 6 to 10 of Number::toString(x, 10) for [x > 0], from the [k]
    digits [ds] of [s] and the exponent [n] with [x = s × 10^(n - k)]:
    plain digits padded with zeros, a point inside the digits, [0.] and
    leading zeros, or one digit, the others after a point, and the
    exponent [n - 1] (whose sign is that of [n] in this range). *)
Definition to_string_layout (ds : jsstring) (n : Z) : dec_text :=
  let k := Z.of_nat (length ds) in
  if decide (-5 ≤ n ≤ 21) then
    if decide (k ≤ n) then {| dt_int := ds ++ zeros (Z.to_nat (n - k)); dt_frac := []; dt_exp := None |}
    else if decide (0 < n) then {| dt_int := take (Z.to_nat n) ds; dt_frac := drop (Z.to_nat n) ds; dt_exp := None |}
    else {| dt_int := [48%N]; dt_frac := zeros (Z.to_nat (- n)) ++ ds; dt_exp := None |}
  else {| dt_int := take 1 ds; dt_frac := drop 1 ds; dt_exp := Some (n - 1) |}.

Fixpoint drop_zeros (ds : jsstring) : jsstring :=
  match ds with
  | c :: ds' => if decide (c = 48%N) then drop_zeros ds' else ds
  | [] => []
  end.

(** The digits without their trailing zeros: the smallest [k]. *)
Definition strip_trailing_zeros (ds : jsstring) : jsstring := rev (drop_zeros (rev ds)).

(** [m] and [k] with [q = m / 10^k]: the decimal parts, or for a
    rational that is not a finite decimal its expansion truncated to 20
    decimals. *)
Definition decimal_digits (q : Qc) : Z * Z :=
  match decimal_parts q with
  | Some mk => mk
  | None => (Qfloor (q * inject_Z (10 ^ 20)), 20)
  end.

Definition positive_text (q : Qc) : jsstring :=
  let '(m, k) := decimal_digits q in
  let ds := Z_to_jsstring m in
  render (to_string_layout (strip_trailing_zeros ds) (Z.of_nat (length ds) - k)).

(** Number::toString of a finite number: ["0"], the sign, then the
    digits. *)
Definition exact_to_string (q : Qc) : jsstring :=
  if decide (q = 0%Qc) then [48%N]
  else if decide (q < 0)%Qc then 45%N :: positive_text (- q)
  else positive_text q.

(** ** StringToNumber *)

(** StrUnsignedDecimalLiteral without [Infinity]: digits, an optional
    point with optional digits, or a point and digits; then an optional
    ExponentPart; the whole text. *)
Definition str_unsigned_decimal (t : jsstring) : option Qc :=
  let '(ip, t1) := span is_digit t in
  let '(fp, t2) := match t1 with
                   | 46%N :: r => span is_digit r
                   | _ => ([], t1)
                   end in
  match ip ++ fp with
  | [] => None
  | _ :: _ =>
      '(e, t3) ← lex_exp t2;
      match t3 with
      | [] => Some (decimal false (digits_Z (ip ++ fp)) (e - Z.of_nat (length fp)))
      | _ :: _ => None
      end
  end.

(** A digit of the radix [b] ([b ≤ 16]). *)
Definition radix_digit (b : N) (c : N) : option N :=
  d ← hex_value c; if decide (d < b)%N then Some d else None.

Fixpoint radix_value (b : N) (acc : Z) (s : jsstring) : option Z :=
  match s with
  | [] => Some acc
  | c :: s' => d ← radix_digit b c; radix_value b (Z.of_N b * acc + Z.of_N d) s'
  end.

(** NonDecimalIntegerLiteral: [0x], [0o] or [0b] (either case) and at
    least one digit of that radix. *)
Definition str_non_decimal (t : jsstring) : option Z :=
  match t with
  | z :: x :: (_ :: _) as ds =>
      if decide (z ≠ 48%N) then None
      else if decide (x = 120%N ∨ x = 88%N) then radix_value 16 0 ds
      else if decide (x = 111%N ∨ x = 79%N) then radix_value 8 0 ds
      else if decide (x = 98%N ∨ x = 66%N) then radix_value 2 0 ds
      else None
  | _ => None
  end.

(** The optional sign of StrDecimalLiteral. *)
Definition str_sign (t : jsstring) : bool * jsstring :=
  match t with
  | c :: u => if decide (c = 43%N) then (false, u) else if decide (c = 45%N) then (true, u) else (false, t)
  | [] => (false, [])
  end.

(** StringToNumber (7.1.4.1.1): white space and line terminators
    around; the empty text is 0; a non-decimal integer; a decimal with an
    optional sign, or [Infinity] with an optional sign; NaN otherwise. *)
Definition exact_string_to_number (s : jsstring) : number :=
  match trim s with
  | [] => num_zero
  | t =>
      match str_non_decimal t with
      | Some z => num_of_Z z
      | None =>
          let '(neg, u) := str_sign t in
          if decide (u = js "Infinity") then (if neg then NegInf else PosInf)
          else match str_unsigned_decimal u with
               | Some q => Num (if neg then - q else q)%Qc
               | None => NaN
               end
      end
  end.

(** The conversions of ECMAScript on the exact numbers. *)
#[export] Instance exact_conversions : JsConversions := {|
  string_to_number := exact_string_to_number;
  finite_to_string := exact_to_string;
|}.

(** ** Reading a printed number back *)

Definition frac_part (t : dec_text) : jsstring :=
  match dt_frac t with [] => [] | fp => 46%N :: fp end.

Definition exp_part (t : dec_text) : jsstring :=
  match dt_exp t with None => [] | Some x => 101%N :: exponent_text x end.

(** The value a decimal text denotes. *)
Definition dec_value (t : dec_text) : Qc :=
  decimal false (digits_Z (dt_int t ++ dt_frac t)) (default 0 (dt_exp t) - Z.of_nat (length (dt_frac t))).

(** Digits before and after the point, no leading zero but in ["0"]. *)
Definition dec_text_wf (t : dec_text) : Prop :=
  dt_int t ≠ [] ∧ Forall (λ c, is_digit c = true) (dt_int t) ∧
  Forall (λ c, is_digit c = true) (dt_frac t) ∧ (head (dt_int t) = Some 48%N → dt_int t = [48%N]).

Lemma render_parts t : render t = dt_int t ++ frac_part t ++ exp_part t.
Proof. done. Qed.

Lemma span_digits_end ds : Forall (λ c, is_digit c = true) ds → span is_digit ds = (ds, []).
Proof. intros. rewrite <-(app_nil_r ds) at 1. by apply span_stop. Qed.

Lemma lex_exp_part t : lex_exp (exp_part t) = Some (default 0 (dt_exp t), []).
Proof.
  unfold exp_part. destruct (dt_exp t) as [x|]; [|done].
  unfold exponent_text. destruct (Z_to_jsstring_digits (Z.abs x)) as (Hne & Hd & Hv & _); [lia|].
  destruct (Z_to_jsstring (Z.abs x)) as [|c ds] eqn:E; [done|].
  destruct (decide (0 ≤ x)); unfold lex_exp; cbn -[span digits_Z];
    repeat (case_decide; try lia); rewrite span_digits_end by done; do 3 f_equal; lia.
Qed.

Lemma span_int_part t :
  Forall (λ c, is_digit c = true) (dt_int t) →
  span is_digit (render t) = (dt_int t, frac_part t ++ exp_part t).
Proof.
  intros Hd. rewrite render_parts. apply span_stop; [done|].
  unfold frac_part, exp_part. intros c r' E.
  destruct (dt_frac t); [destruct (dt_exp t)|]; simplify_eq/=; done.
Qed.

Lemma frac_part_split t :
  Forall (λ c, is_digit c = true) (dt_frac t) →
  match frac_part t ++ exp_part t with
  | 46%N :: r => span is_digit r
  | _ => ([], frac_part t ++ exp_part t)
  end = (dt_frac t, exp_part t).
Proof.
  intros Hd. unfold frac_part, exp_part.
  destruct (dt_frac t) as [|c fp] eqn:E; [destruct (dt_exp t); done|].
  cbn [app]. rewrite app_comm_cons. apply span_stop; [done|].
  intros c' r' E'. destruct (dt_exp t); simplify_eq/=; done.
Qed.

Lemma lex_frac_part t :
  Forall (λ c, is_digit c = true) (dt_frac t) →
  lex_frac (frac_part t ++ exp_part t) = Some (dt_frac t, exp_part t).
Proof.
  intros Hd. pose proof (frac_part_split t Hd) as Hs. revert Hs.
  unfold frac_part, exp_part.
  destruct (dt_frac t) as [|c fp] eqn:E; [destruct (dt_exp t); done|].
  cbn [app]. intros Hs. cbn -[span]. by rewrite Hs.
Qed.

Lemma lex_int_part t :
  dec_text_wf t → lex_int (render t) = Some (dt_int t, frac_part t ++ exp_part t).
Proof.
  intros (Hne & Hd & _ & H0). pose proof (span_int_part t Hd) as Hs.
  rewrite render_parts in *. destruct (dt_int t) as [|c ip] eqn:E; [done|].
  inversion Hd as [|? ? Hc]; subst. unfold is_digit in Hc. apply bool_decide_eq_true in Hc.
  cbn -[span]. case_decide as Hc0.
  - subst c. specialize (H0 eq_refl). by injection H0 as ->.
  - rewrite decide_True by lia. cbn [app] in Hs. by rewrite Hs.
Qed.

Lemma json_number_render t : dec_text_wf t → json_number (render t) = Some (dec_value t).
Proof.
  intros Hwf. pose proof (lex_int_part t Hwf) as Hi. destruct Hwf as (Hne & Hd & Hf & _).
  unfold json_number.
  destruct (render t) as [|c r] eqn:E; [rewrite render_parts in E; destruct (dt_int t); done|].
  assert (c ≠ 45%N) as Hc.
  { rewrite render_parts in E. destruct (dt_int t); [done|]. simplify_eq/=.
    inversion Hd as [|? ? Hc]. unfold is_digit in Hc. apply bool_decide_eq_true in Hc. lia. }
  rewrite decide_False by done. cbn iota beta. rewrite Hi. cbn -[lex_frac lex_exp decimal digits_Z].
  rewrite lex_frac_part by done. cbn -[lex_exp decimal digits_Z]. by rewrite lex_exp_part.
Qed.

Lemma json_number_render_neg t :
  dec_text_wf t → json_number (45%N :: render t) = Some (- dec_value t)%Qc.
Proof.
  intros Hwf. pose proof (lex_int_part t Hwf) as Hi. destruct Hwf as (Hne & Hd & Hf & _).
  unfold json_number. rewrite decide_True by done. cbn iota beta.
  rewrite Hi. cbn -[lex_frac lex_exp decimal digits_Z].
  rewrite lex_frac_part by done. cbn -[lex_exp decimal digits_Z]. rewrite lex_exp_part.
  cbn -[decimal digits_Z]. by rewrite decimal_neg.
Qed.

Lemma str_unsigned_render t :
  dec_text_wf t → str_unsigned_decimal (render t) = Some (dec_value t).
Proof.
  intros (Hne & Hd & Hf & _). unfold str_unsigned_decimal.
  rewrite span_int_part by done. cbn iota beta. rewrite frac_part_split by done.
  destruct (dt_int t) as [|c ip] eqn:E; [done|]. cbn [app].
  rewrite lex_exp_part. unfold dec_value. by rewrite E.
Qed.

(** ** The layout of Number::toString denotes the number *)

Section layout.
Context (ds : jsstring) (n : Z).
Hypothesis (Hne : ds ≠ []) (Hd : Forall (λ c, is_digit c = true) ds).

Lemma layout_wf : head ds ≠ Some 48%N → dec_text_wf (to_string_layout ds n).
Proof.
  intros Hh.
  assert (∀ j, (0 < j)%nat → head (take j ds) = head ds ∧ take j ds ≠ []) as Ht.
  { intros [|j] ?; [lia|]. by destruct ds. }
  assert (∀ l, head (ds ++ l) = head ds ∧ ds ++ l ≠ []) as Ha by (by destruct ds).
  unfold to_string_layout. repeat case_decide; split_and!; cbn [dt_int dt_frac];
    try apply Forall_nil; try done; try (by intros; reflexivity); try (by destruct ds);
    try (repeat constructor; fail);
    try (apply Forall_app; split; auto using zeros_digits; fail);
    try (by apply Forall_take); try (by apply Forall_drop);
    try (apply Ht; lia); try apply Ha;
    intros Hx; exfalso; apply Hh; rewrite <-Hx; symmetry; first [apply Ha | apply Ht; lia].
Qed.

Lemma layout_value :
  dec_value (to_string_layout ds n) = decimal false (digits_Z ds) (n - Z.of_nat (length ds)).
Proof.
  unfold to_string_layout, dec_value. repeat case_decide; cbn [dt_int dt_frac dt_exp default].
  - rewrite app_nil_r, digits_Z_app, digits_Z_zeros, Z.add_0_r, decimal_shift by lia.
    f_equal. unfold zeros. rewrite length_replicate. simpl. lia.
  - rewrite take_drop, length_drop. f_equal. lia.
  - rewrite (app_assoc [48%N]).
    change ([48%N] ++ zeros (Z.to_nat (- n))) with (zeros (S (Z.to_nat (- n)))).
    rewrite digits_Z_app, digits_Z_zeros. unfold zeros. rewrite length_app, length_replicate.
    f_equal. lia.
  - rewrite take_drop, length_drop. unfold id. f_equal. destruct ds; [done|]. simpl. lia.
Qed.
End layout.

Lemma drop_zeros_spec l : ∃ z, l = zeros z ++ drop_zeros l ∧ head (drop_zeros l) ≠ Some 48%N.
Proof.
  induction l as [|c l IH]; [by exists O|]. simpl.
  case_decide as Hc.
  - destruct IH as [z [Hz Hh]]. exists (S z). split; [|done]. subst c. simpl. by f_equal.
  - exists O. split; [done|]. by intros [=].
Qed.

Lemma rev_zeros z : rev (zeros z) = zeros z.
Proof.
  unfold zeros. induction z as [|z IH]; [done|]. cbn [replicate rev].
  by rewrite IH, <-replicate_S_end.
Qed.

Lemma strip_trailing_zeros_spec ds :
  ∃ z, ds = strip_trailing_zeros ds ++ zeros z.
Proof.
  destruct (drop_zeros_spec (rev ds)) as [z [Hz _]]. exists z. unfold strip_trailing_zeros.
  apply (f_equal (@rev N)) in Hz. by rewrite rev_involutive, rev_app_distr, rev_zeros in Hz.
Qed.

Lemma decimal_digits_parts q m k : decimal_parts q = Some (m, k) → decimal_digits q = (m, k).
Proof. unfold decimal_digits. by intros ->. Qed.

(** The digits Number::toString prints for a positive finite decimal,
    and the number they denote. *)
Lemma positive_text_spec q :
  (0 < q)%Qc → is_decimal q = true →
  ∃ t, positive_text q = render t ∧ dec_text_wf t ∧ dec_value t = q.
Proof.
  intros Hq Hdec. unfold is_decimal in Hdec. apply bool_decide_eq_true in Hdec as [[m k] Hp].
  destruct (decimal_parts_sound q m k Hp) as [Hk Hqv].
  assert (0 < m) as Hm.
  { pose proof (decimal_Q m k Hk) as HQ. rewrite <-Hqv in HQ.
    unfold Qclt in Hq. rewrite HQ in Hq. unfold Qlt in Hq. simpl in Hq. lia. }
  unfold positive_text. rewrite (decimal_digits_parts q m k Hp).
  destruct (Z_to_jsstring_digits m) as (Hne & Hd & Hv & Hh); [lia|].
  set (ds := Z_to_jsstring m) in *.
  destruct (strip_trailing_zeros_spec ds) as [z Hz].
  set (ds' := strip_trailing_zeros ds) in *.
  assert (ds' ≠ []) as Hne'.
  { intros E. rewrite Hz, E, app_nil_l, digits_Z_zeros in Hv. lia. }
  assert (head ds' = head ds) as Hh' by (rewrite Hz; by destruct ds').
  assert (Forall (λ c, is_digit c = true) ds') as Hd' by (rewrite Hz in Hd; by apply Forall_app in Hd as [? _]).
  exists (to_string_layout ds' (Z.of_nat (length ds) - k)). split_and!; [done| |].
  - apply layout_wf; [done|done|]. rewrite Hh'. auto with lia.
  - rewrite layout_value by done. rewrite Hqv, <-Hv, Hz, digits_Z_app, digits_Z_zeros, Z.add_0_r.
    unfold zeros. rewrite decimal_shift by lia. f_equal.
    rewrite length_app, length_replicate. lia.
Qed.

(** ** The printed text is a number text of both grammars *)

Lemma number_char_cases c :
  is_number_char c = true →
  (48 ≤ c ≤ 57)%N ∨ c = 45%N ∨ c = 43%N ∨ c = 46%N ∨ c = 101%N ∨ c = 69%N.
Proof.
  unfold is_number_char, is_digit. intros Hc.
  apply orb_true_iff in Hc as [Hc|Hc]; apply bool_decide_eq_true in Hc; lia.
Qed.

Lemma number_char_not_space c : is_number_char c = true → is_js_space c = false.
Proof.
  intros Hc. apply number_char_cases in Hc.
  assert (c = 43 ∨ c = 45 ∨ c = 46 ∨ c = 48 ∨ c = 49 ∨ c = 50 ∨ c = 51 ∨ c = 52 ∨ c = 53 ∨
          c = 54 ∨ c = 55 ∨ c = 56 ∨ c = 57 ∨ c = 69 ∨ c = 101)%N as Hcs by lia.
  repeat destruct Hcs as [->|Hcs]; try reflexivity. subst. reflexivity.
Qed.

Lemma digit_number_char c : is_digit c = true → is_number_char c = true.
Proof. intros Hc. unfold is_number_char. by rewrite Hc. Qed.

Lemma render_number_chars t :
  dec_text_wf t → Forall (λ c, is_number_char c = true) (render t).
Proof.
  intros (_ & Hi & Hf & _). rewrite render_parts.
  assert (∀ l, Forall (λ c, is_digit c = true) l → Forall (λ c, is_number_char c = true) l) as Hdn.
  { intros l. apply Forall_impl. intros c. apply digit_number_char. }
  apply Forall_app. split; [auto|]. apply Forall_app. split.
  - unfold frac_part. destruct (dt_frac t); [done|]. constructor; [done|auto].
  - unfold exp_part, exponent_text. destruct (dt_exp t) as [x|]; [|done].
    destruct (Z_to_jsstring_digits (Z.abs x)) as (_ & Hd & _); [lia|].
    constructor; [done|]. constructor; [by case_decide|auto].
Qed.

Lemma trim_start_no_space s : Forall (λ c, is_js_space c = false) s → trim_start s = s.
Proof. destruct 1 as [|c s Hc _]; simpl; [done|]. by rewrite Hc. Qed.

Lemma trim_no_space s : Forall (λ c, is_js_space c = false) s → trim s = s.
Proof.
  intros Hs. unfold trim, trim_end. rewrite (trim_start_no_space s) by done.
  rewrite trim_start_no_space; [apply rev_involutive|]. by apply Forall_rev.
Qed.

Lemma number_text_trim s : Forall (λ c, is_number_char c = true) s → trim s = s.
Proof.
  intros Hs. apply trim_no_space. eapply Forall_impl; [|exact Hs]. apply number_char_not_space.
Qed.

Lemma render_head t : dec_text_wf t → ∃ c r, render t = c :: r ∧ is_digit c = true.
Proof.
  intros (Hne & Hi & _ & _). rewrite render_parts.
  destruct (dt_int t) as [|c ip]; [done|]. inversion Hi. by exists c, (ip ++ frac_part t ++ exp_part t).
Qed.

Lemma str_non_decimal_render t : dec_text_wf t → str_non_decimal (render t) = None.
Proof.
  intros Hwf. pose proof Hwf as (Hne & Hi & Hf & H0). rewrite render_parts.
  assert (∀ x r, frac_part t ++ exp_part t = x :: r → x = 46%N ∨ x = 101%N) as Hx.
  { unfold frac_part, exp_part. destruct (dt_frac t), (dt_exp t); intros ? ? [=]; auto. }
  destruct (dt_int t) as [|c ip] eqn:E; [done|]. unfold str_non_decimal. cbn [app].
  destruct (decide (c = 48%N)) as [->|Hc].
  - assert (ip = []) as -> by (by injection (H0 eq_refl)). cbn [app].
    destruct (frac_part t ++ exp_part t) as [|x [|y r]] eqn:Er; [done|done|].
    destruct (Hx x (y :: r) eq_refl) as [->| ->]; repeat case_decide; done || lia.
  - destruct (ip ++ frac_part t ++ exp_part t) as [|x [|y r]]; [done|done|].
    by rewrite decide_True.
Qed.

Lemma str_sign_digit c r : is_digit c = true → str_sign (c :: r) = (false, c :: r).
Proof.
  unfold is_digit. intros Hc. apply bool_decide_eq_true in Hc. simpl.
  by rewrite !decide_False by lia.
Qed.

Lemma Qc_opp_pos q : (q < 0)%Qc → (0 < - q)%Qc.
Proof. unfold Qclt, Qcopp. cbn [this Q2Qc]. rewrite (Qred_correct (- q)). unfold Qlt. simpl. lia. Qed.

(** The three forms of Number::toString on a finite decimal. *)
Lemma exact_to_string_cases q :
  is_decimal q = true →
  (q = 0%Qc ∧ exact_to_string q = [48%N]) ∨
  (∃ t, exact_to_string q = 45%N :: render t ∧ dec_text_wf t ∧ dec_value t = (- q)%Qc) ∨
  (∃ t, exact_to_string q = render t ∧ dec_text_wf t ∧ dec_value t = q).
Proof.
  intros Hq. unfold exact_to_string. case_decide as H0; [by left|right].
  case_decide as Hneg; [left|right].
  - destruct (positive_text_spec (- q)) as (t & -> & Hwf & Hv);
      [by apply Qc_opp_pos|by apply is_decimal_opp|]. eauto.
  - destruct (positive_text_spec q) as (t & -> & Hwf & Hv); [|done|eauto].
    apply Qcnot_lt_le in Hneg. apply Qcle_lt_or_eq in Hneg as [?|?]; [done|congruence].
Qed.

Lemma string_to_number_render t :
  dec_text_wf t → exact_string_to_number (render t) = Num (dec_value t).
Proof.
  intros Hwf. unfold exact_string_to_number.
  rewrite number_text_trim by (by apply render_number_chars).
  destruct (render_head t Hwf) as (c & r & Hr & Hc). rewrite Hr.
  rewrite <-Hr, str_non_decimal_render, Hr, str_sign_digit by done. cbn iota beta.
  rewrite decide_False; [rewrite <-Hr, str_unsigned_render by done; done|].
  intros [= ->]. discriminate Hc.
Qed.

Lemma string_to_number_render_neg t :
  dec_text_wf t → exact_string_to_number (45%N :: render t) = Num (- dec_value t)%Qc.
Proof.
  intros Hwf. unfold exact_string_to_number.
  rewrite number_text_trim by (constructor; [done|by apply render_number_chars]).
  destruct (render_head t Hwf) as (c & r & Hr & Hc). rewrite Hr.
  assert (str_non_decimal (45%N :: c :: r) = None) as -> by (destruct r; simpl; by rewrite ?decide_True).
  simpl str_sign. cbn iota beta.
  rewrite decide_False; [rewrite <-Hr, str_unsigned_render by done; done|].
  intros [= ->]. discriminate Hc.
Qed.

Lemma exact_number_text q : is_decimal q = true → @number_text exact_conversions q.
Proof.
  intros Hq. unfold number_text. cbn [finite_to_string exact_conversions].
  destruct (exact_to_string_cases q Hq) as [[-> ->]|[(t & -> & Hwf & Hv)|(t & -> & Hwf & Hv)]].
  - split; [|repeat constructor]. vm_compute. f_equal; try (apply Qc_is_canon; reflexivity).
  - split; [|constructor; [done|by apply render_number_chars]].
    rewrite json_number_render_neg, Hv by done. by rewrite Qcopp_involutive.
  - split; [|by apply render_number_chars]. by rewrite json_number_render, Hv.
Qed.

Lemma str_unsigned_decimal_decimal u q : str_unsigned_decimal u = Some q → is_decimal q = true.
Proof.
  unfold str_unsigned_decimal. destruct (span is_digit u) as [ip t1].
  destruct (match t1 with 46%N :: r => span is_digit r | _ => ([], t1) end) as [fp t2].
  destruct (ip ++ fp); [done|]. destruct (lex_exp t2) as [[e [|]]|]; simpl; [|done|done].
  intros [= <-]. apply is_decimal_decimal.
Qed.

Lemma is_decimal_zero : is_decimal 0 = true.
Proof. reflexivity. Qed.

(** StringToNumber returns finite decimals (or NaN and the infinities). *)
Lemma exact_string_to_number_decimal s : num_decimal (exact_string_to_number s) = true.
Proof.
  unfold exact_string_to_number. destruct (trim s) as [|c t]; [apply is_decimal_zero|].
  destruct (str_non_decimal (c :: t)); [apply is_decimal_Z|].
  destruct (str_sign (c :: t)) as [neg u]. case_decide; [by destruct neg|].
  destruct (str_unsigned_decimal u) as [q|] eqn:E; [|done]. apply str_unsigned_decimal_decimal in E.
  destruct neg; simpl; auto using is_decimal_opp.
Qed.


Lemma exact_string_to_number_to_string q :
  is_decimal q = true → exact_string_to_number (exact_to_string q) = Num q.
Proof.
  intros Hq.
  destruct (exact_to_string_cases q Hq) as [[-> ->]|[(t & -> & Hwf & Hv)|(t & -> & Hwf & Hv)]].
  - vm_compute. f_equal; try (apply Qc_is_canon; reflexivity).
  - rewrite string_to_number_render_neg, Hv by done. by rewrite Qcopp_involutive.
  - by rewrite string_to_number_render, Hv.
Qed.

(** StringToNumber reads back what Number::toString prints: for
    every finite decimal [x], [Number(String(x))] is [x], in each of the
    forms Number::toString chooses (plain digits, a point inside, [0.]
    and zeros, or an exponent). *)
Theorem exact_to_string_roundtrip q :
  is_decimal q = true → exact_string_to_number (exact_to_string q) = Num q.
Proof. apply exact_string_to_number_to_string. Qed.

Lemma exact_to_string_roundtrip_witness :
  is_decimal (Q2Qc (-123 # 1000000)) = true ∧
  exact_string_to_number (exact_to_string (Q2Qc (-123 # 1000000))) = Num (Q2Qc (-123 # 1000000)).
Proof. split; [reflexivity|]. apply exact_to_string_roundtrip. reflexivity. Defined.

(** ** JSON numbers are finite decimals *)

Lemma json_number_decimal t q : json_number t = Some q → is_decimal q = true.
Proof.
  unfold json_number.
  destruct (match t with
            | c :: t' => if decide (c = 45%N) then (true, t') else (false, t)
            | [] => (false, [])
            end) as [neg t1].
  destruct (lex_int t1) as [[ip t2]|]; [|done]. simpl.
  destruct (lex_frac t2) as [[fp t3]|]; [|done]. simpl.
  destruct (lex_exp t3) as [[e [|]]|]; simpl; [|done|done]. intros [= <-]. apply is_decimal_decimal.
Qed.
