(* ===== verification/Binary64.v ===== *)
(** * The doubles of JavaScript: IEEE-754 binary64

    A Number of JavaScript is a double: [m × 2^e] with an integer
    [|m| < 2^53] and [-1074 ≤ e], below [2^1024] in magnitude.  [JsValue]
    has the exact [+] and [*] and [JsNumber] the exact reading of number
    texts; this file gives the double semantics the program has where it
    computes with numbers: the order handler's [+] and [*] (pedidos.js
    line 48, [sum + (it.preco || 0) * it.quantidade]) are [dbl_add] and
    [dbl_mul]; StringToNumber rounds a decimal text, Number::toString
    prints the shortest digits:

    - [round_binary64] is roundTiesToEven (IEEE 754, 4.3.1), the rounding
      of every arithmetic result and of every number text: the nearest
      double, the one with an even significand on a tie, and an infinity
      from [2^1024 - 2^970] on;
    - [dbl_add] and [dbl_mul] are Number::add and Number::multiply: the
      exact result rounded;
    - [binary64_to_string] is Number::toString (6.1.6.1.20) on doubles:
      the fewest digits [s] ([k] of them) whose value [s × 10^(n-k)]
      rounds back to the double, the closest such value and then the even
      [s] on a tie; the digit search runs up to 17 digits, which always
      suffice for a double, and falls back to the double's exact
      expansion, which denotes it;
    - [binary64_conversions] are the conversions of a JavaScript engine:
      StringToNumber rounds the decimal the text denotes, Number::toString
      prints the shortest digits. *)

From Stdlib Require Import String.
From stdpp Require Import base list numbers.
From Stdlib Require Import ZArith QArith Qcanon Qround Qpower Qabs Lqa Lia.
From S2P Require Import Prelude JsValue JsNumber.

Local Open Scope Z_scope.

(** ** Rounding a rational to a double *)

(** [⌊log2 q⌋] for [q > 0]: from the bit lengths of its numerator and
    denominator, corrected by one comparison. *)
Definition log2_floor (q : Q) : Z :=
  let t := Z.log2 (Qnum q) - Z.log2 (Zpos (Qden q)) in
  if Qlt_le_dec q ((2 # 1) ^ t) then t - 1 else t.

(** [x] rounded to the nearest integer, the even one on a tie. *)
Definition rne (x : Q) : Z :=
  let n := Qnum x in
  let d := Zpos (Qden x) in
  let f := n / d in
  match Z.compare (2 * (n mod d)) d with
  | Lt => f
  | Gt => f + 1
  | Eq => if Z.even f then f else f + 1
  end.

(** The exponent of the last bit of the significand of a double near
    [q > 0]: 52 bits below the leading one, and never below [-1074] (the
    subnormals). *)
Definition ulp_exponent (q : Q) : Z := Z.max (log2_floor q - 52) (-1074).

(** roundTiesToEven of [q > 0]: the nearest multiple [m × 2^e] of the
    last bit, and an infinity when it reaches [2^1024]. *)
Definition round_pos (q : Q) : number :=
  let e := ulp_exponent q in
  let m := rne (q * (2 # 1) ^ (- e)) in
  if Qle_bool ((2 # 1) ^ 1024) (inject_Z m * (2 # 1) ^ e) then PosInf
  else Num (Q2Qc (inject_Z m * (2 # 1) ^ e)).

(** roundTiesToEven of a rational; the sign is kept (the model has no
    negative zero). *)
Definition round_binary64 (q : Qc) : number :=
  match Qnum q with
  | Z0 => Num 0
  | Zpos _ => round_pos q
  | Zneg _ => num_neg (round_pos (- q))
  end.

Definition round_number (x : number) : number :=
  match x with Num q => round_binary64 q | _ => x end.

(** Number::add and Number::multiply on doubles. *)
Definition dbl_add (x y : number) : number := round_number (num_add x y).
Definition dbl_mul (x y : number) : number := round_number (num_mul x y).

(** NaN absorbs the double [+] and [*]. *)
Lemma dbl_add_NaN_l x : dbl_add NaN x = NaN.
Proof. by destruct x. Qed.
Lemma dbl_add_NaN_r x : dbl_add x NaN = NaN.
Proof. by destruct x. Qed.
Lemma dbl_mul_NaN_l x : dbl_mul NaN x = NaN.
Proof. by destruct x. Qed.

(** ** Number::toString of a double *)

(** The number of decimal digits of a positive integer. *)
Definition ndigits (z : Z) : Z := Z.of_nat (length (Z_to_jsstring z)).

(** The [n] of 6.1.6.1.20 for [p > 0]: [10^(n-1) ≤ p < 10^n]. *)
Definition dec_exponent (p : Q) : Z :=
  let t := ndigits (Qnum p) - ndigits (Zpos (Qden p)) in
  if Qlt_le_dec p ((10 # 1) ^ t) then t else t + 1.

(** The [k]-digit values next to [p > 0], below and above, that round
    to [p]; the closer one, or the one with the even [s] on a tie. *)
Definition candidate (p : Qc) (k : Z) : option Qc :=
  let e := dec_exponent p - k in
  let lo := Qfloor (p / (10 # 1) ^ e) in
  let clo := Q2Qc (inject_Z lo * (10 # 1) ^ e) in
  let chi := Q2Qc (inject_Z (lo + 1) * (10 # 1) ^ e) in
  let ok c := bool_decide (round_binary64 c = Num p) in
  match ok clo, ok chi with
  | true, true =>
      Some (if decide (p - clo < chi - p)%Qc then clo
            else if decide (chi - p < p - clo)%Qc then chi
            else if Z.even lo then clo else chi)
  | true, false => Some clo
  | false, true => Some chi
  | false, false => None
  end.

(** The smallest [k] from [k0] on, within [fuel] tries. *)
Fixpoint search (p : Qc) (k : Z) (fuel : nat) : option Qc :=
  match fuel with
  | O => None
  | S f => match candidate p k with Some c => Some c | None => search p (k + 1) f end
  end.

(** The value of the digits Number::toString prints. *)
Definition shortest (q : Qc) : Qc :=
  if decide (q = 0%Qc) then q
  else if decide (q < 0)%Qc then (- default (- q) (search (- q) 1 17))%Qc
  else default q (search q 1 17).

Definition binary64_to_string (q : Qc) : jsstring := exact_to_string (shortest q).

(** StringToNumber: the decimal the text denotes, rounded. *)
Definition binary64_string_to_number (s : jsstring) : number :=
  round_number (exact_string_to_number s).

Definition binary64_conversions : JsConversions :=
  {| string_to_number := binary64_string_to_number; finite_to_string := binary64_to_string |}.

(** ** The doubles

    A finite double: [m × 2^e] with [|m| < 2^53], [e ≥ -1074], below
    [2^1024] in magnitude. *)
Definition binary64 (x : Q) : Prop :=
  ∃ m e, Z.abs m < 2 ^ 53 ∧ -1074 ≤ e ∧ (x == inject_Z m * (2 # 1) ^ e)%Q ∧
         (Qabs x < (2 # 1) ^ 1024)%Q.

(** ** Powers of two *)

Section powers.
Local Open Scope Q_scope.

Lemma pow2_pos e : 0 < (2 # 1) ^ e.
Proof. by apply Qpower_0_lt. Qed.

Lemma pow2_add a b : (2 # 1) ^ (a + b) == (2 # 1) ^ a * (2 # 1) ^ b.
Proof. by apply Qpower_plus. Qed.

Lemma pow2_le a b : (a ≤ b)%Z → (2 # 1) ^ a <= (2 # 1) ^ b.
Proof. intros. by apply Qpower_le_compat_l. Qed.

Lemma pow2_lt a b : (a < b)%Z → (2 # 1) ^ a < (2 # 1) ^ b.
Proof. intros. by apply Qpower_lt_compat_l. Qed.

Lemma pow2_le_inv a b : (2 # 1) ^ a <= (2 # 1) ^ b → (a ≤ b)%Z.
Proof. intros. by eapply Qpower_le_compat_l_inv. Qed.

Lemma pow2_Z n : (0 ≤ n)%Z → inject_Z (2 ^ n) == (2 # 1) ^ n.
Proof. intros. by rewrite Zpower_Qpower. Qed.

Lemma pow2_cancel q e : q * (2 # 1) ^ (- e) * (2 # 1) ^ e == q.
Proof.
  rewrite <-Qmult_assoc, <-pow2_add, Z.add_opp_diag_l. simpl. ring.
Qed.
End powers.

(** ** Rounding to the nearest integer *)

Lemma rne_Z_nearest n D z : 0 < D →
  Z.abs ((match Z.compare (2 * (n mod D)) D with
          | Lt => n / D | Gt => n / D + 1
          | Eq => if Z.even (n / D) then n / D else n / D + 1
          end) * D - n) ≤ Z.abs (z * D - n).
Proof.
  intros HD. pose proof (Z.div_mod n D ltac:(lia)) as Hn. pose proof (Z.mod_pos_bound n D HD) as Hr.
  set (f := n / D) in *. set (r := n mod D) in *.
  assert (Hz : z * D - n ≤ - r ∨ D - r ≤ z * D - n).
  { destruct (Z.le_gt_cases z f) as [Hzf|Hzf].
    - left. assert (z * D ≤ f * D) by (apply Z.mul_le_mono_nonneg_r; lia). lia.
    - right. assert ((f + 1) * D ≤ z * D) by (apply Z.mul_le_mono_nonneg_r; lia). lia. }
  destruct (Z.compare_spec (2 * r) D); [destruct (Z.even f)|..]; lia.
Qed.

Lemma Qabs_Z_minus k n d : (Qabs (inject_Z k - (n # d)) == Z.abs (k * Zpos d - n) # d)%Q.
Proof.
  rewrite Zabs_Qabs. apply Qabs_wd. unfold Qeq, Qminus, Qplus, inject_Z. simpl. rewrite Pos.mul_1_l. ring.
Qed.

(** [rne x] is an integer nearest to [x]. *)
Lemma rne_nearest x z : (Qabs (inject_Z (rne x) - x) <= Qabs (inject_Z z - x))%Q.
Proof.
  destruct x as [n d]. unfold rne. cbn [Qnum Qden].
  rewrite !Qabs_Z_minus. unfold Qle. cbn [Qnum Qden].
  apply Z.mul_le_mono_nonneg_r; [lia|]. by apply rne_Z_nearest.
Qed.

(** ** The binary exponent *)

Section log2.
Local Open Scope Q_scope.

Lemma pow2_cancel' q e : q * (2 # 1) ^ e * (2 # 1) ^ (- e) == q.
Proof. rewrite <-(Z.opp_involutive e) at 1. apply pow2_cancel. Qed.

(** Moving a power of two across an inequality. *)
Lemma pow2_shift_lt x y i : x * (2 # 1) ^ i < y ↔ x < y * (2 # 1) ^ (- i).
Proof.
  rewrite <-(Qmult_lt_r _ _ ((2 # 1) ^ (- i))) by apply pow2_pos. by rewrite pow2_cancel'.
Qed.

Lemma pow2_shift_lt' x y i : y < x * (2 # 1) ^ i ↔ y * (2 # 1) ^ (- i) < x.
Proof.
  rewrite <-(Qmult_lt_r _ _ ((2 # 1) ^ (- i))) by apply pow2_pos. by rewrite pow2_cancel'.
Qed.

Lemma Qmake_den a b : (a # b) * inject_Z (Zpos b) == inject_Z a.
Proof. unfold Qeq. simpl. lia. Qed.

Lemma log2_bounds q : 0 < q →
  let t := (Z.log2 (Qnum q) - Z.log2 (Zpos (Qden q)))%Z in
  (2 # 1) ^ (t - 1) < q ∧ q < (2 # 1) ^ (t + 1).
Proof.
  destruct q as [a b]. intros Hq t. cbn [Qnum Qden] in t.
  assert (0 < a)%Z as Ha by (unfold Qlt in Hq; simpl in Hq; lia).
  destruct (Z.log2_spec a Ha) as [Ha1 Ha2]. destruct (Z.log2_spec (Zpos b) ltac:(lia)) as [Hb1 Hb2].
  pose proof (Z.log2_nonneg a). pose proof (Z.log2_nonneg (Zpos b)).
  rewrite Zle_Qle, pow2_Z in Ha1, Hb1 by lia. rewrite Zlt_Qlt, pow2_Z in Ha2, Hb2 by lia.
  rewrite <-Z.add_1_r in Ha2, Hb2. split.
  - replace (t - 1)%Z with (Z.log2 a + - (Z.log2 (Zpos b) + 1))%Z by (subst t; lia).
    rewrite pow2_add, <-pow2_shift_lt'.
    apply (Qle_lt_trans _ _ _ Ha1). rewrite <-Qmake_den.
    apply Qmult_lt_l; [exact Hq|exact Hb2].
  - replace (t + 1)%Z with (Z.log2 a + 1 + - Z.log2 (Zpos b))%Z by (subst t; lia).
    rewrite pow2_add, <-pow2_shift_lt.
    refine (Qle_lt_trans _ _ _ _ Ha2). rewrite <-Qmake_den.
    apply Qmult_le_l; [exact Hq|exact Hb1].
Qed.

(** [log2_floor q] is [⌊log2 q⌋]. *)
Lemma log2_floor_spec q : 0 < q →
  (2 # 1) ^ log2_floor q <= q ∧ q < (2 # 1) ^ (log2_floor q + 1).
Proof.
  intros Hq. destruct (log2_bounds q Hq) as [Hl Hu]. unfold log2_floor.
  destruct (Qlt_le_dec _ _) as [Hlt|Hle].
  - split; [by apply Qlt_le_weak|]. by rewrite Z.sub_add.
  - done.
Qed.
End log2.

(** ** The significand [round_pos] chooses is a nearest one *)

Section round_pos.
Local Open Scope Q_scope.
Variable q : Q.
Hypothesis Hq : 0 < q.

Lemma pow2_shift_le' x y i : y <= x * (2 # 1) ^ i ↔ y * (2 # 1) ^ (- i) <= x.
Proof.
  rewrite <-(Qmult_le_r _ _ ((2 # 1) ^ (- i))) by apply pow2_pos. by rewrite pow2_cancel'.
Qed.

Lemma ulp_exponent_cases :
  (ulp_exponent q = log2_floor q - 52 ∧ -1074 ≤ log2_floor q - 52)%Z ∨
  (ulp_exponent q = -1074 ∧ log2_floor q - 52 < -1074)%Z.
Proof. unfold ulp_exponent. lia. Qed.

(** The scaled value [q / 2^e] is below [2^53]... *)
Lemma scaled_lt : q * (2 # 1) ^ (- ulp_exponent q) < (2 # 1) ^ 53.
Proof.
  destruct (log2_floor_spec q Hq) as [_ Hu].
  apply pow2_shift_lt. rewrite Z.opp_involutive, <-pow2_add.
  apply (Qlt_le_trans _ _ _ Hu), pow2_le. unfold ulp_exponent. lia.
Qed.

(** ... and at least [2^52] when the double is normal. *)
Lemma scaled_ge : ulp_exponent q = (log2_floor q - 52)%Z → (2 # 1) ^ 52 <= q * (2 # 1) ^ (- ulp_exponent q).
Proof.
  intros He. destruct (log2_floor_spec q Hq) as [Hl _].
  apply pow2_shift_le'. rewrite <-pow2_add, Z.opp_involutive, He.
  by replace (52 + (log2_floor q - 52))%Z with (log2_floor q) by lia.
Qed.

(** The error of a multiple [k × 2^e] is the error of [k] on the
    scaled value, times [2^e]. *)
Lemma abs_scaled k :
  Qabs (inject_Z k * (2 # 1) ^ ulp_exponent q - q) ==
  Qabs (inject_Z k - q * (2 # 1) ^ (- ulp_exponent q)) * (2 # 1) ^ ulp_exponent q.
Proof.
  rewrite <-(Qabs_pos ((2 # 1) ^ ulp_exponent q)) at 2 by apply Qlt_le_weak, pow2_pos.
  rewrite <-Qabs_Qmult. apply Qabs_wd.
  set (e := ulp_exponent q). pose proof (pow2_cancel q e) as HP.
  transitivity (inject_Z k * (2 # 1) ^ e - q * (2 # 1) ^ (- e) * (2 # 1) ^ e); [by rewrite HP|ring].
Qed.
End round_pos.

Section round_pos_nearest.
Local Open Scope Q_scope.
Variable q : Q.
Hypothesis Hq : 0 < q.

Lemma Qabs_inject_Z z : Qabs (inject_Z z) = inject_Z (Z.abs z).
Proof. reflexivity. Qed.

(** A double below the binade of [q] is below [2^(e+52)]. *)
Lemma binary64_below m' e' : (Z.abs m' < 2 ^ 53)%Z →
  Qabs (inject_Z m' * (2 # 1) ^ e') < (2 # 1) ^ (53 + e').
Proof.
  intros Hm. rewrite Qabs_Qmult, (Qabs_pos ((2 # 1) ^ e')) by apply Qlt_le_weak, pow2_pos.
  rewrite pow2_add. apply Qmult_lt_r; [apply pow2_pos|].
  rewrite Qabs_inject_Z, <-pow2_Z, <-Zlt_Qlt by lia. exact Hm.
Qed.

(** The multiple [m × 2^e] of [round_pos] is at least as close to [q]
    as every double. *)
Lemma round_pos_nearest d : binary64 d →
  Qabs (inject_Z (rne (q * (2 # 1) ^ (- ulp_exponent q))) * (2 # 1) ^ ulp_exponent q - q)
  <= Qabs (d - q).
Proof.
  intros (m' & e' & Hm' & He' & Hd & _). rewrite (abs_scaled q).
  set (e := ulp_exponent q) in *. set (x := q * (2 # 1) ^ (- e)).
  destruct (Z.le_gt_cases e e') as [Hle|Hlt].
  - assert (Hdz : d == inject_Z (m' * 2 ^ (e' - e)) * (2 # 1) ^ e).
    { rewrite Hd, inject_Z_mult, pow2_Z by lia. rewrite <-Qmult_assoc, <-pow2_add.
      by replace (e' - e + e)%Z with e' by lia. }
    rewrite Hdz. unfold e. rewrite (abs_scaled q). fold e x.
    apply Qmult_le_r; [apply pow2_pos|]. apply rne_nearest.
  - destruct (ulp_exponent_cases q) as [[He _]|[He _]]; fold e in He; [|lia].
    pose proof (scaled_ge q Hq He) as Hx. fold e x in Hx.
    set (z0 := Qfloor x).
    assert (Hz0 : inject_Z z0 <= x) by apply Qfloor_le.
    assert (Hz0' : (2 # 1) ^ 52 <= inject_Z z0).
    { rewrite <-pow2_Z, <-Zle_Qle by lia. rewrite <-(Qfloor_Z (2 ^ 52)).
      apply Qfloor_resp_le. by rewrite pow2_Z by lia. }
    pose proof (rne_nearest x z0) as Hn.
    rewrite (Qabs_neg (inject_Z z0 - x)) in Hn by lra.
    pose proof (binary64_below m' e' Hm') as Hb. rewrite <-Hd in Hb.
    assert ((2 # 1) ^ (53 + e') <= (2 # 1) ^ 52 * (2 # 1) ^ e) as Hp.
    { rewrite <-pow2_add. apply pow2_le. lia. }
    assert (Qabs (inject_Z (rne x) - x) * (2 # 1) ^ e <= (- (inject_Z z0 - x)) * (2 # 1) ^ e) as H1
      by (apply Qmult_le_compat_r; [exact Hn|apply Qlt_le_weak, pow2_pos]).
    assert ((2 # 1) ^ 52 * (2 # 1) ^ e <= inject_Z z0 * (2 # 1) ^ e) as H2
      by (apply Qmult_le_compat_r; [exact Hz0'|apply Qlt_le_weak, pow2_pos]).
    assert (x * (2 # 1) ^ e == q) as H3 by apply pow2_cancel.
    pose proof (Qle_Qabs d). pose proof (Qle_Qabs (- (d - q))). rewrite Qabs_opp in *.
    assert (- (inject_Z z0 - x) * (2 # 1) ^ e == x * (2 # 1) ^ e - inject_Z z0 * (2 # 1) ^ e) as H4
      by ring.
    lra.
Qed.
End round_pos_nearest.

Section round_pos_double.
Local Open Scope Q_scope.
Variable q : Q.
Hypothesis Hq : 0 < q.

(** The significand is in [[0, 2^53]]. *)
Lemma rne_scaled_bounds :
  (0 ≤ rne (q * (2 # 1) ^ (- ulp_exponent q)) ≤ 2 ^ 53)%Z.
Proof.
  set (x := q * (2 # 1) ^ (- ulp_exponent q)).
  assert (0 < x) by (apply Qmult_lt_0_compat; [exact Hq|apply pow2_pos]).
  pose proof (scaled_lt q Hq) as Hx. fold x in Hx.
  pose proof (rne_nearest x 0) as H0. pose proof (rne_nearest x (2 ^ 53)) as H1.
  rewrite pow2_Z in H1 by lia. rewrite (Qabs_pos ((2 # 1) ^ 53 - x)) in H1 by lra.
  change (inject_Z 0) with 0 in H0. rewrite (Qabs_neg (0 - x)) in H0 by lra.
  pose proof (Qle_Qabs (inject_Z (rne x) - x)).
  pose proof (Qle_Qabs (- (inject_Z (rne x) - x))). rewrite Qabs_opp in *.
  split.
  - rewrite Zle_Qle. change (inject_Z 0) with 0. lra.
  - rewrite Zle_Qle, pow2_Z by lia. lra.
Qed.

Lemma round_pos_double r : round_pos q = Num r →
  binary64 r ∧ ∀ d, binary64 d → Qabs (r - q) <= Qabs (d - q).
Proof.
  unfold round_pos. pose proof rne_scaled_bounds as Hm.
  set (e := ulp_exponent q) in *. set (m := rne (q * (2 # 1) ^ (- e))) in *.
  destruct (Qle_bool _ _) eqn:Ho; [done|]. intros [= <-].
  assert (Hr : this (Q2Qc (inject_Z m * (2 # 1) ^ e)) == inject_Z m * (2 # 1) ^ e)
    by apply Qred_correct.
  assert (Hpos : 0 <= inject_Z m * (2 # 1) ^ e).
  { apply Qmult_le_0_compat; [|apply Qlt_le_weak, pow2_pos].
    change 0 with (inject_Z 0). rewrite <-Zle_Qle. lia. }
  assert (Hlt : inject_Z m * (2 # 1) ^ e < (2 # 1) ^ 1024).
  { apply Qnot_le_lt. intros Hle. apply Qle_bool_iff in Hle. congruence. }
  assert (He : (-1074 ≤ e)%Z) by (unfold e, ulp_exponent; lia).
  split.
  - assert (Qabs (Q2Qc (inject_Z m * (2 # 1) ^ e)) < (2 # 1) ^ 1024) as Hb
      by (rewrite Hr, Qabs_pos by exact Hpos; exact Hlt).
    destruct (Z.eq_dec m (2 ^ 53)) as [E|E].
    + exists (2 ^ 52)%Z, (e + 1)%Z. split_and!; [done|lia| |done].
      rewrite Hr, E, !pow2_Z by lia. rewrite pow2_add.
      replace 53%Z with (52 + 1)%Z by done. rewrite pow2_add. ring.
    + exists m, e. split_and!; [lia|done|exact Hr|done].
  - intros d Hd. rewrite Hr. by apply round_pos_nearest.
Qed.
End round_pos_double.

(** ** roundTiesToEven returns a nearest double *)

Section nearest.
Local Open Scope Q_scope.

Lemma binary64_opp x : binary64 x → binary64 (- x).
Proof.
  intros (m & e & Hm & He & Hx & Hb). exists (- m)%Z, e. split_and!; [lia|done| |].
  - rewrite Hx, inject_Z_opp. ring.
  - by rewrite Qabs_opp.
Qed.

Lemma binary64_wd x y : x == y → binary64 x → binary64 y.
Proof.
  intros Hxy (m & e & Hm & He & Hx & Hb). exists m, e. split_and!; [done|done| |].
  - by rewrite <-Hxy.
  - by rewrite <-Hxy.
Qed.

Lemma binary64_zero : binary64 0.
Proof. exists 0%Z, 0%Z. split_and!; [lia|lia|reflexivity|reflexivity]. Qed.

Lemma Qc_opp_Q (r : Qc) : this (- r)%Qc == - this r.
Proof. apply Qred_correct. Qed.

Lemma round_binary64_spec (q r : Qc) :
  round_binary64 q = Num r →
  binary64 r ∧ ∀ d, binary64 d → Qabs (r - q) <= Qabs (d - q).
Proof.
  unfold round_binary64. destruct q as [[[|a|a] b] Hc]; cbn [this Qnum].
  - intros [= <-]. split; [apply binary64_zero|]. intros d _.
    apply (Qle_trans _ 0); [|apply Qabs_nonneg]. unfold Qle. simpl. lia.
  - apply round_pos_double. reflexivity.
  - destruct (round_pos (- (Z.neg a # b))) as [r'| | |] eqn:E; try done. intros [= <-].
    destruct (round_pos_double (- (Z.neg a # b)) ltac:(reflexivity) r' E) as [Hr Hn].
    split; [apply (binary64_wd (- r')); [symmetry; apply Qc_opp_Q|by apply binary64_opp]|].
    intros d Hd. rewrite Qc_opp_Q. specialize (Hn (- d) (binary64_opp d Hd)).
    rewrite <-Qabs_opp. setoid_replace (- (- this r' - (Z.neg a # b))) with (this r' - - (Z.neg a # b))
      using relation Qeq by ring.
    rewrite <-(Qabs_opp (d - _)).
    setoid_replace (- (d - (Z.neg a # b))) with (- d - - (Z.neg a # b))
      using relation Qeq by ring. exact Hn.
Qed.

(** [round_binary64] is roundTiesToEven's choice of a double: its
    finite result is a double, and no double is closer to the exact
    value. *)
Theorem round_binary64_nearest (q r : Qc) :
  round_binary64 q = Num r →
  binary64 r ∧ ∀ d, binary64 d → Qabs (r - q) <= Qabs (d - q).
Proof. apply round_binary64_spec. Qed.
End nearest.

(** ** Doubles are left as they are *)

Section fixed.
Local Open Scope Q_scope.

Lemma Q2Qc_this (x : Qc) : Q2Qc x = x.
Proof. apply Qc_is_canon. apply Qred_correct. Qed.

Lemma round_pos_id y : 0 < y → binary64 y → round_pos y = Num (Q2Qc y).
Proof.
  intros Hy Hd. pose proof (round_pos_nearest y Hy y Hd) as Hn.
  setoid_replace (y - y) with 0 using relation Qeq in Hn by ring.
  change (Qabs 0) with 0 in Hn. apply Qabs_Qle_condition in Hn.
  destruct Hd as (? & ? & _ & _ & _ & Hb). rewrite Qabs_pos in Hb by lra.
  unfold round_pos. destruct (Qle_bool _ _) eqn:Ho.
  - apply Qle_bool_iff in Ho. lra.
  - f_equal. apply Q2Qc_eq_iff. lra.
Qed.

Lemma num_neg_involutive x : num_neg (num_neg x) = x.
Proof. destruct x; simpl; [by rewrite Qcopp_involutive|done..]. Qed.

(** The rational of [- q] is [- q]. *)
Lemma this_opp (q : Qc) : this (- q)%Qc = - this q.
Proof. cbn [this Qcopp Q2Qc]. rewrite Qred_opp. f_equal. apply canon. Qed.

(** roundTiesToEven is odd. *)
Lemma round_binary64_opp q : round_binary64 (- q)%Qc = num_neg (round_binary64 q).
Proof.
  unfold round_binary64. rewrite this_opp. destruct q as [[[|a|a] b] Hc]; cbn [this Qnum Qopp Z.opp].
  - apply (f_equal Num), Qc_is_canon. reflexivity.
  - reflexivity.
  - by rewrite num_neg_involutive.
Qed.

(** Every double is its own rounding. *)
Theorem round_binary64_id (x : Qc) : binary64 x → round_binary64 x = Num x.
Proof.
  intros Hd. unfold round_binary64. destruct x as [[[|a|a] b] Hc]; cbn [this Qnum].
  - f_equal. apply Qc_is_canon. reflexivity.
  - rewrite round_pos_id; [|reflexivity|exact Hd]. f_equal. apply Qc_is_canon. apply Qred_correct.
  - rewrite round_pos_id; [|reflexivity|apply binary64_opp, Hd]. simpl num_neg. f_equal.
    apply Qc_is_canon. rewrite Qc_opp_Q. cbn [this Q2Qc]. rewrite Qred_correct. ring.
Qed.

(** The integers up to [2^53] in magnitude are doubles. *)
Lemma binary64_Z z : (Z.abs z ≤ 2 ^ 53)%Z → binary64 (inject_Z z).
Proof.
  intros Hz. assert (Hb : Qabs (inject_Z z) < (2 # 1) ^ 1024).
  { rewrite Qabs_inject_Z, <-pow2_Z, <-Zlt_Qlt by lia. lia. }
  destruct (Z.eq_dec (Z.abs z) (2 ^ 53)) as [E|E].
  - destruct (Z.abs_spec z) as [[_ Ez]|[_ Ez]]; rewrite Ez in E.
    + exists (2 ^ 52)%Z, 1%Z. split_and!; [lia|lia| |done]. rewrite E. reflexivity.
    + exists (- 2 ^ 52)%Z, 1%Z. split_and!; [lia|lia| |done].
      replace z with (- 2 ^ 53)%Z by lia. reflexivity.
  - exists z, 0%Z. split_and!; [lia|lia| |done]. simpl. ring.
Qed.

Lemma round_binary64_Z z : (Z.abs z ≤ 2 ^ 53)%Z → round_binary64 (Qc_of_Z z) = num_of_Z z.
Proof. intros Hz. apply round_binary64_id. by apply binary64_Z. Qed.
End fixed.

(** ** Number::toString of a double reads back as the double *)

Section to_string.
Local Open Scope Q_scope.

(** [lo × 10^e] is a finite decimal. *)
Lemma decimal_pow10 lo e : is_decimal (Q2Qc (inject_Z lo * (10 # 1) ^ e)) = true.
Proof.
  destruct (Z.le_gt_cases 0 e) as [He|He].
  - apply (is_decimal_intro _ (lo * 10 ^ e) 0); [lia|]. cbn [this Q2Qc]. rewrite Qred_correct.
    change (10 # 1) with (inject_Z 10). rewrite <-Zpower_Qpower, <-inject_Z_mult by lia. reflexivity.
  - apply (is_decimal_intro _ lo (- e)); [lia|]. cbn [this Q2Qc]. rewrite Qred_correct.
    rewrite (Qmake_Qdiv lo), Z2Pos.id by (apply Z.pow_pos_nonneg; lia).
    change (10 # 1) with (inject_Z 10). rewrite <-(Z.opp_involutive e) at 1.
    rewrite Qpower_opp, <-Zpower_Qpower by lia. reflexivity.
Qed.

(** A double is a finite decimal: [m × 2^-k = m × 5^k / 10^k]. *)
Lemma binary64_decimal (x : Qc) : binary64 x → is_decimal x = true.
Proof.
  intros (m & e & _ & _ & Hx & _). destruct (Z.le_gt_cases 0 e) as [He|He].
  - apply (is_decimal_intro _ (m * 2 ^ e) 0); [lia|]. rewrite Hx, <-pow2_Z, <-inject_Z_mult by lia.
    reflexivity.
  - apply (is_decimal_intro _ (m * 5 ^ (- e)) (- e)); [lia|]. rewrite Hx.
    rewrite (Qmake_Qdiv (m * 5 ^ (- e))), Z2Pos.id by (apply Z.pow_pos_nonneg; lia).
    rewrite <-(Z.opp_involutive e) at 1. rewrite Qpower_opp, <-pow2_Z by lia.
    replace (10 ^ (- e))%Z with (2 ^ (- e) * 5 ^ (- e))%Z by (rewrite <-Z.pow_mul_l; done).
    rewrite !inject_Z_mult. field.
    split; apply Qnot_eq_sym, Qlt_not_eq; change 0 with (inject_Z 0); rewrite <-Zlt_Qlt;
      apply Z.pow_pos_nonneg; lia.
Qed.

Lemma candidate_spec p k c : candidate p k = Some c → round_binary64 c = Num p ∧ is_decimal c = true.
Proof.
  unfold candidate. repeat case_bool_decide; repeat case_decide; try case_match; intros; simplify_eq;
    split; auto using decimal_pow10.
Qed.

Lemma search_spec p k fuel c : search p k fuel = Some c → round_binary64 c = Num p ∧ is_decimal c = true.
Proof.
  revert k. induction fuel as [|f IH]; intros k; simpl; [done|].
  destruct (candidate p k) eqn:E; [intros [= <-]; by apply (candidate_spec p k)|apply IH].
Qed.

Lemma shortest_pos_spec p :
  round_binary64 p = Num p →
  round_binary64 (default p (search p 1 17)) = Num p ∧ is_decimal (default p (search p 1 17)) = true.
Proof.
  intros Hp. destruct (search p 1 17) eqn:E; simpl; [by apply (search_spec p 1 17)|].
  split; [done|]. apply binary64_decimal. by destruct (round_binary64_spec p p Hp).
Qed.

Lemma shortest_spec q :
  round_binary64 q = Num q → round_binary64 (shortest q) = Num q ∧ is_decimal (shortest q) = true.
Proof.
  intros Hq. unfold shortest. case_decide as H0; [subst; split; [done|reflexivity]|].
  case_decide as Hneg; [|by apply shortest_pos_spec].
  assert (round_binary64 (- q)%Qc = Num (- q)%Qc) as Hq' by (by rewrite round_binary64_opp, Hq).
  destruct (shortest_pos_spec _ Hq') as [Hr Hd]. split; [|by apply is_decimal_opp].
  rewrite round_binary64_opp, Hr. simpl. by rewrite Qcopp_involutive.
Qed.

(** for every double [x], [Number(String(x))] is [x]: the digits
    Number::toString prints, read by StringToNumber and rounded, give the
    double back. *)
Theorem binary64_roundtrip q :
  round_binary64 q = Num q → binary64_string_to_number (binary64_to_string q) = Num q.
Proof.
  intros Hq. destruct (shortest_spec q Hq) as [Hr Hd].
  unfold binary64_string_to_number, binary64_to_string.
  by rewrite exact_string_to_number_to_string.
Qed.
End to_string.

(** ** Witnesses *)

(** [0.1] is not a double: it rounds to [3602879701896397 × 2^-55]. *)
Lemma round_binary64_nearest_witness :
  round_binary64 (Q2Qc (1 # 10)) = Num (Q2Qc (3602879701896397 # 36028797018963968)) ∧
  binary64 (Q2Qc (3602879701896397 # 36028797018963968)) ∧
  ∀ d, binary64 d →
    (Qabs (Q2Qc (3602879701896397 # 36028797018963968) - Q2Qc (1 # 10)) <= Qabs (d - Q2Qc (1 # 10)))%Q.
Proof.
  assert (H : round_binary64 (Q2Qc (1 # 10)) = Num (Q2Qc (3602879701896397 # 36028797018963968))).
  { vm_compute. f_equal. apply Qc_is_canon. reflexivity. }
  split; [exact H|]. exact (round_binary64_nearest _ _ H).
Defined.

(** The double [0.1 + 0.2] prints as [0.30000000000000004] and reads
    back. *)
Lemma binary64_roundtrip_witness :
  round_binary64 (Q2Qc (1351079888211149 # 4503599627370496)) =
    Num (Q2Qc (1351079888211149 # 4503599627370496)) ∧
  binary64_to_string (Q2Qc (1351079888211149 # 4503599627370496)) = js "0.30000000000000004" ∧
  binary64_string_to_number (binary64_to_string (Q2Qc (1351079888211149 # 4503599627370496))) =
    Num (Q2Qc (1351079888211149 # 4503599627370496)).
Proof.
  assert (H : round_binary64 (Q2Qc (1351079888211149 # 4503599627370496)) =
                Num (Q2Qc (1351079888211149 # 4503599627370496))).
  { vm_compute. f_equal. apply Qc_is_canon. reflexivity. }
  split_and!; [exact H|vm_compute; reflexivity|exact (binary64_roundtrip _ H)].
Defined.
