(* ===== verification/Store.v ===== *)
(** * In-memory collections

    Each router keeps its records in a module-level array ([itens],
    [clientes], [pedidos]), numbers a new record [array.length + 1] and
    appends it with [array.push].  This file models that shape once, for
    any record type with an id ([HasId], the interface the three routers
    instantiate), with its invariant: the ids are 1, 2, ..., n in
    insertion order.  It also states what a store promises abstractly, a
    finite map from ids to records where a new record receives a fresh id,
    and proves that the arrays implement it. *)

From stdpp Require Import base list numbers gmap.
From Stdlib Require Import ZArith Lia.
From S2P Require Import Prelude.

(** The interface: a record type whose values carry an integer id. *)
Class HasId (R : Type) := id_of : R → Z.

Section store.
Context {R : Type} `{HasId R}.

(** [array.length + 1] *)
Definition next_id (xs : list R) : Z := (Z.of_nat (length xs) + 1)%Z.

(** [array.push(r)] *)
Definition push (xs : list R) (r : R) : list R := xs ++ [r].

(** The ids of the records, in insertion order. *)
Definition ids (xs : list R) : list Z := id_of <$> xs.

(** The invariant of every array: its ids are [1..n] in order. *)
Definition ids_sequential (xs : list R) : Prop := ids xs = Zseq 1 (length xs).

#[global] Instance ids_sequential_dec xs : Decision (ids_sequential xs).
Proof. unfold ids_sequential. apply _. Defined.

Lemma ids_push xs r : ids (push xs r) = ids xs ++ [id_of r].
Proof. unfold ids, push. by rewrite fmap_app. Qed.

Lemma length_push xs r : length (push xs r) = S (length xs).
Proof. unfold push. rewrite length_app. simpl. lia. Qed.

(** Pushing a record numbered [length + 1] keeps the ids sequential. *)
Lemma push_sequential xs r :
  ids_sequential xs → id_of r = next_id xs → ids_sequential (push xs r).
Proof.
  unfold ids_sequential, next_id. intros Hs Hr.
  rewrite ids_push, length_push, Zseq_S, Hs, Hr. f_equal. f_equal. lia.
Qed.

(** In a sequential array, [length + 1] exceeds every id. *)
Lemma next_id_gt xs :
  ids_sequential xs → ∀ i, i ∈ ids xs → (i < next_id xs)%Z.
Proof.
  unfold ids_sequential, next_id. intros Hs i. rewrite Hs, elem_of_Zseq. lia.
Qed.

Lemma next_id_fresh xs : ids_sequential xs → next_id xs ∉ ids xs.
Proof. intros Hs Hin. pose proof (next_id_gt xs Hs _ Hin). lia. Qed.

Lemma ids_sequential_NoDup xs : ids_sequential xs → NoDup (ids xs).
Proof. unfold ids_sequential. intros ->. apply NoDup_Zseq. Qed.

Lemma elem_of_ids xs r : r ∈ xs → id_of r ∈ ids xs.
Proof. intros Hr. by apply list_elem_of_fmap_2. Qed.

(** In a sequential array every id lies in [1..length]. *)
Lemma id_range xs r : ids_sequential xs → r ∈ xs → (1 ≤ id_of r ≤ Z.of_nat (length xs))%Z.
Proof.
  unfold ids_sequential. intros Hs Hr. apply elem_of_ids in Hr.
  rewrite Hs, elem_of_Zseq in Hr. lia.
Qed.
End store.

#[export] Hint Resolve push_sequential next_id_fresh ids_sequential_NoDup : lanchonete.

(** ** The abstract store

    What a collection promises its router: a finite map from ids to
    records, to which [add] inserts a record under an id it does not hold
    yet (and refuses otherwise).  The arrays implement it through [abs],
    as long as their ids stay sequential. *)
Section abstract_store.
Context {R : Type} `{HasId R}.

Definition abs (xs : list R) : gmap Z R := list_to_map ((λ r, (id_of r, r)) <$> xs).

Definition abs_add (m : gmap Z R) (r : R) : option (gmap Z R) :=
  if decide (m !! id_of r = None) then Some (<[id_of r := r]> m) else None.

Lemma abs_keys xs : ((λ r, (id_of r, r)) <$> xs).*1 = ids xs.
Proof. unfold ids. by rewrite <-list_fmap_compose. Qed.

Lemma abs_lookup_None xs i : i ∉ ids xs → abs xs !! i = None.
Proof. intros Hi. apply not_elem_of_list_to_map_1. by rewrite abs_keys. Qed.

Lemma abs_push xs r : id_of r ∉ ids xs → abs (push xs r) = <[id_of r := r]> (abs xs).
Proof.
  intros Hi. unfold abs, push. rewrite fmap_app. simpl.
  apply list_to_map_snoc. by rewrite abs_keys.
Qed.
End abstract_store.

(** C3: [length + 1] followed by [push] implements the abstract store:
    on an array with sequential ids, the new id is not yet in the map, the
    map of the new array is the abstract insertion, and the ids stay
    sequential. *)
Theorem push_refines {R} `{HasId R} (xs : list R) (r : R) :
  ids_sequential xs → id_of r = next_id xs →
  abs_add (abs xs) r = Some (abs (push xs r)) ∧ ids_sequential (push xs r).
Proof.
  intros Hs Hr. pose proof (next_id_fresh xs Hs) as Hf. rewrite <-Hr in Hf.
  split; [|by apply push_sequential].
  unfold abs_add. rewrite decide_True by by apply abs_lookup_None.
  by rewrite abs_push.
Qed.

(** An array of plain ids, numbered as the routers number their records. *)
Section example.
#[local] Instance Z_has_id : HasId Z := λ z, z.

Lemma push_refines_witness :
  abs_add (abs [1; 2]%Z) 3%Z = Some (abs (push [1; 2]%Z 3%Z)) ∧ ids_sequential (push [1; 2]%Z 3%Z).
Proof. apply push_refines; reflexivity. Defined.
End example.
