(* ===== verification/Http.v ===== *)
(** * Requests and responses

    What the handlers see of a request (method, url, parsed body) and what
    they produce: the status and the payload, either the value passed to
    [res.json] (sent as its JSON text, see [JsonPrint]) or a plain text
    (Express's own answers: OPTIONS, the final error handler). *)

From Stdlib Require Import String.
From stdpp Require Import base list numbers.
From Stdlib Require Import ZArith.
From S2P Require Import Prelude JsValue.

(** The request methods the application distinguishes; Express routes
    HEAD to the GET handlers. *)
Inductive method := GET | HEAD | POST | OtherMethod (m : jsstring).

#[export] Instance method_eq_dec : EqDecision method.
Proof. solve_decision. Defined.

Record request := {
  req_method : method;
  req_url : jsstring;
  req_body : value;
}.

(** What a response carries: the value given to [res.json], which Express
    sends as its JSON text, or a text sent as is ([res.send(string)], and
    the pages of Express's own handlers). *)
Inductive payload := Json (v : value) | Text (s : jsstring).

(** [res.status(s).json(v)] or [res.status(s).send(text)]. *)
Record response := {
  status : Z;
  res_body : payload;
}.

(** [res.json(v)]: status 200. *)
Definition res_json (v : value) : response := {| status := 200; res_body := Json v |}.

(** [res.status(s).json({ error: msg })] *)
Definition res_error (s : Z) (msg : jsstring) : response :=
  {| status := s; res_body := Json (VObject [(js "error", VString msg)]) |}.
