(* ===== verification/Url.v ===== *)
(** * The path of a request url (parseurl and Node's url.parse)

    Express 4 routes a request by [parseurl(req).pathname] (router/index.js,
    [getPathname]).  parseurl 1.3's [fastparse] cuts a url that starts with
    [/] and holds none of [\t \n \f \r], space, [#], U+00A0 and U+FEFF at
    its first [?]; any other url goes to Node's legacy [url.parse]
    (lib/url.js of Node 20), whose pathname this file models step by step:
    trimming, backslashes before the query, the simple-path shortcut, the
    protocol, [//] and the host (user info, port, IPv6 brackets, the part
    of a host after a [:] moved to the path, the checks that throw),
    escaping, and the cut at the first [?] or [#].  [getPathname] catches a
    throw, so a throw and an undefined pathname are both [None].

    Not modelled: [toASCII] of a hostname is the identity (IDNA only
    rewrites or rejects non-ASCII hostnames; a rejection, which Express
    answers like an undefined path, is not represented), and the case
    mapping of the hostname, which never changes the pathname. *)

From Stdlib Require Import String.
From stdpp Require Import base list numbers.
From Stdlib Require Import Lia.
From S2P Require Import Prelude JsValue.

Module Url.
Local Open Scope N_scope.

(** ** Scanning helpers *)

(** The prefix of [s] before its first code unit satisfying [p]. *)
Fixpoint cut_at (p : N → bool) (s : jsstring) : jsstring :=
  match s with
  | [] => []
  | c :: s' => if p c then [] else c :: cut_at p s'
  end.

(** The index of the first code unit of [s] satisfying [p]. *)
Fixpoint index_where (p : N → bool) (s : jsstring) : option nat :=
  match s with
  | [] => None
  | c :: s' => if p c then Some 0%nat else S <$> index_where p s'
  end.

(** The index of the first occurrence of [pat] in [s]. *)
Fixpoint index_of_sub (pat s : jsstring) : option nat :=
  if bool_decide (take (length pat) s = pat) then Some 0%nat
  else match s with [] => None | _ :: s' => S <$> index_of_sub pat s' end.

Definition is_char (c : N) : N → bool := λ d, bool_decide (d = c).
Definition in_chars (cs : list N) : N → bool := λ d, bool_decide (d ∈ cs).

(** ** parseurl's fast path *)

Definition fast_stop : N → bool := in_chars [9; 10; 12; 13; 32; 35; 160; 65279].

Definition fastparse_ok (url : jsstring) : bool :=
  match url with c :: rest => bool_decide (c = 47) && forallb (λ c, negb (fast_stop c)) rest | [] => false end.

(** ** url.parse: trimming and backslashes *)

(** Code units the loop of url.parse trims: below 33, U+00A0, U+FEFF. *)
Definition url_ws (c : N) : bool := bool_decide (c < 33) || bool_decide (c = 160) || bool_decide (c = 65279).

Fixpoint drop_ws (s : jsstring) : jsstring :=
  match s with [] => [] | c :: s' => if url_ws c then drop_ws s' else s end.

Definition trim_url (s : jsstring) : jsstring := rev (drop_ws (rev (drop_ws s))).

(** Backslashes before the first [?] or [#] become [/]. *)
Fixpoint slash_backslashes (s : jsstring) : jsstring :=
  match s with
  | [] => []
  | c :: s' => if in_chars [35; 63] c then s else (if bool_decide (c = 92) then 47 else c) :: slash_backslashes s'
  end.

(** ** The simple-path shortcut of url.parse

    [simplePathPattern]: one or two slashes not followed by a third, then
    no white space (JavaScript's [\s]) up to the end; the pathname is
    what precedes the first [?]. *)
Definition simple_path (rest : jsstring) : option jsstring :=
  match rest with
  | 47 :: 47 :: 47 :: _ => None
  | 47 :: _ => if forallb (λ c, negb (is_js_space c)) rest then Some (cut_at (is_char 63) rest) else None
  | _ => None
  end.

(** ** The protocol [/^[a-z0-9.+-]+:/i] *)
Definition proto_char (c : N) : bool :=
  bool_decide (48 ≤ c ≤ 57) || bool_decide (65 ≤ c ≤ 90) || bool_decide (97 ≤ c ≤ 122) || in_chars [43; 45; 46] c.

Definition ascii_lower (c : N) : N := if decide (65 ≤ c ≤ 90) then c + 32 else c.

(** The protocol with its [:], and the rest. *)
Definition split_proto (rest : jsstring) : option (jsstring * jsstring) :=
  let k := length (cut_at (λ c, negb (proto_char c)) rest) in
  if bool_decide (k ≠ 0%nat ∧ rest !! k = Some 58) then Some (take (S k) rest, drop (S k) rest) else None.

Definition slashed_protocol (p : jsstring) : bool :=
  bool_decide (p ∈ [js "http"; js "http:"; js "https"; js "https:"; js "ftp"; js "ftp:";
                    js "gopher"; js "gopher:"; js "file"; js "file:"; js "ws"; js "ws:"; js "wss"; js "wss:"]).

Definition hostless_protocol (p : jsstring) : bool := bool_decide (p ∈ [js "javascript"; js "javascript:"]).

(** [/^\/\/[^@\/]+@[^@\/]+/] *)
Definition host_pattern (rest : jsstring) : bool :=
  match rest with
  | 47 :: 47 :: r =>
      let a := cut_at (in_chars [47; 64]) r in
      match drop (length a) r with
      | 64 :: c :: _ => bool_decide (a ≠ []) && negb (in_chars [47; 64] c)
      | _ => false
      end
  | _ => false
  end.

(** ** The host *)

(** Characters RFC 2396 never allows in a hostname, and those ending it. *)
Definition non_host : N → bool := in_chars [9; 10; 13; 32; 34; 37; 39; 59; 60; 62; 92; 94; 96; 123; 124; 125].
Definition host_end : N → bool := in_chars [35; 47; 63].

(** The scan of url.parse: the first non-host character after the last
    [@] (or the host end), and the last [@], up to the first host end. *)
Fixpoint host_scan (s : jsstring) (i : nat) (nonhost at_sign : option nat) : option nat * option nat :=
  match s with
  | [] => (nonhost, at_sign)
  | c :: s' =>
      if host_end c then (Some (default i nonhost), at_sign)
      else if bool_decide (c = 64) then host_scan s' (S i) None (Some i)
      else if non_host c then host_scan s' (S i) (Some (default i nonhost)) at_sign
      else host_scan s' (S i) nonhost at_sign
  end.

(** [decodeURIComponent] of the user info succeeds (ECMAScript Decode):
    every [%] starts two hex digits, and the bytes above 127 form valid
    UTF-8 sequences. *)
Definition hex_val (c : N) : option N :=
  if decide (48 ≤ c ≤ 57) then Some (c - 48)
  else if decide (65 ≤ c ≤ 70) then Some (c - 55)
  else if decide (97 ≤ c ≤ 102) then Some (c - 87) else None.

Definition hex_byte (h1 h2 : N) : option N := a ← hex_val h1; b ← hex_val h2; Some (16 * a + b).

(** The number of continuation bytes a leading byte announces. *)
Definition utf8_lead (b : N) : option nat :=
  if decide (192 ≤ b ≤ 223) then Some 1%nat
  else if decide (224 ≤ b ≤ 239) then Some 2%nat
  else if decide (240 ≤ b ≤ 247) then Some 3%nat else None.

(** The code point of a UTF-8 sequence, and its validity: not overlong,
    not a surrogate, at most U+10FFFF. *)
Definition utf8_valid (bs : list N) : bool :=
  match bs with
  | [b0; b1] => let cp := 64 * (b0 - 192) + (b1 - 128) in bool_decide (128 ≤ cp)
  | [b0; b1; b2] =>
      let cp := 4096 * (b0 - 224) + 64 * (b1 - 128) + (b2 - 128) in
      bool_decide (2048 ≤ cp ∧ ¬ (55296 ≤ cp ≤ 57343))
  | [b0; b1; b2; b3] =>
      let cp := 262144 * (b0 - 240) + 4096 * (b1 - 128) + 64 * (b2 - 128) + (b3 - 128) in
      bool_decide (65536 ≤ cp ≤ 1114111)
  | _ => false
  end.

Fixpoint uri_decode_ok (s : jsstring) (seq : list N) (pending : nat) : bool :=
  match s with
  | [] => bool_decide (pending = 0%nat)
  | c :: s' =>
      match pending with
      | O =>
          if bool_decide (c = 37) then
            match s' with
            | h1 :: h2 :: s'' =>
                match hex_byte h1 h2 with
                | Some b => if decide (b < 128) then uri_decode_ok s'' [] 0
                            else match utf8_lead b with
                                 | Some n => uri_decode_ok s'' [b] n
                                 | None => false
                                 end
                | None => false
                end
            | _ => false
            end
          else uri_decode_ok s' [] 0
      | S p =>
          if bool_decide (c = 37) then
            match s' with
            | h1 :: h2 :: s'' =>
                match hex_byte h1 h2 with
                | Some b => if decide (128 ≤ b ≤ 191) then
                              (match p with
                               | O => utf8_valid (seq ++ [b]) && uri_decode_ok s'' [] 0
                               | _ => uri_decode_ok s'' (seq ++ [b]) p
                               end)
                            else false
                | None => false
                end
            | _ => false
            end
          else false
      end
  end.

(** [parseHost]: a final [:digits] is the port. *)
Definition strip_port (host : jsstring) : jsstring :=
  let r := rev host in
  let ds := cut_at (is_char 58) r in
  if bool_decide (drop (length ds) r ≠ [] ∧ Forall (λ c, 48 ≤ c ≤ 57) ds)
  then rev (drop (S (length ds)) r) else host.

Definition is_ipv6 (h : jsstring) : bool :=
  match h with 91 :: _ => bool_decide (List.last h 0 = 93) | _ => false end.

Definition forbidden_host : N → bool := in_chars [0; 9; 10; 13; 32; 35; 37; 47; 58; 60; 62; 63; 64; 91; 92; 93; 94; 124].
Definition forbidden_host_ipv6 : N → bool := in_chars [0; 9; 10; 13; 32; 35; 37; 47; 60; 62; 63; 64; 92; 94; 124].

(** The host part of url.parse: the rest after the host and the
    hostname, or [None] when it throws (undecodable user info, a
    forbidden character in the hostname). *)
Definition parse_host (rest : jsstring) : option (jsstring * jsstring) :=
  let '(nonhost, at_sign) := host_scan rest 0 None None in
  let start := match at_sign with Some a => S a | None => 0%nat end in
  let auth_ok := match at_sign with Some a => uri_decode_ok (take a rest) [] 0 | None => true end in
  let host := match nonhost with Some n => take (n - start) (drop start rest) | None => drop start rest end in
  let rest1 := match nonhost with Some n => drop n rest | None => [] end in
  let hostname := strip_port host in
  let ipv6 := is_ipv6 hostname in
  let '(hostname1, rest2) :=
    if ipv6 then (hostname, rest1)
    else match index_where (in_chars [47; 92; 35; 63; 58]) hostname with
         | Some i => (take i hostname, 47 :: drop i hostname ++ rest1)
         | None => (hostname, rest1)
         end in
  let hostname2 := if decide (255 < length hostname1)%nat then [] else hostname1 in
  let throws := match hostname2 with
                | [] => false
                | _ => if ipv6 then existsb forbidden_host_ipv6 hostname2 else existsb forbidden_host hostname2
                end in
  if negb auth_ok || throws then None
  else if ipv6 then
    Some (match rest2 with 47 :: _ => rest2 | _ => 47 :: rest2 end, take (pred (pred (length hostname2))) (drop 1 hostname2))
  else Some (rest2, hostname2).

(** ** Escaping and the pathname *)

Definition auto_escape (c : N) : jsstring :=
  match c with
  | 9 => js "%09" | 10 => js "%0A" | 13 => js "%0D" | 32 => js "%20" | 34 => js "%22"
  | 39 => js "%27" | 60 => js "%3C" | 62 => js "%3E" | 92 => js "%5C" | 94 => js "%5E"
  | 96 => js "%60" | 123 => js "%7B" | 124 => js "%7C" | 125 => js "%7D" | _ => [c]
  end.

Definition escape (s : jsstring) : jsstring := s ≫= auto_escape.

(** What precedes the first [?] or [#], when it is not empty. *)
Definition path_of_rest (rest : jsstring) : option jsstring :=
  match cut_at (in_chars [35; 63]) rest with [] => None | p => Some p end.

(** [url.parse(url).pathname]. *)
Definition url_parse_pathname (url : jsstring) : option jsstring :=
  let rest0 := slash_backslashes (trim_url url) in
  let has_hash := bool_decide (35 ∈ rest0) in
  let has_at := bool_decide (64 ∈ cut_at (in_chars [35; 63]) rest0) in
  match (if negb has_hash && negb has_at then simple_path rest0 else None) with
  | Some p => Some p
  | None =>
    let '(proto, rest1) := match split_proto rest0 with
                           | Some (p, r) => (Some p, r)
                           | None => (None, rest0)
                           end in
    let lproto := ascii_lower <$> default [] proto in
    let slashes := bool_decide (is_Some proto ∨ host_pattern rest1 = true) &&
                   bool_decide (take 2 rest1 = [47; 47]) in
    let rest2 := if slashes && negb (bool_decide (is_Some proto) && hostless_protocol lproto)
                 then drop 2 rest1 else rest1 in
    let has_host := negb (hostless_protocol lproto) &&
                    (slashes || match proto with Some p => negb (slashed_protocol p) | None => false end) in
    let parsed := if has_host then (λ '(r, h), (r, Some h)) <$> parse_host rest2 else Some (rest2, None) in
    match parsed with
    | None => None
    | Some (rest3, hostname) =>
        let rest4 := if hostless_protocol lproto then rest3 else escape rest3 in
        match path_of_rest rest4 with
        | Some p => Some p
        | None =>
            match hostname with
            | Some (_ :: _) => if slashed_protocol lproto then Some [47] else None
            | _ => None
            end
        end
    end
  end.

(** [parseurl(req).pathname]: the fast path or url.parse. *)
Definition url_pathname (url : jsstring) : option jsstring :=
  if fastparse_ok url then Some (cut_at (is_char 63) url) else url_parse_pathname url.

(** ** Lemmas *)

Lemma cut_at_app_r p s t : forallb (λ c, negb (p c)) s = true → cut_at p (s ++ t) = s ++ cut_at p t.
Proof.
  induction s as [|c s IH]; simpl; [done|]. intros [Hc Hs]%andb_true_iff.
  destruct (p c); [done|]. by rewrite IH.
Qed.

(** A string is its part before the first [p], then the rest, which is
    empty or starts with a code unit satisfying [p]. *)
Lemma cut_at_app_drop p s : s = cut_at p s ++ drop (length (cut_at p s)) s.
Proof. induction s as [|c s IH]; simpl; [done|]. destruct (p c); simpl; [done|]. by rewrite <-IH. Qed.

Lemma cut_at_none p s : forallb (λ c, negb (p c)) (cut_at p s) = true.
Proof. induction s as [|c s IH]; simpl; [done|]. destruct (p c) eqn:E; simpl; [done|]. by rewrite E. Qed.

Lemma cut_at_rest p s :
  match drop (length (cut_at p s)) s with [] => True | c :: _ => p c = true end.
Proof. induction s as [|c s IH]; simpl; [done|]. by destruct (p c) eqn:E. Qed.

(** A part free of [p] followed by a rest that starts with [p] (or is
    empty) is cut at the start of the rest. *)
Lemma cut_at_app_stop p d q :
  forallb (λ c, negb (p c)) d = true → match q with [] => True | c :: _ => p c = true end →
  cut_at p (d ++ q) = d.
Proof.
  intros Hd Hq. rewrite cut_at_app_r by done.
  destruct q as [|c q]; simpl; [by rewrite app_nil_r|]. by rewrite Hq, app_nil_r.
Qed.

(** On parseurl's fast path the pathname is the part before the first [?]. *)
Lemma url_pathname_fast url : fastparse_ok url = true → url_pathname url = Some (cut_at (is_char 63) url).
Proof. unfold url_pathname. by intros ->. Qed.

End Url.
