(* ===== verification/JsonPrint.v ===== *)
(** * JSON.stringify, as [res.json] sends a value

    Express's [res.json(v)] sends [JSON.stringify(v)] (no replacer, no
    indentation, [json escape] off).  This file models JSON.stringify
    of ECMAScript 25.5.2 on the values of [JsValue]:

    - [quote] is QuoteJSONString (25.5.2.3) with UnicodeEscape (25.5.2.4):
      the seven short escapes, [\u00xx] for the other control units, and
      [\uxxxx] (lower-case hex) for a surrogate that is not part of a pair;
    - [own_keys] is OrdinaryOwnPropertyKeys (10.1.11.1): array-index keys
      in ascending numeric order, then the other keys in the order of
      their first creation; a repeated key keeps its first position and
      its last value ([own_prop]), as JSON.parse and object literals make;
    - [serialize] is SerializeJSONProperty (25.5.2.2) with
      SerializeJSONObject and SerializeJSONArray: [None] is [undefined],
      a non-finite number is [null], an [undefined] member of an object is
      left out and an [undefined] element of an array is [null].  No value
      of the model holds a function, so [toJSON] is never called.

    [normalize] is the value that text denotes; the parser of [JsonParse]
    returns it. *)

From Stdlib Require Import String.
From stdpp Require Import base list numbers sorting.
From Stdlib Require Import ZArith QArith Qcanon Lia.
From S2P Require Import Prelude JsValue.

Local Open Scope N_scope.

(** ** QuoteJSONString *)

(** A hexadecimal digit, lower case as UnicodeEscape writes it. *)
Definition hex_digit (d : N) : N := if decide (d < 10) then 48 + d else 87 + d.

(** UnicodeEscape(c): [\u] and four hexadecimal digits. *)
Definition unicode_escape (c : N) : jsstring :=
  [92; 117; hex_digit ((c / 4096) `mod` 16); hex_digit ((c / 256) `mod` 16);
   hex_digit ((c / 16) `mod` 16); hex_digit (c `mod` 16)].

Definition is_lead (c : N) : bool := bool_decide (55296 ≤ c ≤ 56319).
Definition is_trail (c : N) : bool := bool_decide (56320 ≤ c ≤ 57343).

(** The short escapes of Table 73: backspace, tab, line feed, form feed,
    carriage return, quotation mark and reverse solidus. *)
Definition short_escape (c : N) : option N :=
  if decide (c = 8) then Some 98 else if decide (c = 9) then Some 116
  else if decide (c = 10) then Some 110 else if decide (c = 12) then Some 102
  else if decide (c = 13) then Some 114 else if decide (c = 34) then Some 34
  else if decide (c = 92) then Some 92 else None.

(** A code unit that is not a surrogate. *)
Definition escape_unit (c : N) : jsstring :=
  match short_escape c with
  | Some e => [92; e]
  | None => if decide (c < 32) then unicode_escape c else [c]
  end.

(** The code points of the string, a surrogate pair kept as it is and a
    lone surrogate escaped. *)
Fixpoint quote_units (s : jsstring) : jsstring :=
  match s with
  | [] => []
  | c :: s' =>
      if is_lead c then
        match s' with
        | d :: s'' => if is_trail d then c :: d :: quote_units s''
                      else unicode_escape c ++ quote_units s'
        | [] => unicode_escape c
        end
      else if is_trail c then unicode_escape c ++ quote_units s'
      else escape_unit c ++ quote_units s'
  end.

Definition quote (s : jsstring) : jsstring := [34] ++ quote_units s ++ [34].

(** ** The order of an object's keys *)

Fixpoint digits_N (acc : N) (s : jsstring) : option N :=
  match s with
  | [] => Some acc
  | c :: s' => if decide (48 ≤ c ≤ 57) then digits_N (10 * acc + (c - 48)) s' else None
  end.

(** An array index: the canonical decimal form of an integer below
    2^32 - 1 (no sign, no leading zero). *)
Definition array_index (k : jsstring) : option N :=
  match k with
  | [48] => Some 0
  | c :: _ => if decide (49 ≤ c ≤ 57) then
                match digits_N 0 k with
                | Some i => if decide (i < 4294967295) then Some i else None
                | None => None
                end
              else None
  | [] => None
  end.

(** The keys in the order of their first creation. *)
Definition creation_order (ks : list jsstring) : list jsstring :=
  reverse (remove_dups (reverse ks)).

Definition index_le (a b : N * jsstring) : Prop := a.1 ≤ b.1.
#[local] Instance index_le_dec : RelDecision index_le := λ a b, decide (a.1 ≤ b.1).

(** OrdinaryOwnPropertyKeys of an object built from these bindings. *)
Definition own_keys (fs : list (jsstring * value)) : list jsstring :=
  let ks := creation_order (fst <$> fs) in
  (snd <$> merge_sort index_le (omap (λ k, (λ i, (i, k)) <$> array_index k) ks)) ++
  filter (λ k, array_index k = None) ks.

(** ** SerializeJSONProperty *)

Section serialize.
Context `{JsConversions}.

Fixpoint serialize (v : value) : option jsstring :=
  match v with
  | VUndefined => None
  | VNull => Some (js "null")
  | VBool b => Some (js (if b then "true" else "false"))
  | VNumber (Num q) => Some (finite_to_string q)
  | VNumber _ => Some (js "null")
  | VString s => Some (quote s)
  | VArray xs =>
      Some ([91] ++ join_comma ((fix go (xs : list value) : list jsstring :=
                                  match xs with
                                  | [] => []
                                  | x :: xs' => default (js "null") (serialize x) :: go xs'
                                  end) xs) ++ [93])
  | VObject fs =>
      let sfs := (fix go (fs : list (jsstring * value)) : list (jsstring * option jsstring) :=
                    match fs with
                    | [] => []
                    | (k, x) :: fs' => (k, serialize x) :: go fs'
                    end) fs in
      Some ([123] ++ join_comma (omap (λ k, match own_prop sfs k with
                                            | Some (Some t) => Some (quote k ++ [58] ++ t)
                                            | _ => None
                                            end) (own_keys fs)) ++ [125])
  end.

(** The text Express sends for [res.json(v)]: [JSON.stringify(v)], or an
    empty body when that is [undefined]. *)
Definition json_text (v : value) : jsstring := default [] (serialize v).
End serialize.

(** ** The value a serialized text denotes *)

Definition undefined_to_null (v : value) : value :=
  match v with VUndefined => VNull | _ => v end.

Fixpoint normalize (v : value) : value :=
  match v with
  | VNumber (Num q) => VNumber (Num q)
  | VNumber _ => VNull
  | VArray xs =>
      VArray ((fix go (xs : list value) : list value :=
                 match xs with
                 | [] => []
                 | x :: xs' => undefined_to_null (normalize x) :: go xs'
                 end) xs)
  | VObject fs =>
      let nfs := (fix go (fs : list (jsstring * value)) : list (jsstring * value) :=
                    match fs with
                    | [] => []
                    | (k, x) :: fs' => (k, normalize x) :: go fs'
                    end) fs in
      VObject (omap (λ k, match own_prop nfs k with
                          | Some VUndefined | None => None
                          | Some y => Some (k, y)
                          end) (own_keys fs))
  | _ => v
  end.

(** The finite numbers a value holds, printed by [finite_to_string]. *)
Fixpoint finite_numbers (v : value) : list Qc :=
  match v with
  | VNumber (Num q) => [q]
  | VArray xs => (fix go (xs : list value) : list Qc :=
                    match xs with [] => [] | x :: xs' => finite_numbers x ++ go xs' end) xs
  | VObject fs => (fix go (fs : list (jsstring * value)) : list Qc :=
                     match fs with [] => [] | (_, x) :: fs' => finite_numbers x ++ go fs' end) fs
  | _ => []
  end.

(** ** The recursive cases, with [map] for the inner loops *)

Definition second {A B} (h : A → B) (kx : jsstring * A) : jsstring * B := (kx.1, h kx.2).

Lemma own_prop_second {A B} (h : A → B) (fs : list (jsstring * A)) k :
  own_prop (second h <$> fs) k = h <$> own_prop fs k.
Proof.
  unfold own_prop. change (@None B) with (h <$> (@None A)).
  generalize (@None A). induction fs as [|[k' x] fs IH]; intros o; simpl; [done|].
  rewrite <-IH. by case_decide.
Qed.

Lemma own_prop_elem {A} (fs : list (jsstring * A)) k x : own_prop fs k = Some x → (k, x) ∈ fs.
Proof.
  unfold own_prop. cut (∀ o, fold_left (λ acc kv, if decide (kv.1 = k) then Some kv.2 else acc) fs o
    = Some x → o = Some x ∨ (k, x) ∈ fs).
  { intros Hc Hx. destruct (Hc None Hx) as [?|?]; done. }
  induction fs as [|[k' y] fs IH]; intros o; simpl; [by left|].
  intros Hx. destruct (IH _ Hx) as [Ho|Ho]; [|right; by right].
  case_decide; simplify_eq/=; [right; left|by left].
Qed.

Section serialize_lemmas.
Context `{JsConversions}.

Definition serialize_elem (x : value) : jsstring := default (js "null") (serialize x).

Lemma serialize_array xs :
  serialize (VArray xs) = Some ([91] ++ join_comma (serialize_elem <$> xs) ++ [93]).
Proof. simpl. do 3 f_equal; induction xs; simpl; by f_equal. Qed.

(** A member of the object text, for the key [k]. *)
Definition serialize_member (fs : list (jsstring * value)) (k : jsstring) : option jsstring :=
  match serialize <$> own_prop fs k with
  | Some (Some t) => Some (quote k ++ [58] ++ t)
  | _ => None
  end.

Lemma serialize_object fs :
  serialize (VObject fs) = Some ([123] ++ join_comma (omap (serialize_member fs) (own_keys fs)) ++ [125]).
Proof.
  simpl. do 4 f_equal. apply list_omap_ext, Forall_Forall2_diag, Forall_forall. intros k _.
  unfold serialize_member. rewrite <-(own_prop_second serialize).
  assert ((fix go (fs : list (jsstring * value)) : list (jsstring * option jsstring) :=
             match fs with [] => [] | (k, x) :: fs' => (k, serialize x) :: go fs' end) fs
          = second serialize <$> fs) as ->; [|done].
  induction fs as [|[k' x] fs IH]; simpl; by f_equal.
Qed.

Lemma serialize_None v : serialize v = None ↔ v = VUndefined.
Proof. destruct v as [| | |[]| | |]; done. Qed.
End serialize_lemmas.

Lemma normalize_array xs :
  normalize (VArray xs) = VArray (undefined_to_null ∘ normalize <$> xs).
Proof. simpl. f_equal; induction xs; simpl; by f_equal. Qed.

Definition normalize_member (fs : list (jsstring * value)) (k : jsstring) : option (jsstring * value) :=
  match normalize <$> own_prop fs k with
  | Some VUndefined | None => None
  | Some y => Some (k, y)
  end.

Lemma normalize_object fs :
  normalize (VObject fs) = VObject (omap (normalize_member fs) (own_keys fs)).
Proof.
  simpl. f_equal. apply list_omap_ext, Forall_Forall2_diag, Forall_forall. intros k _.
  unfold normalize_member. rewrite <-(own_prop_second normalize).
  assert ((fix go (fs : list (jsstring * value)) : list (jsstring * value) :=
             match fs with [] => [] | (k, x) :: fs' => (k, normalize x) :: go fs' end) fs
          = second normalize <$> fs) as ->; [|done].
  induction fs as [|[k' x] fs IH]; simpl; by f_equal.
Qed.

Lemma normalize_undefined v : normalize v = VUndefined ↔ v = VUndefined.
Proof. destruct v as [| | |[]| | |]; done. Qed.

Lemma finite_numbers_array xs : finite_numbers (VArray xs) = xs ≫= finite_numbers.
Proof. simpl. induction xs; simpl; by f_equal. Qed.

Lemma finite_numbers_object fs : finite_numbers (VObject fs) = fs ≫= (finite_numbers ∘ snd).
Proof. simpl. induction fs as [|[k x] fs IH]; simpl; by f_equal. Qed.
