(* ===== verification/JsonParse.v ===== *)
(** * JSON.parse, as [express.json()] reads a request body

    The grammar of ECMA-404 as JSON.parse (ECMAScript 25.5.1) accepts it,
    on the code units of the body text: white space (tab, line feed,
    carriage return, space) between tokens, the literals, strings with
    their escapes, numbers, arrays and objects.  An object is the list of
    its members in text order; a repeated key is kept, and [own_prop]
    reads its last value, as CreateDataProperty overwrites it.

    The parser is a recursive descent on fuel.  [json_fuel] gives it
    [2 * length + 1] units, which is enough: [parse_value_fuel] shows it
    never runs out with them and that more fuel gives the same answer.

    A number is read as the longest run of number characters, then
    checked against the number grammar of [JsNumber]; this is JSON.parse's answer,
    since no character that may follow a number in a valid text (white
    space, [,], [\]], [}]) is a number character.  Its value is exact
    (the model does not round to a double), and a finite decimal: with
    [JsNumber]'s Number::toString, parse after stringify gives back the
    value the text denotes ([json_roundtrip_exact]). *)

From Stdlib Require Import String.
From stdpp Require Import base list numbers.
From Stdlib Require Import ZArith QArith Qcanon Lia.
From S2P Require Import Prelude JsValue JsNumber JsonPrint.

Local Open Scope N_scope.

(** ** Tokens *)

Definition is_json_ws (c : N) : bool := bool_decide (c = 9 ∨ c = 10 ∨ c = 13 ∨ c = 32).

Fixpoint skip_ws (s : jsstring) : jsstring :=
  match s with
  | c :: s' => if is_json_ws c then skip_ws s' else s
  | [] => []
  end.

(** The text after the punctuation [c], white space before it skipped. *)
Definition next_is (c : N) (s : jsstring) : option jsstring :=
  match skip_ws s with
  | d :: s' => if decide (d = c) then Some s' else None
  | [] => None
  end.

Fixpoint strip_prefix (p s : jsstring) : option jsstring :=
  match p, s with
  | [], _ => Some s
  | a :: p', b :: s' => if decide (a = b) then strip_prefix p' s' else None
  | _ :: _, [] => None
  end.

(** [true], [false] and [null]. *)
Definition lex_literal (s : jsstring) : option (value * jsstring) :=
  match strip_prefix (js "true") s with
  | Some r => Some (VBool true, r)
  | None =>
      match strip_prefix (js "false") s with
      | Some r => Some (VBool false, r)
      | None => (λ r, (VNull, r)) <$> strip_prefix (js "null") s
      end
  end.

(** ** Strings *)

(** The code unit an escape [\e] stands for ([\u] apart). *)
Definition escape_value (e : N) : option N :=
  if decide (e = 34) then Some 34 else if decide (e = 92) then Some 92
  else if decide (e = 47) then Some 47 else if decide (e = 98) then Some 8
  else if decide (e = 102) then Some 12 else if decide (e = 110) then Some 10
  else if decide (e = 114) then Some 13 else if decide (e = 116) then Some 9
  else None.

(** The contents of a string after its opening quotation mark, and the
    text after its closing one.  A control unit (below U+0020) must be
    escaped. *)
Fixpoint lex_string (s : jsstring) : option (jsstring * jsstring) :=
  match s with
  | [] => None
  | c :: s' =>
      if decide (c = 34) then Some ([], s')
      else if decide (c = 92) then
        match s' with
        | 117 :: h1 :: h2 :: h3 :: h4 :: s'' =>
            match hex_value h1, hex_value h2, hex_value h3, hex_value h4 with
            | Some a, Some b, Some d, Some e =>
                prod_map (cons (4096 * a + 256 * b + 16 * d + e)) id <$> lex_string s''
            | _, _, _, _ => None
            end
        | e :: s'' => match escape_value e with
                      | Some u => prod_map (cons u) id <$> lex_string s''
                      | None => None
                      end
        | [] => None
        end
      else if decide (c < 32) then None
      else prod_map (cons c) id <$> lex_string s'
  end.

(** ** Numbers *)

Definition lex_number (s : jsstring) : option (Qc * jsstring) :=
  let '(run, rest) := span is_number_char s in (λ q, (q, rest)) <$> json_number run.

(** ** Values *)

(** The outcome of a parse: a value and the text after it, a syntax
    error, or no fuel left. *)
Inductive presult := POk (v : value) (rest : jsstring) | PErr | PFuel.

Fixpoint parse_value (fuel : nat) (s : jsstring) : presult :=
  match fuel with
  | O => PFuel
  | S f =>
      match skip_ws s with
      | [] => PErr
      | c :: s1 =>
          if decide (c = 123) then
            match next_is 125 s1 with
            | Some s2 => POk (VObject []) s2
            | None => parse_members f [] s1
            end
          else if decide (c = 91) then
            match next_is 93 s1 with
            | Some s2 => POk (VArray []) s2
            | None => parse_elements f [] s1
            end
          else if decide (c = 34) then
            match lex_string s1 with
            | Some (str, s2) => POk (VString str) s2
            | None => PErr
            end
          else
            match lex_literal (c :: s1) with
            | Some (v, s2) => POk v s2
            | None => match lex_number (c :: s1) with
                      | Some (q, s2) => POk (VNumber (Num q)) s2
                      | None => PErr
                      end
            end
      end
  end
(** The elements of a non-empty array, [acc] those already read. *)
with parse_elements (fuel : nat) (acc : list value) (s : jsstring) : presult :=
  match fuel with
  | O => PFuel
  | S f =>
      match parse_value f s with
      | POk v s1 =>
          match next_is 44 s1 with
          | Some s2 => parse_elements f (acc ++ [v]) s2
          | None => match next_is 93 s1 with
                    | Some s2 => POk (VArray (acc ++ [v])) s2
                    | None => PErr
                    end
          end
      | PErr => PErr
      | PFuel => PFuel
      end
  end
(** The members of a non-empty object. *)
with parse_members (fuel : nat) (acc : list (jsstring * value)) (s : jsstring) : presult :=
  match fuel with
  | O => PFuel
  | S f =>
      match next_is 34 s with
      | None => PErr
      | Some s1 =>
          match lex_string s1 with
          | None => PErr
          | Some (k, s2) =>
              match next_is 58 s2 with
              | None => PErr
              | Some s3 =>
                  match parse_value f s3 with
                  | POk v s4 =>
                      match next_is 44 s4 with
                      | Some s5 => parse_members f (acc ++ [(k, v)]) s5
                      | None => match next_is 125 s4 with
                                | Some s5 => POk (VObject (acc ++ [(k, v)])) s5
                                | None => PErr
                                end
                      end
                  | PErr => PErr
                  | PFuel => PFuel
                  end
              end
          end
      end
  end.

Definition json_fuel (s : jsstring) : nat := 2 * length s + 1.

(** JSON.parse(text): [None] is the SyntaxError it throws. *)
Definition json_parse (s : jsstring) : option value :=
  match parse_value (json_fuel s) s with
  | POk v r => if decide (skip_ws r = []) then Some v else None
  | _ => None
  end.

(** ** Every token consumes text *)

Lemma skip_ws_length s : (length (skip_ws s) ≤ length s)%nat.
Proof. induction s as [|c s IH]; simpl; [lia|]. case_match; simpl; lia. Qed.

Lemma next_is_length c s s' : next_is c s = Some s' → (length s' < length s)%nat.
Proof.
  unfold next_is. pose proof (skip_ws_length s).
  destruct (skip_ws s); [done|]. case_decide; intros; simplify_eq/=. lia.
Qed.

Lemma strip_prefix_length p s r : strip_prefix p s = Some r → (length r + length p = length s)%nat.
Proof.
  revert s. induction p as [|a p IH]; intros [|b s]; simpl; intros; try case_decide; simplify_eq/=; try lia.
  apply IH in H. lia.
Qed.

Lemma lex_literal_length s v r : lex_literal s = Some (v, r) → (length r < length s)%nat.
Proof.
  unfold lex_literal.
  destruct (strip_prefix (js "true") s) eqn:E1.
  { apply strip_prefix_length in E1. intros [= <- <-]. simpl in E1. lia. }
  destruct (strip_prefix (js "false") s) eqn:E2.
  { apply strip_prefix_length in E2. intros [= <- <-]. simpl in E2. lia. }
  destruct (strip_prefix (js "null") s) eqn:E3; [|done].
  apply strip_prefix_length in E3. intros [= <- <-]. simpl in E3. lia.
Qed.

Lemma lex_string_length s x r : lex_string s = Some (x, r) → (length r < length s)%nat.
Proof.
  revert x r. induction s as [s IH] using (induction_ltof1 _ (@length N)); unfold ltof in IH.
  intros x r. destruct s as [|c s']; simpl; [done|].
  repeat case_decide; repeat case_match; intros; simplify_eq/=; try lia;
    repeat match goal with
    | H : prod_map _ _ <$> lex_string ?t = Some _ |- _ =>
        destruct (lex_string t) as [[??]|] eqn:E; simplify_eq/=;
        apply IH in E; simpl in *; lia
    end.
Qed.

Lemma lex_number_length s q r : lex_number s = Some (q, r) → (length r < length s)%nat.
Proof.
  unfold lex_number. pose proof (span_app is_number_char s) as Hs.
  destruct (span is_number_char s) as [run rest]. simpl in Hs.
  destruct (json_number run) eqn:E; intros; simplify_eq/=.
  destruct run; [by rewrite json_number_nil in E|]. rewrite length_app. simpl. lia.
Qed.

(** ** Fuel *)

Ltac token_lengths :=
  repeat match goal with
  | H : next_is _ _ = Some _ |- _ => apply next_is_length in H
  | H : lex_string _ = Some (_, _) |- _ => apply lex_string_length in H
  | H : lex_literal _ = Some (_, _) |- _ => apply lex_literal_length in H
  | H : lex_number _ = Some (_, _) |- _ => apply lex_number_length in H
  end.

(** A parse consumes text. *)
Lemma parse_rest_length n :
  (∀ s v r, parse_value n s = POk v r → (length r < length s)%nat) ∧
  (∀ acc s v r, parse_elements n acc s = POk v r → (length r < length s)%nat) ∧
  (∀ acc s v r, parse_members n acc s = POk v r → (length r < length s)%nat).
Proof.
  induction n as [|n (IHv & IHe & IHm)]; [done|]. split_and!.
  - intros s v r. simpl. pose proof (skip_ws_length s).
    destruct (skip_ws s) as [|c s1]; [done|]. simpl in *.
    repeat case_decide; repeat case_match; intros; simplify_eq; token_lengths;
      repeat match goal with
      | H : parse_members _ _ _ = POk _ _ |- _ => apply IHm in H
      | H : parse_elements _ _ _ = POk _ _ |- _ => apply IHe in H
      end; simpl in *; lia.
  - intros acc s v r. simpl.
    destruct (parse_value n s) as [v1 s1| |] eqn:E; try done. apply IHv in E.
    destruct (next_is 44 s1) eqn:E1.
    + intros H. apply IHe in H. token_lengths. lia.
    + destruct (next_is 93 s1) eqn:E2; intros; simplify_eq. token_lengths. lia.
  - intros acc s v r. simpl.
    repeat case_match; intros; simplify_eq; token_lengths;
      repeat match goal with
      | H : parse_value _ _ = POk _ _ |- _ => apply IHv in H
      | H : parse_members _ _ _ = POk _ _ |- _ => apply IHm in H
      end; lia.
Qed.

Lemma parse_value_rest n s v r : parse_value n s = POk v r → (length r < length s)%nat.
Proof. apply parse_rest_length. Qed.

(** [2 * length + 1] units of fuel suffice. *)
Lemma parse_enough_fuel n :
  (∀ s, (2 * length s < n)%nat → parse_value n s ≠ PFuel) ∧
  (∀ acc s, (2 * length s + 1 < n)%nat → parse_elements n acc s ≠ PFuel) ∧
  (∀ acc s, (2 * length s + 1 < n)%nat → parse_members n acc s ≠ PFuel).
Proof.
  induction n as [|n (IHv & IHe & IHm)]; [split_and!; intros; lia|]. split_and!.
  - intros s Hn. simpl. pose proof (skip_ws_length s).
    destruct (skip_ws s) as [|c s1]; [done|]. simpl in *.
    repeat case_decide; repeat case_match; try done.
    + apply IHm. lia.
    + apply IHe. lia.
  - intros acc s Hn. simpl.
    destruct (parse_value n s) as [v1 s1| |] eqn:E; try done; [|exfalso; apply (IHv s); [lia|exact E]].
    apply parse_value_rest in E.
    destruct (next_is 44 s1) eqn:E1; [|by destruct (next_is 93 s1)].
    token_lengths. apply IHe. lia.
  - intros acc s Hn. simpl.
    destruct (next_is 34 s) as [s1|] eqn:E1; [|done].
    destruct (lex_string s1) as [[k s2]|] eqn:E2; [|done].
    destruct (next_is 58 s2) as [s3|] eqn:E3; [|done].
    token_lengths.
    destruct (parse_value n s3) as [v s4| |] eqn:E4; try done;
      [|exfalso; apply (IHv s3); [lia|exact E4]].
    apply parse_value_rest in E4.
    destruct (next_is 44 s4) eqn:E5; [|by destruct (next_is 125 s4)].
    token_lengths. apply IHm. lia.
Qed.

(** An answer given with some fuel is the answer with more. *)
Lemma parse_fuel_mono n :
  (∀ m s, (n ≤ m)%nat → parse_value n s ≠ PFuel → parse_value m s = parse_value n s) ∧
  (∀ m acc s, (n ≤ m)%nat → parse_elements n acc s ≠ PFuel →
     parse_elements m acc s = parse_elements n acc s) ∧
  (∀ m acc s, (n ≤ m)%nat → parse_members n acc s ≠ PFuel →
     parse_members m acc s = parse_members n acc s).
Proof.
  induction n as [|n (IHv & IHe & IHm)]; [done|]. split_and!.
  - intros [|m] s Hm H; [lia|]. simpl in *.
    destruct (skip_ws s) as [|c s1]; [done|].
    repeat case_decide; try done;
      destruct (next_is _ s1); try done; first [apply IHm | apply IHe]; (lia || done).
  - intros [|m] acc s Hm H; [lia|]. simpl in *.
    destruct (parse_value n s) as [v s1| |] eqn:E; [| |done];
      rewrite (IHv m s), E by (lia || congruence); [|done].
    destruct (next_is 44 s1); [|done]. apply IHe; [lia|done].
  - intros [|m] acc s Hm H; [lia|]. simpl in *.
    destruct (next_is 34 s) as [s1|]; [|done].
    destruct (lex_string s1) as [[k s2]|]; [|done].
    destruct (next_is 58 s2) as [s3|]; [|done].
    destruct (parse_value n s3) as [v s4| |] eqn:E; [| |done];
      rewrite (IHv m s3), E by (lia || congruence); [|done].
    destruct (next_is 44 s4); [|done]. apply IHm; [lia|done].
Qed.

Lemma parse_value_mono n m s :
  (n ≤ m)%nat → parse_value n s ≠ PFuel → parse_value m s = parse_value n s.
Proof. apply parse_fuel_mono. Qed.

(** ** Reading back what JSON.stringify writes: strings *)

Lemma hex_value_digit d : d < 16 → hex_value (hex_digit d) = Some d.
Proof. intros. unfold hex_value, hex_digit. repeat case_decide; f_equal; lia. Qed.

Lemma nibbles c :
  c < 65536 → 4096 * ((c / 4096) `mod` 16) + 256 * ((c / 256) `mod` 16) +
              16 * ((c / 16) `mod` 16) + c `mod` 16 = c.
Proof.
  intros Hc.
  assert (E1 : c / 256 = c / 16 / 16) by (rewrite N.Div0.div_div; done).
  assert (E2 : c / 4096 = c / 256 / 16) by (rewrite N.Div0.div_div; done).
  assert (c / 4096 < 16) by (apply N.Div0.div_lt_upper_bound; lia).
  rewrite (N.mod_small (c / 4096) 16) by done.
  pose proof (N.div_mod c 16 ltac:(done)). pose proof (N.div_mod (c / 16) 16 ltac:(done)).
  pose proof (N.div_mod (c / 256) 16 ltac:(done)). rewrite E2 in *. rewrite E1 in *. lia.
Qed.

Lemma lex_string_plain c rest :
  c ≠ 34 → c ≠ 92 → 32 ≤ c → lex_string (c :: rest) = prod_map (cons c) id <$> lex_string rest.
Proof. intros. simpl. repeat case_decide; done || lia. Qed.

Lemma lex_string_unicode_escape c rest :
  c < 65536 → lex_string (unicode_escape c ++ rest) = prod_map (cons c) id <$> lex_string rest.
Proof.
  intros Hc. unfold unicode_escape. simpl.
  rewrite !hex_value_digit by (apply N.mod_lt; lia). by rewrite nibbles.
Qed.

Lemma lex_string_quote s r : lex_string (quote_units s ++ [34] ++ r) = Some (s, r).
Proof.
  induction s as [s IH] using (induction_ltof1 _ (@length N)); unfold ltof in IH.
  destruct s as [|c s']; [done|]. cbn [quote_units].
  destruct (is_lead c) eqn:Hl; [apply bool_decide_eq_true in Hl|apply bool_decide_eq_false in Hl].
  - destruct s' as [|d s''].
    + rewrite lex_string_unicode_escape by lia. done.
    + destruct (is_trail d) eqn:Ht; [apply bool_decide_eq_true in Ht|].
      * cbn [app]. rewrite !lex_string_plain by lia. rewrite IH by (simpl; lia). done.
      * rewrite <-app_assoc, lex_string_unicode_escape by lia. rewrite IH by (simpl; lia). done.
  - destruct (is_trail c) eqn:Ht; [apply bool_decide_eq_true in Ht|apply bool_decide_eq_false in Ht].
    + rewrite <-app_assoc, lex_string_unicode_escape by lia. rewrite IH by (simpl; lia). done.
    + unfold escape_unit. destruct (short_escape c) as [e|] eqn:Es.
      * unfold short_escape in Es. rewrite <-app_assoc.
        repeat case_decide; simplify_eq; cbn [app lex_string];
          rewrite IH by (simpl; lia); done.
      * assert (c ≠ 34 ∧ c ≠ 92) as [??].
        { unfold short_escape in Es. repeat case_decide; simplify_eq; done. }
        case_decide.
        -- rewrite <-app_assoc, lex_string_unicode_escape by lia. rewrite IH by (simpl; lia). done.
        -- cbn [app]. rewrite lex_string_plain by lia. rewrite IH by (simpl; lia). done.
Qed.

Lemma lex_string_quote_cons s r : lex_string (quote_units s ++ 34 :: r) = Some (s, r).
Proof. exact (lex_string_quote s r). Qed.

(** ** Reading back what JSON.stringify writes: numbers and literals *)

(** What may follow a value inside a text JSON.stringify writes. *)
Definition json_delim (r : jsstring) : Prop :=
  match r with [] => True | c :: _ => c = 44 ∨ c = 93 ∨ c = 125 end.

Lemma number_char_head c :
  is_number_char c = true →
  is_json_ws c = false ∧ c ≠ 123 ∧ c ≠ 91 ∧ c ≠ 34 ∧ c ≠ 116 ∧ c ≠ 102 ∧ c ≠ 110 ∧ c ≠ 93.
Proof.
  unfold is_number_char, is_digit, is_json_ws. intros Hc.
  apply orb_true_iff in Hc as [Hc|Hc]; apply bool_decide_eq_true in Hc;
    split_and!; try (apply bool_decide_eq_false; lia); lia.
Qed.

Lemma lex_literal_other c s :
  c ≠ 116 → c ≠ 102 → c ≠ 110 → lex_literal (c :: s) = None.
Proof. intros. unfold lex_literal. simpl. repeat case_decide; done || lia. Qed.

Section numbers.
Context `{JsConversions}.

Lemma number_text_head q :
  number_text q → ∃ c t, finite_to_string q = c :: t ∧ is_number_char c = true.
Proof.
  intros [Hq Hc]. destruct (finite_to_string q) as [|c t]; [by rewrite json_number_nil in Hq|].
  inversion Hc. eauto.
Qed.

Lemma parse_number_text q r :
  number_text q → json_delim r → parse_value 1 (finite_to_string q ++ r) = POk (VNumber (Num q)) r.
Proof.
  intros Hq Hr.
  assert (lex_number (finite_to_string q ++ r) = Some (q, r)) as Hlex.
  { destruct Hq as [Hq Hc]. unfold lex_number. rewrite span_stop; [by rewrite Hq|done|].
    intros c r' ->. simpl in Hr. unfold is_number_char, is_digit.
    apply orb_false_iff. split; apply bool_decide_eq_false; lia. }
  destruct (number_text_head q Hq) as (c & t & Ht & Hc). rewrite Ht in Hlex |- *.
  destruct (number_char_head c Hc) as (Hws & ? & ? & ? & ? & ? & ? & ?).
  cbn [app] in Hlex |- *. simpl. rewrite Hws. repeat (case_decide; [done|]).
  by rewrite lex_literal_other, Hlex.
Qed.
End numbers.

(** ** Reading back arrays and objects *)

Lemma next_is_head c s : is_json_ws c = false → next_is c (c :: s) = Some s.
Proof. intros Hc. unfold next_is. simpl. rewrite Hc. by case_decide. Qed.

Lemma next_is_other c d s : is_json_ws d = false → d ≠ c → next_is c (d :: s) = None.
Proof. intros Hd ?. unfold next_is. simpl. rewrite Hd. by case_decide. Qed.

(** What reading a text [t] followed by [r] gives, for every [r] that may
    follow a value. *)
Definition parses_to (t : jsstring) (v : value) : Prop :=
  ∀ r, json_delim r → ∃ n, parse_value n (t ++ r) = POk v r.

Lemma parse_value_lift n m s v r :
  (n ≤ m)%nat → parse_value n s = POk v r → parse_value m s = POk v r.
Proof. intros ? E. rewrite (parse_value_mono n m s); [done|lia|by rewrite E]. Qed.

Lemma json_fuel_enough s : parse_value (json_fuel s) s ≠ PFuel.
Proof. apply parse_enough_fuel. unfold json_fuel. lia. Qed.

(** A whole text the parser reads with some fuel is what [json_parse]
    returns. *)
Lemma json_parse_of_parse n t v : parse_value n t = POk v [] → json_parse t = Some v.
Proof.
  intros Hp. unfold json_parse.
  rewrite <-(parse_value_mono (json_fuel t) (n `max` json_fuel t) t); [|lia|apply json_fuel_enough].
  by rewrite (parse_value_lift n _ _ _ _ ltac:(apply Nat.le_max_l) Hp).
Qed.

Lemma parse_elements_lift n m acc s v r :
  (n ≤ m)%nat → parse_elements n acc s = POk v r → parse_elements m acc s = POk v r.
Proof. intros ? E. rewrite (proj1 (proj2 (parse_fuel_mono n)) m acc s); [done|lia|by rewrite E]. Qed.

Lemma parse_members_lift n m acc s v r :
  (n ≤ m)%nat → parse_members n acc s = POk v r → parse_members m acc s = POk v r.
Proof. intros ? E. rewrite (proj2 (proj2 (parse_fuel_mono n)) m acc s); [done|lia|by rewrite E]. Qed.

Lemma join_comma_cons2 t t' ts : join_comma (t :: t' :: ts) = t ++ [44] ++ join_comma (t' :: ts).
Proof. done. Qed.

Lemma join_comma_cons t ts : ts ≠ [] → join_comma (t :: ts) = t ++ [44] ++ join_comma ts.
Proof. destruct ts; done. Qed.

(** The elements of an array, each text with the value it reads as. *)
Lemma parse_elements_join (es : list (jsstring * value)) acc r :
  Forall (λ e, parses_to e.1 e.2) es → es ≠ [] → json_delim r →
  ∃ n, parse_elements n acc (join_comma (fst <$> es) ++ [93] ++ r) = POk (VArray (acc ++ (snd <$> es))) r.
Proof.
  intros Hes. revert acc. induction Hes as [|[t v] es Hv Hes IH]; intros acc Hne Hr; [done|].
  destruct (Hv ([93] ++ r) ltac:(simpl; auto)) as [n1 Hn1]. simpl in Hn1.
  destruct es as [|[t' v'] es].
  - exists (S n1). simpl. rewrite Hn1. done.
  - destruct (IH (acc ++ [v]) ltac:(done) Hr) as [n2 Hn2].
    destruct (Hv ([44] ++ join_comma (fst <$> (t', v') :: es) ++ [93] ++ r) ltac:(simpl; auto))
      as [n3 Hn3].
    exists (S (n2 `max` n3)). rewrite !fmap_cons. cbn [fst snd] in *.
    rewrite join_comma_cons2, <-!app_assoc. cbn [parse_elements].
    rewrite (parse_value_lift n3 _ _ v _) by (lia || done).
    cbn [app] in *. rewrite next_is_head by done.
    rewrite (parse_elements_lift n2 _ _ _ _ _) by (lia || done).
    by rewrite <-app_assoc.
Qed.

(** The members of an object: key, value text, value read. *)
Lemma parse_members_join (es : list (jsstring * jsstring * value)) acc r :
  Forall (λ e, parses_to e.1.2 e.2) es → es ≠ [] → json_delim r →
  ∃ n, parse_members n acc
         (join_comma ((λ e, quote e.1.1 ++ [58] ++ e.1.2) <$> es) ++ [125] ++ r) =
       POk (VObject (acc ++ ((λ e, (e.1.1, e.2)) <$> es))) r.
Proof.
  intros Hes. revert acc. induction Hes as [|[[k t] v] es Hv Hes IH]; intros acc Hne Hr; [done|].
  simpl in Hv.
  destruct es as [|[[k' t'] v'] es].
  - destruct (Hv ([125] ++ r) ltac:(simpl; auto)) as [n1 Hn1].
    exists (S n1). rewrite !fmap_cons. cbn [fmap list_fmap join_comma fst snd]. unfold quote.
    cbn [parse_members]. rewrite <-!app_assoc. cbn [app] in *.
    rewrite next_is_head, lex_string_quote_cons, next_is_head, Hn1 by done.
    by rewrite next_is_other, next_is_head.
  - destruct (IH (acc ++ [(k, v)]) ltac:(done) Hr) as [n2 Hn2].
    set (rest := join_comma ((λ e, quote e.1.1 ++ [58] ++ e.1.2) <$> ((k', t'), v') :: es) ++ [125] ++ r).
    destruct (Hv ([44] ++ rest) ltac:(simpl; auto)) as [n3 Hn3].
    exists (S (n2 `max` n3)). rewrite (fmap_cons _ _ (((k', t'), v') :: es)), join_comma_cons by done.
    cbn [fst snd]. unfold quote at 1. cbn [parse_members]. rewrite <-!app_assoc. fold rest.
    cbn [app] in Hn3 |- *.
    rewrite next_is_head, lex_string_quote_cons, next_is_head by done.
    rewrite (parse_value_lift n3 _ _ v _) by (lia || done).
    rewrite next_is_head by done.
    rewrite (parse_members_lift n2 _ _ _ _ _) by (lia || done).
    by rewrite <-app_assoc.
Qed.

Lemma parse_null r : parse_value 1 (js "null" ++ r) = POk VNull r.
Proof. reflexivity. Qed.

Section roundtrip.
Context `{JsConversions}.

Lemma serialize_head v t :
  serialize v = Some t → Forall number_text (finite_numbers v) →
  ∃ c t', t = c :: t' ∧ is_json_ws c = false ∧ c ≠ 93.
Proof.
  destruct v as [| |[]|[q| | | ]|s|xs|fs]; intros Ht Hn; simplify_eq/=; try by eexists _, _.
  rewrite Forall_singleton in Hn.
  destruct (number_text_head q Hn) as (c & t' & -> & Hc). exists c, t'.
  by destruct (number_char_head c Hc) as (? & ? & ? & ? & ? & ? & ? & ?).
Qed.

Lemma serialize_elem_head x :
  Forall number_text (finite_numbers x) →
  ∃ c t', serialize_elem x = c :: t' ∧ is_json_ws c = false ∧ c ≠ 93.
Proof.
  intros Hn. unfold serialize_elem. destruct (serialize x) as [t|] eqn:E; simpl.
  - by apply serialize_head in E.
  - by eexists _, _.
Qed.

Lemma join_comma_head t ts c t' :
  t = c :: t' → ∃ u, join_comma (t :: ts) = c :: u.
Proof. intros ->. destruct ts; simpl; eauto. Qed.

(** The pieces an object's text is made of: each key whose value is not
    [undefined], its value's text and the value read back. *)
Definition object_entries (fs : list (jsstring * value)) : list (jsstring * jsstring * value) :=
  omap (λ k, x ← own_prop fs k; t ← serialize x; Some (k, t, normalize x)) (own_keys fs).

Lemma object_entries_text fs :
  omap (serialize_member fs) (own_keys fs) =
  (λ e, quote e.1.1 ++ [58] ++ e.1.2) <$> object_entries fs.
Proof.
  unfold object_entries. rewrite list_fmap_omap. apply list_omap_ext, Forall_Forall2_diag, Forall_forall.
  intros k _. unfold serialize_member. destruct (own_prop fs k) as [x|]; [|done]. simpl.
  by destruct (serialize x).
Qed.

Lemma object_entries_value fs :
  omap (normalize_member fs) (own_keys fs) = (λ e, (e.1.1, e.2)) <$> object_entries fs.
Proof.
  unfold object_entries. rewrite list_fmap_omap. apply list_omap_ext, Forall_Forall2_diag, Forall_forall.
  intros k _. unfold normalize_member. destruct (own_prop fs k) as [x|]; [|done]. simpl.
  destruct (serialize x) eqn:E.
  - assert (normalize x ≠ VUndefined) as Hx.
    { rewrite normalize_undefined, <-serialize_None. congruence. }
    by destruct (normalize x).
  - apply serialize_None in E as ->. done.
Qed.

Lemma object_entries_elem fs k t v :
  (k, t, v) ∈ object_entries fs → ∃ x, (k, x) ∈ fs ∧ serialize x = Some t ∧ v = normalize x.
Proof.
  unfold object_entries. rewrite list_elem_of_omap. intros (k' & _ & E).
  destruct (own_prop fs k') as [x|] eqn:Ex; [|done]. simpl in E.
  destruct (serialize x) eqn:Es; simplify_eq/=. apply own_prop_elem in Ex. eauto.
Qed.

(** An array element is written [null] when it has no text. *)
Lemma parse_serialize_elem y :
  (∀ t, serialize y = Some t → Forall number_text (finite_numbers y) → parses_to t (normalize y)) →
  Forall number_text (finite_numbers y) → parses_to (serialize_elem y) (undefined_to_null (normalize y)).
Proof.
  intros IHy Hny. unfold serialize_elem. destruct (serialize y) as [ty|] eqn:Ey.
  - assert (normalize y ≠ VUndefined) by (rewrite normalize_undefined, <-serialize_None; congruence).
    replace (undefined_to_null (normalize y)) with (normalize y) by (by destruct (normalize y)).
    by apply IHy.
  - apply serialize_None in Ey as ->. intros r' _. exists 1%nat. apply parse_null.
Qed.

(** Parsing the text of a value gives the value it denotes. *)
Lemma parse_serialize v :
  ∀ t, serialize v = Some t → Forall number_text (finite_numbers v) → parses_to t (normalize v).
Proof.
  induction v as [| |b|n|s|xs IH|fs IH] using value_ind'; intros t Ht Hn r Hr; try done.
  - simplify_eq/=. exists 1%nat. apply parse_null.
  - destruct b; simplify_eq/=; exists 1%nat; reflexivity.
  - destruct n as [q| | | ]; simplify_eq/=; exists 1%nat; [|apply parse_null..].
    apply parse_number_text; [by rewrite Forall_singleton in Hn|done].
  - simplify_eq/=. exists 1%nat. unfold quote. cbn [app]. simpl.
    by rewrite <-app_assoc, lex_string_quote.
  - rewrite serialize_array in Ht. simplify_eq. rewrite normalize_array.
    rewrite finite_numbers_array, Forall_bind in Hn.
    destruct xs as [|x xs']; [exists 1%nat; reflexivity|].
    set (es := (λ x, (serialize_elem x, undefined_to_null (normalize x))) <$> x :: xs').
    assert (Forall (λ e, parses_to e.1 e.2) es) as Hes.
    { apply Forall_fmap. refine (Forall_impl _ _ (Forall_and IH Hn)).
      intros y [IHy Hny]. by apply parse_serialize_elem. }
    destruct (parse_elements_join es [] r Hes ltac:(done) Hr) as [n Hn'].
    exists (S n).
    destruct (serialize_elem_head x (Forall_inv Hn)) as (c & t' & Hc & Hws & H93).
    destruct (join_comma_head _ (serialize_elem <$> xs') _ _ Hc) as [u Hu].
    assert (fst <$> es = serialize_elem <$> x :: xs') as Ef.
    { unfold es. by rewrite <-list_fmap_compose. }
    assert (snd <$> es = undefined_to_null ∘ normalize <$> x :: xs') as Es.
    { unfold es. by rewrite <-list_fmap_compose. }
    rewrite Ef, Es, fmap_cons, Hu in Hn'. rewrite fmap_cons, Hu.
    cbn [app] in *. simpl. rewrite next_is_other by done. simpl in Hn'.
    rewrite <-!app_assoc in *. exact Hn'.
  - rewrite serialize_object, object_entries_text in Ht. simplify_eq.
    rewrite normalize_object, object_entries_value.
    assert (Forall (λ e, parses_to e.1.2 e.2) (object_entries fs)) as Hes.
    { apply Forall_forall. intros [[k t] v] Hkv. simpl.
      apply list_elem_of_In in Hkv.
      destruct (object_entries_elem fs k t v Hkv) as (x & Hx & Ht & ->).
      apply list_elem_of_In in Hx.
      rewrite Forall_forall in IH. apply (IH (k, x) Hx); [done|].
      rewrite finite_numbers_object, Forall_bind, Forall_forall in Hn. by apply (Hn (k, x)). }
    destruct (object_entries fs) as [|e es] eqn:Ees; [exists 1%nat; reflexivity|].
    destruct (parse_members_join (e :: es) [] r Hes ltac:(done) Hr) as [n Hn'].
    exists (S n). destruct e as [[k t] v].
    rewrite fmap_cons. cbn [fst snd]. destruct (join_comma_head (quote k ++ [58] ++ t)
      ((λ e, quote e.1.1 ++ [58] ++ e.1.2) <$> es) 34 _ eq_refl) as [u Hu].
    rewrite Hu. cbn [app]. simpl.
    rewrite fmap_cons in Hn'. cbn [fst snd] in Hn'. rewrite Hu in Hn'. cbn [app] in Hn'. simpl in Hn'.
    rewrite <-!app_assoc in *. exact Hn'.
Qed.
End roundtrip.

(** ** What JSON.parse can return *)

(** A JSON value whose numbers satisfy [ok]: no [undefined] anywhere,
    every number finite. *)
Fixpoint json_value_ok (ok : Qc → bool) (v : value) : bool :=
  match v with
  | VUndefined => false
  | VNumber (Num q) => ok q
  | VNumber _ => false
  | VArray xs => forallb (json_value_ok ok) xs
  | VObject fs => forallb (λ kv, json_value_ok ok kv.2) fs
  | _ => true
  end.

(** A JSON value. *)
Definition json_valueb : value → bool := json_value_ok (λ _, true).

Section json_values.
Variable ok : Qc → bool.
Hypothesis ok_number : ∀ s q r, lex_number s = Some (q, r) → ok q = true.

Lemma lex_literal_json s v r : lex_literal s = Some (v, r) → json_value_ok ok v = true.
Proof.
  unfold lex_literal. destruct (strip_prefix (js "true") s); [by intros [= <- _]|].
  destruct (strip_prefix (js "false") s); [by intros [= <- _]|].
  destruct (strip_prefix (js "null") s); by intros [= <- _].
Qed.

Lemma parse_json_value n :
  (∀ s v r, parse_value n s = POk v r → json_value_ok ok v = true) ∧
  (∀ acc s v r, forallb (json_value_ok ok) acc = true →
     parse_elements n acc s = POk v r → json_value_ok ok v = true) ∧
  (∀ acc s v r, forallb (λ kv, json_value_ok ok kv.2) acc = true →
     parse_members n acc s = POk v r → json_value_ok ok v = true).
Proof.
  induction n as [|n (IHv & IHe & IHm)]; [done|]. split_and!.
  - intros s v r. simpl. destruct (skip_ws s) as [|c s1]; [done|].
    repeat case_decide; repeat case_match; intros; simplify_eq; try done;
      first [eapply IHm; last eassumption; done | eapply IHe; last eassumption; done
            | eapply lex_literal_json; eassumption | simpl; eapply ok_number; eassumption].
  - intros acc s v r Hacc. simpl.
    destruct (parse_value n s) as [v1 s1| |] eqn:E; try done. apply IHv in E.
    assert (forallb (json_value_ok ok) (acc ++ [v1]) = true)
      by (rewrite forallb_app; simpl; rewrite Hacc, E; done).
    destruct (next_is 44 s1); [by apply IHe|].
    destruct (next_is 93 s1); intros; simplify_eq; done.
  - intros acc s v r Hacc. simpl.
    destruct (next_is 34 s) as [s1|]; [|done].
    destruct (lex_string s1) as [[k s2]|]; [|done].
    destruct (next_is 58 s2) as [s3|]; [|done].
    destruct (parse_value n s3) as [v1 s4| |] eqn:E; try done. apply IHv in E.
    assert (forallb (λ kv, json_value_ok ok kv.2) (acc ++ [(k, v1)]) = true)
      by (rewrite forallb_app; simpl; by rewrite Hacc, E).
    destruct (next_is 44 s4); [by apply IHm|].
    destruct (next_is 125 s4); intros; simplify_eq; done.
Qed.

Lemma json_parse_ok s v : json_parse s = Some v → json_value_ok ok v = true.
Proof.
  unfold json_parse. destruct (parse_value (json_fuel s) s) as [v' r| |] eqn:E; try done.
  case_decide; [|done]. intros [= <-]. by eapply (proj1 (parse_json_value _)).
Qed.
End json_values.

Lemma lex_number_decimal s q r : lex_number s = Some (q, r) → is_decimal q = true.
Proof.
  unfold lex_number. destruct (span is_number_char s) as [run rest].
  destruct (json_number run) eqn:E; [|done]. intros [= <- _]. by eapply json_number_decimal.
Qed.

(** Every number JSON.parse returns is a finite decimal. *)
Lemma json_parse_decimal s v : json_parse s = Some v → json_value_ok is_decimal v = true.
Proof. apply json_parse_ok, lex_number_decimal. Qed.

(** The value read is an object when the text starts with [{], an array
    when it starts with [[]. *)
Lemma parse_loops_shape n :
  (∀ acc s v r, parse_elements n acc s = POk v r → ∃ xs, v = VArray xs) ∧
  (∀ acc s v r, parse_members n acc s = POk v r → ∃ fs, v = VObject fs).
Proof.
  induction n as [|n [IHe IHm]]; [done|]. split.
  - intros acc s v r. simpl. destruct (parse_value n s) as [v1 s1| |]; try done.
    destruct (next_is 44 s1); [apply IHe|]. destruct (next_is 93 s1); intros; simplify_eq; eauto.
  - intros acc s v r. simpl.
    destruct (next_is 34 s) as [s1|]; [|done]. destruct (lex_string s1) as [[k s2]|]; [|done].
    destruct (next_is 58 s2) as [s3|]; [|done]. destruct (parse_value n s3) as [v1 s4| |]; try done.
    destruct (next_is 44 s4); [apply IHm|]. destruct (next_is 125 s4); intros; simplify_eq; eauto.
Qed.

Lemma json_parse_shape s v :
  json_parse s = Some v →
  json_valueb v = true ∧
  (head (skip_ws s) = Some 123 → ∃ fs, v = VObject fs) ∧
  (head (skip_ws s) = Some 91 → ∃ xs, v = VArray xs).
Proof.
  unfold json_parse. destruct (parse_value (json_fuel s) s) as [v' r| |] eqn:E; try done.
  case_decide; [|done]. intros [= <-].
  split; [by eapply (proj1 (parse_json_value (λ _, true) (λ _ _ _ _, eq_refl) _))|].
  unfold json_fuel in E. rewrite Nat.add_1_r in E. simpl in E.
  destruct (skip_ws s) as [|c s1]; [done|]. simpl.
  split; intros [= ->]; simpl in E.
  - destruct (next_is 125 s1); [simplify_eq; eauto|]. by eapply parse_loops_shape.
  - destruct (next_is 93 s1); [simplify_eq; eauto|]. by eapply parse_loops_shape.
Qed.

(** ** The parser's fuel and the round trip *)

(** [json_parse] terminates with the fuel it is given: with
    [2 * length s + 1] units the parser never runs out, and any larger
    amount gives the same answer, so [json_parse] is the fuel-free
    JSON.parse. *)
Theorem json_parse_fuel_enough s :
  parse_value (json_fuel s) s ≠ PFuel ∧
  ∀ m, (json_fuel s ≤ m)%nat → parse_value m s = parse_value (json_fuel s) s.
Proof.
  split; [apply json_fuel_enough|]. intros m Hm. apply parse_value_mono; [done|apply json_fuel_enough].
Qed.

Section roundtrip_theorem.
Context `{JsConversions}.

(** JSON.parse reads back what JSON.stringify writes: the text of
    a value parses to the value it denotes ([normalize]: non-finite
    numbers become null, undefined members are dropped and undefined
    elements become null, keys take their property order), provided the
    number printer writes JSON numbers denoting the numbers. *)
Theorem json_roundtrip v t :
  serialize v = Some t → Forall number_text (finite_numbers v) →
  json_parse t = Some (normalize v).
Proof.
  intros Ht Hn. destruct (parse_serialize v t Ht Hn [] I) as [n Hp].
  rewrite app_nil_r in Hp. by apply (json_parse_of_parse n).
Qed.
End roundtrip_theorem.

(** with ECMAScript's Number::toString ([JsNumber]), JSON.parse
    reads back what JSON.stringify writes for every value whose numbers
    are finite decimals, which every number of a request body and every
    sum and product of them is; nothing is assumed of the printer. *)
Theorem json_roundtrip_exact v t :
  serialize v = Some t → Forall (λ q, is_decimal q = true) (finite_numbers v) →
  json_parse t = Some (normalize v).
Proof.
  intros Ht Hn.
  assert (Forall number_text (finite_numbers v)) as Hnt.
  { eapply Forall_impl; [|exact Hn]. apply exact_number_text. }
  destruct (parse_serialize v t Ht Hnt [] I) as [n Hp].
  rewrite app_nil_r in Hp. by apply (json_parse_of_parse n).
Qed.

(** A price, a tiny and a huge number, printed with a point, [0.] and
    an exponent. *)
Definition number_sample : value :=
  VObject [(js "preco", VNumber (Num (Q2Qc (25 # 10)))); (js "d", VNumber (Num (Q2Qc (-123 # 1000000))));
           (js "total", VNumber (num_of_Z (10 ^ 21)))].

Lemma json_roundtrip_exact_witness :
  json_text number_sample =
    js "{" ++ quote (js "preco") ++ js ":2.5," ++ quote (js "d") ++ js ":-0.000123," ++
    quote (js "total") ++ js ":1e+21}" ∧
  json_parse (json_text number_sample) = Some (normalize number_sample).
Proof.
  split; [reflexivity|].
  apply json_roundtrip_exact; [reflexivity|repeat constructor].
Defined.

(** JSON.parse returns JSON values only: no [undefined] at any depth
    and no NaN or infinity, whatever the text. *)
Theorem json_parse_json_value s v : json_parse s = Some v → json_valueb v = true.
Proof. intros Hs. by apply json_parse_shape in Hs as [? _]. Qed.

Lemma json_parse_json_value_witness :
  json_parse (js "[true,{},[null]]") = Some (VArray [VBool true; VObject []; VArray [VNull]]) ∧
  json_valueb (VArray [VBool true; VObject []; VArray [VNull]]) = true.
Proof.
  assert (Hp : json_parse (js "[true,{},[null]]") = Some (VArray [VBool true; VObject []; VArray [VNull]]))
    by reflexivity.
  split; [exact Hp|]. exact (json_parse_json_value _ _ Hp).
Defined.

(** [number_text] of a concrete number, by evaluation ([Qc_is_canon]
    equates the two proofs of canonicity). *)
Ltac prove_number_text :=
  split; [vm_compute; f_equal; apply Qc_is_canon; reflexivity | vm_compute; repeat constructor].

Ltac prove_number_texts := repeat (constructor; [prove_number_text|]); constructor.

(** A value with a repeated key, an array-index key, an [undefined]
    member, and [undefined] and NaN in an array. *)
Definition roundtrip_sample : value :=
  VObject [(js "b", VNumber (num_of_Z 1)); (js "2", VString (js "x" ++ [10; 55296])%N);
           (js "u", VUndefined); (js "a", VArray [VUndefined; VNumber NaN; VBool true]);
           (js "b", VNull)].

Lemma json_roundtrip_witness :
  json_parse (json_text roundtrip_sample) =
  Some (VObject [(js "2", VString (js "x" ++ [10; 55296])%N); (js "b", VNull);
                 (js "a", VArray [VNull; VNull; VBool true])]).
Proof.
  change (VObject [(js "2", VString (js "x" ++ [10; 55296])%N); (js "b", VNull);
                   (js "a", VArray [VNull; VNull; VBool true])]) with (normalize roundtrip_sample).
  apply json_roundtrip; [reflexivity|prove_number_texts].
Defined.
