(* ===== verification/Pedidos.v ===== *)
(** * The order router (src/routes/pedidos.js)

    The array [pedidos] with its seeded order, [GET /] and [POST /].  The
    POST handler checks [clienteId] and [itens], checks every line, then
    numbers the order [pedidos.length + 1], computes its total with
    [reduce] in doubles ([dbl_add], [dbl_mul] of [Binary64]) and pushes
    it.  The file also states the specification of order creation
    (spec.md, 4.3) as an inductive relation whose total is the relation
    [soma_linhas] (the spec's sum, rule by rule, as JavaScript evaluates
    it), proves the handler implements it, and proves the properties of
    the total, of the ids and of the error paths. *)

From Stdlib Require Import String.
From stdpp Require Import base list numbers.
From Stdlib Require Import ZArith QArith Qcanon Lia.
From S2P Require Import Prelude JsValue JsNumber Binary64 Store Http.

Module Pedidos.
Local Open Scope Z_scope.
Local Open Scope lanchonete_scope.

(** An order: [{ id, clienteId, itens, total }]. *)
Record pedido := {
  id : Z;
  clienteId : value;
  itens : list value;
  total : number;
}.

#[global] Instance pedido_has_id : HasId pedido := id.

(** [let pedidos = [{ id: 1, clienteId: 1, itens: [{ id: 2, quantidade: 1 }], total: 12.0 }]] *)
Definition pedidos0 : list pedido :=
  [{| id := 1; clienteId := VNumber (num_of_Z 1);
      itens := [VObject [(js "id", VNumber (num_of_Z 2)); (js "quantidade", VNumber (num_of_Z 1))]];
      total := num_of_Z 12 |}].

(** The order as [res.json] receives it. *)
Definition pedido_json (p : pedido) : value :=
  VObject [(js "id", VNumber (num_of_Z (id p))); (js "clienteId", clienteId p);
           (js "itens", VArray (itens p)); (js "total", VNumber (total p))].

(** [GET /]: [res.json(pedidos)] *)
Definition get_pedidos (ps : list pedido) : response := res_json (VArray (pedido_json <$> ps)).

(** 'clienteId e itens são obrigatórios' *)
Definition msg_obrigatorios : jsstring :=
  js "clienteId e itens s" ++ [227%N] ++ js "o obrigat" ++ [243%N] ++ js "rios".

(** 'Cada item precisa de `id` (número) e `quantidade` (>0)' *)
Definition msg_item : jsstring :=
  js "Cada item precisa de `id` (n" ++ [250%N] ++ js "mero) e `quantidade` (>0)".

(** [!it || typeof it.id !== 'number' || typeof it.quantidade !== 'number'
    || it.quantidade <= 0]; the last test runs only on a number. *)
Definition item_invalido (it : value) : bool :=
  negb (truthy it)
  || bool_decide (typeof it.["id"] ≠ TNumber)
  || match it.["quantidade"] with
     | VNumber q => num_le q num_zero
     | _ => true
     end.

(** The callback of [reduce] over the [+] and [*] of a number model: the
    handler below uses the double ones of an engine ([Binary64]);
    [OrderTotal] compares them with the exact ones of [JsValue]. *)
Section arith.
Context `{JsConversions}.
Variables (add mul : number → number → number).

(** [(it.preco || 0) * it.quantidade] *)
Definition valor_linha_with (it : value) : throws number :=
  p ← to_number (js_or it.["preco"] (VNumber num_zero));
  q ← to_number it.["quantidade"];
  Ok (mul p q).

(** The callback [(sum, it) => sum + (it.preco || 0) * it.quantidade]. *)
Definition parcela_with (sum : number) (it : value) : throws number :=
  v ← valor_linha_with it; Ok (add sum v).

(** [itensPedido.reduce(callback, sum)]: a left fold that stops at the
    first throw. *)
Fixpoint reduce_with (sum : number) (its : list value) : throws number :=
  match its with
  | [] => Ok sum
  | it :: its' => s ← parcela_with sum it; reduce_with s its'
  end.
End arith.

Abbreviation valor_linha := (valor_linha_with dbl_mul).
Abbreviation parcela := (parcela_with dbl_add dbl_mul).
Abbreviation reduce_total := (reduce_with dbl_add dbl_mul).

Section handler.
Context `{JsConversions}.

(** [POST /].  The guard [!clienteId || !Array.isArray(itensPedido) ||
    itensPedido.length === 0] is the failure of the first branch of the
    match; the [for] loop is [existsb]; the new record is built with
    [pedidos.length + 1], its total set by [reduce], and pushed.  A
    throw from ToNumber escapes the handler before the push. *)
Definition post_pedidos (ps : list pedido) (body : value) : throws (list pedido * response) :=
  let b := js_or body (VObject []) in
  let cid := b.["clienteId"] in
  match truthy cid, b.["itens"] with
  | true, VArray ((_ :: _) as its) =>
      if existsb item_invalido its then Ok (ps, res_error 400 msg_item)
      else
        t ← reduce_total num_zero its;
        let novo := {| id := next_id ps; clienteId := cid; itens := its; total := t |} in
        Ok (push ps novo, {| status := 201; res_body := Json (pedido_json novo) |})
  | _, _ => Ok (ps, res_error 400 msg_obrigatorios)
  end.
End handler.

(** ** The specification of order creation (spec.md, 4.3)

    A line is valid when it is present, its [id] is a number and its
    quantity is a number that is not [<= 0].  The total (spec.md 3 and
    4.3 step 4) is the sum over the lines, in their order and starting
    from 0, of (unit price if truthy, else 0) times the quantity, in
    JavaScript's numbers: both operands go through ToNumber, the price
    first, and a throw ends the computation; each product and each
    partial sum is a double ([dbl_mul], [dbl_add]).  The relation
    [soma_linhas] states this rule by rule, independently of the
    handler's callback. *)
Definition item_valido (it : value) : Prop :=
  truthy it = true ∧ typeof it.["id"] = TNumber ∧
  ∃ q, it.["quantidade"] = VNumber q ∧ num_le q num_zero = false.

(** The fields of the body, an absent body having none. *)
Definition corpo (body : value) : value := js_or body (VObject []).

(** The unit price of a line, 0 when it is falsy. *)
Definition preco_ou_zero (it : value) : value :=
  if truthy it.["preco"] then it.["preco"] else VNumber num_zero.

Section spec.
Context `{JsConversions}.

(** [soma_linhas s its r]: adding the lines [its] to the partial sum [s]
    ends in [r]. *)
Inductive soma_linhas : number → list value → throws number → Prop :=
| soma_fim s : soma_linhas s [] (Ok s)
| soma_linha s it its p q r :
    to_number (preco_ou_zero it) = Ok p → to_number it.["quantidade"] = Ok q →
    soma_linhas (dbl_add s (dbl_mul p q)) its r → soma_linhas s (it :: its) r
| soma_preco_lanca s it its e :
    to_number (preco_ou_zero it) = Throw e → soma_linhas s (it :: its) (Throw e)
| soma_quantidade_lanca s it its p e :
    to_number (preco_ou_zero it) = Ok p → to_number it.["quantidade"] = Throw e →
    soma_linhas s (it :: its) (Throw e).

(** The outcomes spec.md allows: a rejection of the header, a rejection
    of a line, a created order numbered [count + 1] with the reference
    total, or the abrupt end of the handler when an amount throws. *)
Inductive cria_spec (ps : list pedido) (body : value) :
    throws (list pedido * response) → Prop :=
| cria_sem_campos :
    ¬ (truthy (corpo body).["clienteId"] = true ∧
       ∃ it its, (corpo body).["itens"] = VArray (it :: its)) →
    cria_spec ps body (Ok (ps, res_error 400 msg_obrigatorios))
| cria_linha_invalida its :
    truthy (corpo body).["clienteId"] = true → (corpo body).["itens"] = VArray its →
    its ≠ [] → Exists (λ it, ¬ item_valido it) its →
    cria_spec ps body (Ok (ps, res_error 400 msg_item))
| cria_criado its t :
    truthy (corpo body).["clienteId"] = true → (corpo body).["itens"] = VArray its →
    its ≠ [] → Forall item_valido its → soma_linhas num_zero its (Ok t) →
    let novo := {| id := Z.of_nat (length ps) + 1; clienteId := (corpo body).["clienteId"];
                   itens := its; total := t |} in
    cria_spec ps body (Ok (ps ++ [novo], {| status := 201; res_body := Json (pedido_json novo) |}))
| cria_excecao its e :
    truthy (corpo body).["clienteId"] = true → (corpo body).["itens"] = VArray its →
    its ≠ [] → Forall item_valido its → soma_linhas num_zero its (Throw e) →
    cria_spec ps body (Throw e).
End spec.

(** ** Lemmas on the handler's pieces *)

Lemma item_invalido_false it : item_invalido it = false ↔ item_valido it.
Proof.
  unfold item_invalido, item_valido.
  destruct (truthy it); simpl; [|naive_solver].
  case_bool_decide; destruct (it.["quantidade"]); simpl; naive_solver.
Qed.

Lemma existsb_item_invalido_false its :
  existsb item_invalido its = false ↔ Forall item_valido its.
Proof.
  induction its as [|it its IH]; simpl; [split; auto|].
  rewrite orb_false_iff, Forall_cons_iff, IH, item_invalido_false. done.
Qed.

Lemma existsb_item_invalido_true its :
  existsb item_invalido its = true ↔ Exists (λ it, ¬ item_valido it) its.
Proof.
  induction its as [|it its IH]; simpl.
  - split; [done|]. inversion 1.
  - rewrite orb_true_iff, Exists_cons, IH, <-item_invalido_false.
    destruct (item_invalido it); naive_solver.
Qed.

Section handler_lemmas.
Context `{JsConversions}.

(** [reduce] computes the sum the specification states. *)
Lemma reduce_total_soma s its : soma_linhas s its (reduce_total s its).
Proof.
  revert s; induction its as [|it its IH]; intros s; [constructor|].
  cbn [reduce_with]. unfold parcela_with, valor_linha_with.
  change (js_or it.["preco"] (VNumber num_zero)) with (preco_ou_zero it).
  destruct (to_number (preco_ou_zero it)) as [p|e] eqn:Hp; cbn [mbind throws_bind];
    [|by constructor].
  destruct (to_number it.["quantidade"]) as [q|e] eqn:Hq; cbn [mbind throws_bind];
    [|by eapply soma_quantidade_lanca].
  by eapply soma_linha.
Qed.

(** The specification gives one total. *)
Lemma soma_linhas_det s its r1 r2 : soma_linhas s its r1 → soma_linhas s its r2 → r1 = r2.
Proof.
  intros H1. revert r2.
  induction H1 as [s|s it its p q r Hp Hq _ IH|s it its e Hp|s it its p e Hp Hq];
    intros r2 H2; inversion H2 as [|? ? ? p' q' ? Hp' Hq' H'|? ? ? e' Hp'|? ? ? p' e' Hp' Hq'];
    subst; try congruence.
  assert (p' = p) as -> by congruence. assert (q' = q) as -> by congruence. by apply IH.
Qed.

Lemma reduce_total_iff s its r : reduce_total s its = r ↔ soma_linhas s its r.
Proof.
  split; [intros <-; apply reduce_total_soma|].
  intros Hr. eapply soma_linhas_det; [apply reduce_total_soma|done].
Qed.
End handler_lemmas.

Lemma Forall_not_Exists_neg {A} (P : A → Prop) (l : list A) :
  Forall P l → ¬ Exists (λ x, ¬ P x) l.
Proof. rewrite Forall_forall, Exists_exists. naive_solver. Qed.

(** A list given as [VArray its] with [its ≠ []] passes the header test. *)
Lemma header_nonempty (v : value) its :
  v = VArray its → its ≠ [] → ∃ it its', v = VArray (it :: its').
Proof. intros -> ?. destruct its as [|it its']; [done|]. eauto. Qed.

Section refinement.
Context `{JsConversions}.

(** The handler's result is one the specification allows. *)
Lemma post_pedidos_sound ps body : cria_spec ps body (post_pedidos ps body).
Proof.
  unfold post_pedidos. fold (corpo body).
  destruct (truthy (corpo body).["clienteId"]) eqn:Hc;
    [|apply cria_sem_campos; unfold corpo in *; intros [? _]; congruence].
  destruct ((corpo body).["itens"]) as [| | | | |[|it its]|] eqn:Hi;
    try (apply cria_sem_campos; unfold corpo in *; intros [_ (? & ? & ?)]; congruence).
  destruct (existsb item_invalido (it :: its)) eqn:He.
  - apply (cria_linha_invalida _ _ (it :: its)); [done|done|done|].
    by apply existsb_item_invalido_true.
  - apply existsb_item_invalido_false in He.
    pose proof (reduce_total_soma num_zero (it :: its)) as Hs.
    destruct (reduce_total num_zero (it :: its)) as [t|e]; cbn [mbind throws_bind].
    + by apply (cria_criado _ _ (it :: its) t).
    + by apply (cria_excecao _ _ (it :: its) e).
Qed.

(** The specification determines the outcome. *)
Lemma cria_spec_det ps body r1 r2 : cria_spec ps body r1 → cria_spec ps body r2 → r1 = r2.
Proof.
  intros H1 H2.
  destruct H1 as [Hn|its1 Hc1 Hi1 Hne1 Hx1|its1 t1 Hc1 Hi1 Hne1 Hf1 Ht1|its1 e1 Hc1 Hi1 Hne1 Hf1 Ht1];
  destruct H2 as [Hn'|its2 Hc2 Hi2 Hne2 Hx2|its2 t2 Hc2 Hi2 Hne2 Hf2 Ht2|its2 e2 Hc2 Hi2 Hne2 Hf2 Ht2];
    try done;
    try (exfalso; match goal with H : ¬ (_ ∧ _) |- _ => apply H end;
         split; [done|]; by eapply header_nonempty);
    rewrite Hi1 in Hi2; injection Hi2 as <-;
    try (exfalso; eapply (Forall_not_Exists_neg item_valido); eassumption);
    try (pose proof (soma_linhas_det _ _ _ _ Ht1 Ht2) as Hd; simplify_eq);
    repeat match goal with x := _ |- _ => subst x end; congruence.
Qed.
End refinement.

(** C1: [POST /pedidos] implements the specification of order creation:
    its outcome is exactly the one spec.md 4.3 prescribes, on every
    branch: the header rejection, the line rejection, the created order
    numbered [count + 1] with the total [soma_linhas] gives its lines (a
    left-to-right sum of doubles) and appended, and the abrupt end when
    a line's ToNumber throws. *)
Theorem post_pedidos_correct `{JsConversions} ps body r :
  post_pedidos ps body = r ↔ cria_spec ps body r.
Proof.
  split; [intros <-; apply post_pedidos_sound|].
  intros Hr. eapply cria_spec_det; [apply post_pedidos_sound|done].
Qed.

(** ** The total on numeric lines (spec.md 3)

    The spec's formula on lines whose price, when present and truthy, is
    a finite number: from 0, add in order each line's unit price (0 when
    missing or falsy) times its quantity, as JavaScript evaluates it,
    each product and each partial sum a double. *)
Definition preco_unitario (it : value) : number :=
  match it.["preco"] with VNumber (Num p) => Num p | _ => num_zero end.

Definition quantidade (it : value) : number :=
  match it.["quantidade"] with VNumber n => n | _ => num_zero end.

Definition total_esperado (its : list value) : number :=
  foldl (λ s it, dbl_add s (dbl_mul (preco_unitario it) (quantidade it))) num_zero its.

(** A line priced by a finite number or by a falsy value, with a finite
    quantity. *)
Definition linha_numerica (it : value) : Prop :=
  ((∃ p, it.["preco"] = VNumber (Num p)) ∨ truthy it.["preco"] = false) ∧
  ∃ q, it.["quantidade"] = VNumber (Num q).

Lemma truthy_false_num (v : value) : truthy v = false → ∀ p, v = VNumber (Num p) → p = 0%Qc.
Proof. intros Hv p ->. simpl in Hv. by apply bool_decide_eq_false, dec_stable in Hv. Qed.

Section numeric.
Context `{JsConversions}.

Lemma linha_numerica_operandos it :
  linha_numerica it →
  to_number (preco_ou_zero it) = Ok (preco_unitario it) ∧ to_number it.["quantidade"] = Ok (quantidade it).
Proof.
  unfold preco_ou_zero, preco_unitario, quantidade. intros [Hp (q & Hq)]. rewrite Hq. split; [|done].
  destruct (truthy it.["preco"]) eqn:Ht.
  - destruct Hp as [(p & Hp)|]; [|congruence]. by rewrite Hp.
  - destruct (it.["preco"]) as [| | |[p| | |]| | |] eqn:E; simpl; try done.
    by rewrite (truthy_false_num _ Ht p eq_refl).
Qed.

Lemma soma_numerica s its :
  Forall linha_numerica its →
  soma_linhas s its (Ok (foldl (λ s it, dbl_add s (dbl_mul (preco_unitario it) (quantidade it))) s its)).
Proof.
  intros Hl. revert s. induction Hl as [|it its Hit _ IH]; intros s; [constructor|].
  destruct (linha_numerica_operandos it Hit). simpl. by eapply soma_linha.
Qed.

(** The handler on a body the specification answers. *)
Lemma post_pedidos_eq ps body r : cria_spec ps body r → post_pedidos ps body = r.
Proof. intros Hr. eapply cria_spec_det; [apply post_pedidos_sound|done]. Qed.
End numeric.

(** C2: on a body whose [clienteId] is truthy and whose [itens] is a
    non-empty array of valid lines priced by numbers (or by nothing), the
    handler creates the order numbered [pedidos.length + 1], keeps the
    lines as sent, and sets its total to the formula of spec.md 3 as
    JavaScript computes it: from 0, add each line's unit price (0 when
    missing or falsy) times its quantity, first line first, each product
    and partial sum rounded to a double. *)
Theorem post_pedidos_total `{JsConversions} ps body its :
  truthy (corpo body).["clienteId"] = true → (corpo body).["itens"] = VArray its →
  its ≠ [] → Forall item_valido its → Forall linha_numerica its →
  ∃ o, post_pedidos ps body = Ok (ps ++ [o], {| status := 201; res_body := Json (pedido_json o) |}) ∧
       id o = next_id ps ∧ itens o = its ∧ total o = total_esperado its.
Proof.
  intros Hc Hi Hne Hv Hn.
  eexists; split; [apply post_pedidos_eq, (cria_criado _ _ its); eauto using soma_numerica|].
  done.
Qed.

(** ** Helpers for the outcome theorems *)

(** Once the partial sum is NaN it stays NaN. *)
Lemma soma_de_NaN `{JsConversions} its :
  Forall (λ it, ∃ p q, to_number (preco_ou_zero it) = Ok p ∧ to_number it.["quantidade"] = Ok q) its →
  soma_linhas NaN its (Ok NaN).
Proof.
  induction 1 as [|it its (p & q & Hp & Hq) _ IH]; [constructor|].
  eapply soma_linha; [done|done|]. by rewrite dbl_add_NaN_l.
Qed.

(** Lines none of which throws, one of which has the price NaN, sum to NaN. *)
Lemma soma_NaN `{JsConversions} s its :
  Forall (λ it, ∃ p q, to_number (preco_ou_zero it) = Ok p ∧ to_number it.["quantidade"] = Ok q) its →
  Exists (λ it, to_number (preco_ou_zero it) = Ok NaN) its → soma_linhas s its (Ok NaN).
Proof.
  intros Hall Hex. revert s Hall.
  induction Hex as [it its Hit|it its _ IH]; intros s Hall;
    inversion Hall as [|?? (p & q & Hp & Hq) Hrest]; subst.
  - eapply soma_linha; [exact Hit|exact Hq|]. rewrite dbl_mul_NaN_l, dbl_add_NaN_r. by apply soma_de_NaN.
  - eapply soma_linha; [done|done|]. by apply IH.
Qed.

(** A line whose price throws makes [reduce] throw. *)
Lemma reduce_total_Throw `{JsConversions} s its e :
  Exists (λ it, to_number (preco_ou_zero it) = Throw e) its → ∃ e', reduce_total s its = Throw e'.
Proof.
  intros Hex. revert s. induction Hex as [it its Hit|it its _ IH]; intros s;
    cbn [reduce_with]; unfold parcela_with, valor_linha_with;
    change (js_or it.["preco"] (VNumber num_zero)) with (preco_ou_zero it).
  - rewrite Hit. eauto.
  - destruct (to_number (preco_ou_zero it)); cbn [mbind throws_bind]; [|eauto].
    destruct (to_number it.["quantidade"]); cbn [mbind throws_bind]; eauto.
Qed.

(** Every result of the handler is a rejection that keeps the array or a
    creation that appends one order numbered [length + 1]. *)
Lemma post_pedidos_Ok_cases `{JsConversions} ps body ps' r :
  post_pedidos ps body = Ok (ps', r) →
  (ps' = ps ∧ status r = 400) ∨
  (∃ o, ps' = ps ++ [o] ∧ id o = next_id ps ∧ r = {| status := 201; res_body := Json (pedido_json o) |}).
Proof.
  intros Hr. pose proof (post_pedidos_sound ps body) as Hs. rewrite Hr in Hs.
  inversion Hs; subst; [by left..|right; by eexists].
Qed.

(** An object price with an own [toString] makes ToNumber of the price throw. *)
Lemma preco_toString_lanca `{JsConversions} it fs :
  it.["preco"] = VObject fs → has_own fs (js "toString") = true →
  to_number (preco_ou_zero it) = Throw TypeError.
Proof. intros Hp Ho. unfold preco_ou_zero. rewrite Hp. simpl. by rewrite Ho. Qed.

(** Any other object price is NaN, as StringToNumber("[object Object]")
    is NaN. *)
Lemma preco_objeto_NaN `{JsConversions} it fs :
  string_to_number (js "[object Object]") = NaN →
  it.["preco"] = VObject fs → has_own fs (js "toString") = false →
  to_number (preco_ou_zero it) = Ok NaN.
Proof. intros Hs Hp Ho. unfold preco_ou_zero. rewrite Hp. simpl. rewrite Ho. simpl. by rewrite Hs. Qed.

(** The quantity of a valid line is a number. *)
Lemma quantidade_valida `{JsConversions} it :
  item_valido it → ∃ q, to_number it.["quantidade"] = Ok q.
Proof. intros (_ & _ & q & Hq & _). rewrite Hq. eauto. Qed.

(** A creation is the [cria_criado] case: the lines, their total and the
    id of the new order are the ones the specification gives. *)
Lemma cria_spec_criado_inv `{JsConversions} ps body o r :
  cria_spec ps body (Ok (ps ++ [o], r)) →
  ∃ its, truthy (corpo body).["clienteId"] = true ∧ (corpo body).["itens"] = VArray its ∧
    its ≠ [] ∧ Forall item_valido its ∧ soma_linhas num_zero its (Ok (total o)) ∧
    o = {| id := Z.of_nat (length ps) + 1; clienteId := (corpo body).["clienteId"];
           itens := its; total := total o |}.
Proof.
  intros Hc. remember (Ok (ps ++ [o], r)) as res eqn:E.
  destruct Hc as [|its|its t Hc Hi Hne Hf Ht|]; try discriminate; injection E as E _;
    try (apply (f_equal length) in E; rewrite length_app in E; simpl in E; lia).
  apply app_inv_head in E. injection E as <-. exists its. naive_solver.
Qed.

(** C4: on an array whose ids are 1..n, a POST keeps the ids 1..n+1 (or
    1..n when it rejects) and every id it adds exceeds every id already
    there (spec.md 8, first property, for orders). *)
Theorem post_pedidos_ids `{JsConversions} ps body ps' r :
  ids_sequential ps → post_pedidos ps body = Ok (ps', r) →
  ids_sequential ps' ∧ ∀ i j, i ∈ ids ps → j ∈ ids ps' → j ∉ ids ps → (i < j)%Z.
Proof.
  intros Hs Hr. destruct (post_pedidos_Ok_cases _ _ _ _ Hr) as [[-> _]|(o & -> & Ho & _)].
  - split; [done|]. naive_solver.
  - split; [by apply (push_sequential ps o)|].
    intros i j Hi Hj Hnj. change (j ∈ ids (push ps o)) in Hj.
    rewrite ids_push, elem_of_app, list_elem_of_singleton in Hj.
    destruct Hj as [Hj| ->]; [done|]. change (i < id o)%Z. rewrite Ho. by apply next_id_gt.
Qed.

(** C5: a POST that does not answer 201 answers 400 and leaves the array
    unchanged (a throw leaves it unchanged too: its result has no state). *)
Theorem post_pedidos_rejeicao `{JsConversions} ps body ps' r :
  post_pedidos ps body = Ok (ps', r) → status r ≠ 201 → ps' = ps ∧ status r = 400.
Proof.
  intros Hr Hs. destruct (post_pedidos_Ok_cases _ _ _ _ Hr) as [?|(o & _ & _ & ->)]; [done|].
  by destruct Hs.
Qed.

(** C23: without a non-empty [itens] array (an empty list, a missing field
    or any other value) the POST answers 400 'clienteId e itens são
    obrigatórios' and creates nothing. *)
Theorem post_pedidos_sem_itens `{JsConversions} ps body :
  (∀ it its, (corpo body).["itens"] ≠ VArray (it :: its)) →
  post_pedidos ps body = Ok (ps, res_error 400 msg_obrigatorios).
Proof. intros Hi. apply post_pedidos_eq, cria_sem_campos. naive_solver. Qed.

(** C24: with a truthy [clienteId] and a line whose quantity is a number
    [<= 0], the POST answers 400 with the line message and creates nothing,
    whatever the other lines are. *)
Theorem post_pedidos_quantidade_invalida `{JsConversions} ps body its :
  truthy (corpo body).["clienteId"] = true → (corpo body).["itens"] = VArray its →
  Exists (λ it, ∃ q, it.["quantidade"] = VNumber q ∧ num_le q num_zero = true) its →
  post_pedidos ps body = Ok (ps, res_error 400 msg_item).
Proof.
  intros Hc Hi Hex. apply post_pedidos_eq, (cria_linha_invalida _ _ its); [done|done| |].
  - intros ->. by apply Exists_nil in Hex.
  - eapply Exists_impl; [|exact Hex]. intros it (q & Hq & Hle) (_ & _ & q' & Hq' & Hle').
    congruence.
Qed.

(** C26: a [clienteId] equal to 0 is rejected like a missing one, the quirk
    spec.md 4.3 step 1 records. *)
Theorem post_pedidos_clienteId_zero `{JsConversions} ps body :
  (corpo body).["clienteId"] = VNumber num_zero →
  post_pedidos ps body = Ok (ps, res_error 400 msg_obrigatorios).
Proof.
  intros Hc. apply post_pedidos_eq, cria_sem_campos. rewrite Hc. intros [Ht _]. by vm_compute in Ht.
Qed.

(** C25: any truthy [clienteId] is accepted and stored as sent: a string,
    an object or [true] passes as well as a customer number. *)
Theorem post_pedidos_clienteId_qualquer `{JsConversions} ps body its :
  truthy (corpo body).["clienteId"] = true → (corpo body).["itens"] = VArray its →
  its ≠ [] → Forall item_valido its → Forall linha_numerica its →
  ∃ o r, post_pedidos ps body = Ok (ps ++ [o], r) ∧ clienteId o = (corpo body).["clienteId"].
Proof.
  intros Hc Hi Hne Hv Hn. do 2 eexists. split.
  - apply post_pedidos_eq, (cria_criado _ _ its (total_esperado its)); eauto using soma_numerica.
  - reflexivity.
Qed.

(** C27: a valid order one of whose prices is an object with its own
    [toString] field makes [reduce] throw a TypeError: the handler ends
    abruptly (Express answers 500) and nothing is pushed. *)
Theorem post_pedidos_toString_lanca `{JsConversions} ps body its :
  truthy (corpo body).["clienteId"] = true → (corpo body).["itens"] = VArray its →
  Forall item_valido its →
  Exists (λ it, ∃ fs, it.["preco"] = VObject fs ∧ has_own fs (js "toString") = true) its →
  post_pedidos ps body = Throw TypeError.
Proof.
  intros Hc Hi Hv Hex.
  assert (its ≠ []) by (intros ->; by apply Exists_nil in Hex).
  destruct (reduce_total_Throw num_zero its TypeError) as [[] He].
  { eapply Exists_impl; [|exact Hex]. intros it (fs & ? & ?). by eapply preco_toString_lanca. }
  apply post_pedidos_eq, (cria_excecao _ _ its TypeError); try done.
  rewrite <-He. apply reduce_total_soma.
Qed.

(** C28: a valid order with an object price (without an own [toString])
    and otherwise numeric lines is created with total NaN: the price is
    not validated and ToNumber of an object is NaN. *)
Theorem post_pedidos_total_NaN `{JsConversions} ps body its :
  string_to_number (js "[object Object]") = NaN →
  truthy (corpo body).["clienteId"] = true → (corpo body).["itens"] = VArray its →
  Forall item_valido its →
  Forall (λ it, linha_numerica it ∨
                ∃ fs, it.["preco"] = VObject fs ∧ has_own fs (js "toString") = false) its →
  Exists (λ it, ∃ fs, it.["preco"] = VObject fs ∧ has_own fs (js "toString") = false) its →
  ∃ o, post_pedidos ps body = Ok (ps ++ [o], {| status := 201; res_body := Json (pedido_json o) |}) ∧
       total o = NaN.
Proof.
  intros Hs Hc Hi Hv Hl Hex.
  assert (its ≠ []) by (intros ->; by apply Exists_nil in Hex).
  assert (Ht : soma_linhas num_zero its (Ok NaN)).
  { rewrite Forall_forall in Hv, Hl. apply soma_NaN.
    - apply Forall_forall. intros it Hin. destruct (quantidade_valida it (Hv it Hin)) as [q Hq].
      destruct (Hl it Hin) as [Hn|(fs & Hp & Ho)].
      + destruct (linha_numerica_operandos it Hn). eauto.
      + exists NaN, q. split; [by eapply preco_objeto_NaN|done].
    - eapply Exists_impl; [|exact Hex]. intros it (fs & Hp & Ho). by eapply preco_objeto_NaN. }
  eexists; split; [apply post_pedidos_eq, (cria_criado _ _ its NaN); done|done].
Qed.

(** The seeded order disagrees with the total formula: its line has
    no price, so the formula gives 0, but its stored total is 12 (the menu
    price of item 2, which the handler never looks up). *)
Theorem pedidos0_total_divergente `{JsConversions} :
  ∃ o, o ∈ pedidos0 ∧ soma_linhas num_zero (itens o) (Ok (total_esperado (itens o))) ∧
       total o ≠ total_esperado (itens o).
Proof.
  eexists. split; [by left|]. split.
  - apply soma_numerica. constructor; [|constructor].
    split; [right; reflexivity|eexists; reflexivity].
  - intros E. apply (f_equal (λ n, num_le n num_zero)) in E. by vm_compute in E.
Qed.

(** creation is not idempotent: after a POST creates an order,
    the same body POSTed again creates a second order, equal to the first
    but for its id, which is the next one. *)
Theorem post_pedidos_nao_idempotente `{JsConversions} ps body o1 r1 :
  post_pedidos ps body = Ok (ps ++ [o1], r1) →
  ∃ o2 r2, post_pedidos (ps ++ [o1]) body = Ok (ps ++ [o1] ++ [o2], r2) ∧
    id o2 = id o1 + 1 ∧ clienteId o2 = clienteId o1 ∧ itens o2 = itens o1 ∧ total o2 = total o1.
Proof.
  intros Hr. pose proof (post_pedidos_sound ps body) as Hs. rewrite Hr in Hs.
  destruct (cria_spec_criado_inv _ _ _ _ Hs) as (its & Hc & Hi & Hne & Hv & Ht & ->).
  do 2 eexists. split.
  - rewrite app_assoc. apply post_pedidos_eq, (cria_criado _ _ its); done.
  - simpl. rewrite length_app. simpl. split; [lia|done].
Qed.


(** ** What a POST does to the array, for the application's invariant *)
Lemma post_pedidos_Ok_inv `{JsConversions} ps body ps' r :
  post_pedidos ps body = Ok (ps', r) →
  ps' = ps ∨ ∃ o, ps' = push ps o ∧ id o = next_id ps ∧ itens o ≠ [] ∧
                  Forall item_valido (itens o) ∧ soma_linhas num_zero (itens o) (Ok (total o)).
Proof.
  intros Hr. pose proof (post_pedidos_sound ps body) as Hs. rewrite Hr in Hs.
  inversion Hs; subst; [by left..|]. right. eexists. by repeat split.
Qed.

(** ** Scenarios (spec.md 8) and witnesses

    Concrete bodies, evaluated with the conversions of [JsNumber]. *)
Definition linha_exemplo (i q : Z) (p : value) : value :=
  VObject [(js "id", VNumber (num_of_Z i)); (js "quantidade", VNumber (num_of_Z q)); (js "preco", p)].

Definition corpo_exemplo (cid : value) (its : list value) : value :=
  VObject [(js "clienteId", cid); (js "itens", VArray its)].

(** [preco: 8.5] *)
Definition preco_8_5 : value := VNumber (Num (Q2Qc (17 # 2))).

(** [{ clienteId: 1, itens: [{ id: 1, quantidade: 2, preco: 8.5 }] }] *)
Definition corpo_17 : value := corpo_exemplo (VNumber (num_of_Z 1)) [linha_exemplo 1 2 preco_8_5].

Lemma linha_exemplo_numerica i q p : linha_numerica (linha_exemplo i q (VNumber (Num p))).
Proof. split; [left|]; eexists; reflexivity. Qed.

Lemma post_pedidos_total_witness :
  ∃ o, post_pedidos pedidos0 corpo_17 =
         Ok (pedidos0 ++ [o], {| status := 201; res_body := Json (pedido_json o) |}) ∧
       id o = 2 ∧ total o = num_of_Z 17.
Proof.
  destruct (post_pedidos_total pedidos0 corpo_17 [linha_exemplo 1 2 preco_8_5])
    as (o & Hp & Hid & _ & Ht);
    [by vm_compute|by vm_compute|done|apply existsb_item_invalido_false; by vm_compute
    |constructor; [apply linha_exemplo_numerica|constructor]|].
  exists o. split; [exact Hp|]. split; [by rewrite Hid|].
  rewrite Ht. vm_compute. f_equal. by apply Qc_is_canon.
Defined.

Lemma post_pedidos_ids_witness :
  ids_sequential pedidos0 ∧
  ∃ ps' r, post_pedidos pedidos0 corpo_17 = Ok (ps', r) ∧ ids_sequential ps'.
Proof.
  split; [reflexivity|].
  destruct (post_pedidos pedidos0 corpo_17) as [[ps' r]|e] eqn:E; [|by vm_compute in E].
  exists ps', r. split; [done|]. apply (post_pedidos_ids pedidos0 corpo_17 ps' r); [reflexivity|exact E].
Defined.

(** [{ clienteId: 1, itens: [] }] *)
Definition corpo_vazio : value := corpo_exemplo (VNumber (num_of_Z 1)) [].

Lemma post_pedidos_rejeicao_witness :
  post_pedidos pedidos0 corpo_vazio = Ok (pedidos0, res_error 400 msg_obrigatorios) ∧
  pedidos0 = pedidos0 ∧ status (res_error 400 msg_obrigatorios) = 400.
Proof.
  assert (E : post_pedidos pedidos0 corpo_vazio = Ok (pedidos0, res_error 400 msg_obrigatorios))
    by (by vm_compute).
  split; [exact E|]. apply (post_pedidos_rejeicao _ _ _ _ E). by vm_compute.
Defined.

Lemma post_pedidos_sem_itens_witness :
  post_pedidos pedidos0 corpo_vazio = Ok (pedidos0, res_error 400 msg_obrigatorios).
Proof. apply post_pedidos_sem_itens. intros it its E. by vm_compute in E. Defined.

Lemma post_pedidos_quantidade_invalida_witness :
  post_pedidos pedidos0 (corpo_exemplo (VNumber (num_of_Z 1))
                           [linha_exemplo 1 2 preco_8_5; linha_exemplo 2 0 VNull]) =
  Ok (pedidos0, res_error 400 msg_item).
Proof.
  apply (post_pedidos_quantidade_invalida _ _
           [linha_exemplo 1 2 preco_8_5; linha_exemplo 2 0 VNull]); [by vm_compute|by vm_compute|].
  apply Exists_cons_tl, Exists_cons_hd. eexists. split; [reflexivity|by vm_compute].
Defined.

Lemma post_pedidos_clienteId_zero_witness :
  post_pedidos pedidos0 (corpo_exemplo (VNumber num_zero) [linha_exemplo 1 2 preco_8_5]) =
  Ok (pedidos0, res_error 400 msg_obrigatorios).
Proof. apply post_pedidos_clienteId_zero. reflexivity. Defined.

Definition corpo_abc : value := corpo_exemplo (VString (js "abc")) [linha_exemplo 1 2 preco_8_5].

Lemma post_pedidos_clienteId_qualquer_witness :
  (corpo corpo_abc).["clienteId"] = VString (js "abc") ∧
  ∃ o r, post_pedidos pedidos0 corpo_abc = Ok (pedidos0 ++ [o], r) ∧
         clienteId o = (corpo corpo_abc).["clienteId"].
Proof.
  split; [reflexivity|].
  apply (post_pedidos_clienteId_qualquer _ _ [linha_exemplo 1 2 preco_8_5]);
    [by vm_compute|by vm_compute|done|apply existsb_item_invalido_false; by vm_compute|].
  constructor; [apply linha_exemplo_numerica|constructor].
Defined.

(** [preco: { toString: 1 }] and [preco: {}] *)
Definition preco_toString : value := VObject [(js "toString", VNumber (num_of_Z 1))].
Definition preco_objeto : value := VObject [].

Lemma post_pedidos_toString_lanca_witness :
  post_pedidos pedidos0 (corpo_exemplo (VNumber (num_of_Z 1)) [linha_exemplo 1 2 preco_toString]) =
  Throw TypeError.
Proof.
  apply (post_pedidos_toString_lanca _ _ [linha_exemplo 1 2 preco_toString]);
    [by vm_compute|by vm_compute|apply existsb_item_invalido_false; by vm_compute|].
  apply Exists_cons_hd. eexists. split; reflexivity.
Defined.

Lemma post_pedidos_total_NaN_witness :
  ∃ o, post_pedidos pedidos0 (corpo_exemplo (VNumber (num_of_Z 1))
                                [linha_exemplo 1 2 preco_8_5; linha_exemplo 2 1 preco_objeto]) =
         Ok (pedidos0 ++ [o], {| status := 201; res_body := Json (pedido_json o) |}) ∧ total o = NaN.
Proof.
  apply (post_pedidos_total_NaN _ _ [linha_exemplo 1 2 preco_8_5; linha_exemplo 2 1 preco_objeto]);
    [by vm_compute|by vm_compute|by vm_compute|apply existsb_item_invalido_false; by vm_compute| |].
  - constructor; [left; apply linha_exemplo_numerica|].
    constructor; [right; eexists; split; reflexivity|constructor].
  - apply Exists_cons_tl, Exists_cons_hd. eexists. split; reflexivity.
Defined.

Lemma post_pedidos_nao_idempotente_witness :
  ∃ o1 r1, post_pedidos pedidos0 corpo_17 = Ok (pedidos0 ++ [o1], r1) ∧
  ∃ o2 r2, post_pedidos (pedidos0 ++ [o1]) corpo_17 = Ok (pedidos0 ++ [o1] ++ [o2], r2) ∧
    id o2 = id o1 + 1 ∧ clienteId o2 = clienteId o1 ∧ itens o2 = itens o1 ∧ total o2 = total o1.
Proof.
  destruct (post_pedidos pedidos0 corpo_17) as [[ps1 r1]|e] eqn:E; [|by vm_compute in E].
  destruct (post_pedidos_Ok_cases _ _ _ _ E) as [[-> Hs]|(o1 & -> & _ & _)].
  { vm_compute in E. injection E as _ <-. by vm_compute in Hs. }
  exists o1, r1. split; [reflexivity|]. exact (post_pedidos_nao_idempotente _ _ _ _ E).
Defined.

End Pedidos.
