(* ===== verification/OrderTotal.v ===== *)
(** * The order total in doubles and in exact arithmetic

    pedidos.js line 48 sums [(it.preco || 0) * it.quantidade] with
    [reduce], in doubles: every product and every partial sum is rounded
    ([Binary64]).  The handler [Pedidos.post_pedidos] computes its total
    that way ([Pedidos.reduce_total] is [Pedidos.reduce_with] with
    [dbl_add] and [dbl_mul]); [reduce_binary64] is that computation with
    the engine's StringToNumber ([binary64_conversions]).  This file
    compares it with the same callback over exact operations.

    - [reduce_binary64_exact]: when every price and quantity is an
      integer and the amounts add up to at most [2^53] in magnitude, the
      double total is the exact sum, and so is the exact computation.
    - Outside that range the two differ ([reduce_binary64_inexact]):
      prices 0.1 and 0.2 give the total 0.30000000000000004, and the
      amounts 1, 2^53, -2^53 give 0 where the exact sum is 1; adding the
      same amounts from the right gives 1, so the order of [reduce]
      matters for doubles as it does not for exact sums. *)

From Stdlib Require Import String.
From stdpp Require Import base list numbers.
From Stdlib Require Import ZArith QArith Qcanon Lia.
From S2P Require Import Prelude JsValue JsNumber Binary64 Pedidos.

Module OrderTotal.
Local Open Scope Z_scope.
Local Open Scope lanchonete_scope.

(** [itensPedido.reduce((sum, it) => sum + (it.preco || 0) * it.quantidade, sum)]
    with doubles. *)
Definition reduce_binary64 (sum : number) (its : list value) : throws number :=
  @Pedidos.reduce_with binary64_conversions dbl_add dbl_mul sum its.

(** A line whose [it.preco || 0] is the integer [p] and whose
    [it.quantidade] is the integer [q]. *)
Definition integer_line (it : value) (pq : Z * Z) : Prop :=
  js_or it.["preco"] (VNumber num_zero) = VNumber (num_of_Z pq.1) ∧
  it.["quantidade"] = VNumber (num_of_Z pq.2).

(** The exact sum of the amounts, and of their magnitudes. *)
Definition amount_sum (pqs : list (Z * Z)) : Z := foldr (λ pq acc, pq.1 * pq.2 + acc) 0 pqs.
Definition amount_bound (pqs : list (Z * Z)) : Z := foldr (λ pq acc, Z.abs (pq.1 * pq.2) + acc) 0 pqs.

Lemma num_zero_Z : num_zero = num_of_Z 0.
Proof. unfold num_zero, num_of_Z. f_equal. by apply Qc_is_canon. Qed.

Lemma num_mul_Z a b : num_mul (num_of_Z a) (num_of_Z b) = num_of_Z (a * b).
Proof. unfold num_of_Z. simpl. by rewrite Z2Qc_inj_mul. Qed.

Lemma num_add_Z a b : num_add (num_of_Z a) (num_of_Z b) = num_of_Z (a + b).
Proof. unfold num_of_Z. simpl. by rewrite Z2Qc_inj_add. Qed.

(** A sum or a product of integers within [2^53] is computed exactly. *)
Lemma dbl_mul_Z a b : Z.abs (a * b) ≤ 2 ^ 53 → dbl_mul (num_of_Z a) (num_of_Z b) = num_of_Z (a * b).
Proof. intros. unfold dbl_mul. rewrite num_mul_Z. by apply round_binary64_Z. Qed.

Lemma dbl_add_Z a b : Z.abs (a + b) ≤ 2 ^ 53 → dbl_add (num_of_Z a) (num_of_Z b) = num_of_Z (a + b).
Proof. intros. unfold dbl_add. rewrite num_add_Z. by apply round_binary64_Z. Qed.

Lemma amount_bound_nonneg pqs : 0 ≤ amount_bound pqs.
Proof. induction pqs; simpl; lia. Qed.

(** Both models, from any integer accumulator within the bound. *)
Lemma reduce_integer_lines its pqs s :
  Forall2 integer_line its pqs → Z.abs s + amount_bound pqs ≤ 2 ^ 53 →
  reduce_binary64 (num_of_Z s) its = Ok (num_of_Z (s + amount_sum pqs)) ∧
  @Pedidos.reduce_with exact_conversions num_add num_mul (num_of_Z s) its = Ok (num_of_Z (s + amount_sum pqs)).
Proof.
  unfold reduce_binary64. intros Hl. revert s.
  induction Hl as [|it [p q] its pqs [Hp Hq] _ IH]; intros s Hb.
  - cbn. by rewrite Z.add_0_r.
  - assert (amount_sum ((p, q) :: pqs) = p * q + amount_sum pqs) as -> by done.
    assert (amount_bound ((p, q) :: pqs) = Z.abs (p * q) + amount_bound pqs) as Hb' by done.
    rewrite Hb' in Hb. pose proof (amount_bound_nonneg pqs).
    cbn [Pedidos.reduce_with]. unfold Pedidos.parcela_with, Pedidos.valor_linha_with.
    rewrite Hp, Hq. cbn [to_number mbind throws_bind fst snd].
    rewrite dbl_mul_Z, dbl_add_Z, num_mul_Z, num_add_Z by lia.
    replace (s + (p * q + amount_sum pqs)) with (s + p * q + amount_sum pqs) by lia.
    apply IH. lia.
Qed.
(** C6: with integer prices and quantities whose amounts add up to at
    most [2^53] in magnitude, the total the program computes in doubles
    is the exact sum, as the exact model computes it: rounding never
    changes an intermediate result. *)
Theorem reduce_binary64_exact its pqs :
  Forall2 integer_line its pqs → amount_bound pqs ≤ 2 ^ 53 →
  reduce_binary64 num_zero its = Ok (num_of_Z (amount_sum pqs)) ∧
  @Pedidos.reduce_with exact_conversions num_add num_mul num_zero its = Ok (num_of_Z (amount_sum pqs)).
Proof.
  intros Hl Hb. rewrite num_zero_Z.
  pose proof (reduce_integer_lines its pqs 0 Hl ltac:(lia)) as H. by rewrite Z.add_0_l in H.
Qed.

(** Two lines, 3 × 2 and 5 × 4. *)
Lemma reduce_binary64_exact_witness :
  Forall2 integer_line [Pedidos.linha_exemplo 1 2 (VNumber (num_of_Z 3));
                        Pedidos.linha_exemplo 2 4 (VNumber (num_of_Z 5))] [(3, 2); (5, 4)] ∧
  reduce_binary64 num_zero [Pedidos.linha_exemplo 1 2 (VNumber (num_of_Z 3));
                            Pedidos.linha_exemplo 2 4 (VNumber (num_of_Z 5))] = Ok (num_of_Z 26).
Proof.
  assert (Hl : Forall2 integer_line [Pedidos.linha_exemplo 1 2 (VNumber (num_of_Z 3));
                                     Pedidos.linha_exemplo 2 4 (VNumber (num_of_Z 5))] [(3, 2); (5, 4)])
    by (repeat constructor).
  split; [exact Hl|]. exact (proj1 (reduce_binary64_exact _ _ Hl ltac:(cbn; lia))).
Defined.

(** A line with quantity [q] whose price is the double nearest [p]. *)
Definition double_line (q : Z) (p : Q) : value :=
  Pedidos.linha_exemplo 1 q (VNumber (round_binary64 (Q2Qc p))).

(** Outside integers within [2^53] the total the program computes
    is not the exact sum: prices 0.1 and 0.2 make 0.30000000000000004
    (the exact model and the specification: 0.3); amounts 1, 2^53, -2^53
    make 0 when [reduce] adds them from the left, and 1 when the same
    rounded amounts are added from the right. *)
Lemma reduce_binary64_inexact :
  reduce_binary64 num_zero [double_line 1 (1 # 10); double_line 1 (2 # 10)] =
    Ok (Num (Q2Qc (1351079888211149 # 4503599627370496))) ∧
  binary64_to_string (Q2Qc (1351079888211149 # 4503599627370496)) = js "0.30000000000000004" ∧
  @Pedidos.reduce_with exact_conversions num_add num_mul num_zero
    [Pedidos.linha_exemplo 1 1 (VNumber (Num (Q2Qc (1 # 10))));
     Pedidos.linha_exemplo 1 1 (VNumber (Num (Q2Qc (2 # 10))))] = Ok (Num (Q2Qc (3 # 10))) ∧
  reduce_binary64 num_zero [double_line 1 1; double_line 1 (inject_Z (2 ^ 53)); double_line 1 (inject_Z (- 2 ^ 53))] =
    Ok (num_of_Z 0) ∧
  (vs ← mapM (@Pedidos.valor_linha_with binary64_conversions dbl_mul)
          [double_line 1 1; double_line 1 (inject_Z (2 ^ 53)); double_line 1 (inject_Z (- 2 ^ 53))];
   Ok (foldr dbl_add num_zero vs)) = Ok (num_of_Z 1).
Proof.
  split_and!; vm_compute; try reflexivity; f_equal; f_equal; apply Qc_is_canon; reflexivity.
Qed.
End OrderTotal.
