(* ===== verification/Cardapio.v ===== *)
(** * The menu router (src/routes/cardapio.js)

    The array [itens] with its two seeded items, [GET /] and [POST /].
    POST checks [nome] (a string, non-blank after trimming) and [preco] (a
    number), then pushes [{ id: itens.length + 1, nome: nome.trim(), preco }].
    The theorems give the result on every branch, the ids, and the
    scenario of spec.md 8. *)

From Stdlib Require Import String.
From stdpp Require Import base list numbers.
From Stdlib Require Import ZArith QArith Qcanon Lia.
From S2P Require Import Prelude JsValue JsNumber Store Http.

Module Cardapio.
Local Open Scope Z_scope.
Local Open Scope lanchonete_scope.

(** A menu item: [{ id: number, nome: string, preco: number }]. *)
Record item := {
  id : Z;
  nome : jsstring;
  preco : number;
}.

#[global] Instance item_has_id : HasId item := id.

(** [let itens = [{ id: 1, nome: 'Cachorro-quente', preco: 8.5 },
                  { id: 2, nome: 'Hambúrguer', preco: 12.0 }]] *)
Definition itens0 : list item :=
  [{| id := 1; nome := js "Cachorro-quente"; preco := Num (Q2Qc (17 # 2)) |};
   {| id := 2; nome := js "Hamb" ++ [250%N] ++ js "rguer"; preco := num_of_Z 12 |}].

Definition item_json (i : item) : value :=
  VObject [(js "id", VNumber (num_of_Z (id i))); (js "nome", VString (nome i));
           (js "preco", VNumber (preco i))].

(** [GET /]: [res.json(itens)] *)
Definition get_cardapio (xs : list item) : response := res_json (VArray (item_json <$> xs)).

(** 'Campo `nome` é obrigatório e deve ser uma string' *)
Definition msg_nome : jsstring :=
  js "Campo `nome` " ++ [233%N] ++ js " obrigat" ++ [243%N] ++ js "rio e deve ser uma string".

(** 'Campo `preco` é obrigatório e deve ser um número' *)
Definition msg_preco : jsstring :=
  js "Campo `preco` " ++ [233%N] ++ js " obrigat" ++ [243%N] ++ js "rio e deve ser um n" ++
  [250%N] ++ js "mero".

(** [POST /].  The second test, [preco == null || typeof preco !== 'number'],
    lets exactly the numbers through. *)
Definition post_cardapio (xs : list item) (body : value) : list item * response :=
  let b := js_or body (VObject []) in
  match required_string b.["nome"] with
  | None => (xs, res_error 400 msg_nome)
  | Some n =>
      match b.["preco"] with
      | VNumber p =>
          let novo := {| id := next_id xs; nome := trim n; preco := p |} in
          (push xs novo, {| status := 201; res_body := Json (item_json novo) |})
      | _ => (xs, res_error 400 msg_preco)
      end
  end.

Definition corpo (body : value) : value := js_or body (VObject []).

(** C29: a body whose [nome] is a string that is not blank and whose
    [preco] is a number (any number: 0 and negative prices included) adds
    the item numbered [itens.length + 1] with the trimmed name, and
    answers 201 with it. *)
Theorem post_cardapio_sucesso xs body s p :
  (corpo body).["nome"] = VString s → trim s ≠ [] → (corpo body).["preco"] = VNumber p →
  let novo := {| id := Z.of_nat (length xs) + 1; nome := trim s; preco := p |} in
  post_cardapio xs body = (xs ++ [novo], {| status := 201; res_body := Json (item_json novo) |}).
Proof.
  intros Hn Hs Hp novo. unfold post_cardapio. fold (corpo body).
  rewrite (proj2 (required_string_Some _ s)) by done. by rewrite Hp.
Qed.

(** C30: a missing, non-string, empty or blank [nome] (white space of any
    kind, as [trim] removes it) is rejected with 400 and the [nome]
    message, before [preco] is looked at; the array is unchanged. *)
Theorem post_cardapio_nome_invalido xs body :
  (∀ s, (corpo body).["nome"] = VString s → Forall (λ c, is_js_space c = true) s) →
  post_cardapio xs body = (xs, res_error 400 msg_nome).
Proof.
  intros Hn. unfold post_cardapio. fold (corpo body).
  rewrite (proj2 (required_string_None _)); [done|].
  intros s Hs. apply trim_nil_iff. by apply Hn.
Qed.

(** C31: with a valid [nome], a [preco] that is not a number (missing,
    null, a string, ...) is rejected with 400 and the [preco] message. *)
Theorem post_cardapio_preco_invalido xs body s :
  (corpo body).["nome"] = VString s → trim s ≠ [] →
  (∀ p, (corpo body).["preco"] ≠ VNumber p) →
  post_cardapio xs body = (xs, res_error 400 msg_preco).
Proof.
  intros Hn Hs Hp. unfold post_cardapio. fold (corpo body).
  rewrite (proj2 (required_string_Some _ s)) by done.
  destruct ((corpo body).["preco"]); try done. by destruct (Hp n).
Qed.

(** C32: on an array whose ids are 1..n, a POST keeps the ids 1..n+1
    (or 1..n) and the id it adds exceeds every previous id (spec.md 8). *)
Theorem post_cardapio_ids xs body :
  ids_sequential xs →
  ids_sequential (post_cardapio xs body).1 ∧
  ∀ i j, i ∈ ids xs → j ∈ ids (post_cardapio xs body).1 → j ∉ ids xs → i < j.
Proof.
  intros Hs. unfold post_cardapio.
  destruct (required_string _) as [n|]; [|simpl; naive_solver].
  destruct (_.["preco"]); simpl; try naive_solver.
  split; [by apply push_sequential|].
  intros i j Hi Hj Hnj. change (j ∈ ids (push xs {| id := next_id xs; nome := trim n; preco := n0 |})) in Hj.
  rewrite ids_push, elem_of_app, list_elem_of_singleton in Hj.
  destruct Hj as [Hj| ->]; [done|]. by apply next_id_gt.
Qed.

(** ** What a POST does to the array, for the application's invariant *)
Lemma post_cardapio_cases xs body :
  (post_cardapio xs body).1 = xs ∨
  ∃ n p, trim n ≠ [] ∧ (post_cardapio xs body).1 = push xs {| id := next_id xs; nome := trim n; preco := p |}.
Proof.
  unfold post_cardapio. destruct (required_string _) as [n|] eqn:E; [|by left].
  apply required_string_Some in E as [_ Hn].
  destruct (_.["preco"]); try by left. right. eauto.
Qed.

(** ** Scenarios (spec.md 8) and witnesses *)

Definition corpo_item (nome preco : value) : value :=
  VObject [(js "nome", nome); (js "preco", preco)].

(** [{ nome: "Suco", preco: 5 }] and [{ nome: " Pastel ", preco: -3 }] *)
Definition corpo_suco : value := corpo_item (VString (js "Suco")) (VNumber (num_of_Z 5)).
Definition corpo_negativo : value := corpo_item (VString (js " Pastel ")) (VNumber (num_of_Z (-3))).

Lemma post_cardapio_sucesso_witness :
  post_cardapio itens0 corpo_suco =
    (itens0 ++ [{| id := 3; nome := js "Suco"; preco := num_of_Z 5 |}],
     {| status := 201; res_body := Json (item_json {| id := 3; nome := js "Suco"; preco := num_of_Z 5 |}) |}) ∧
  post_cardapio itens0 corpo_negativo =
    (itens0 ++ [{| id := 3; nome := js "Pastel"; preco := num_of_Z (-3) |}],
     {| status := 201;
        res_body := Json (item_json {| id := 3; nome := js "Pastel"; preco := num_of_Z (-3) |}) |}).
Proof.
  split.
  - exact (post_cardapio_sucesso itens0 corpo_suco (js "Suco") (num_of_Z 5) eq_refl
             ltac:(by vm_compute) eq_refl).
  - exact (post_cardapio_sucesso itens0 corpo_negativo (js " Pastel ") (num_of_Z (-3)) eq_refl
             ltac:(by vm_compute) eq_refl).
Defined.

Lemma post_cardapio_nome_invalido_witness :
  post_cardapio itens0 (corpo_item (VString [32; 9; 12288]%N) (VNumber (num_of_Z 5))) =
  (itens0, res_error 400 msg_nome).
Proof.
  apply post_cardapio_nome_invalido. intros s E. injection E as <-. repeat constructor.
Defined.

Lemma post_cardapio_preco_invalido_witness :
  post_cardapio itens0 (corpo_item (VString (js "Suco")) (VString (js "5"))) =
  (itens0, res_error 400 msg_preco).
Proof.
  apply (post_cardapio_preco_invalido _ _ (js "Suco")); [reflexivity|by vm_compute|].
  intros p E. by vm_compute in E.
Defined.

Lemma post_cardapio_ids_witness :
  ids_sequential itens0 ∧ ids_sequential (post_cardapio itens0 corpo_suco).1.
Proof.
  assert (Hs : ids_sequential itens0) by reflexivity.
  split; [exact Hs|]. apply (post_cardapio_ids itens0 corpo_suco Hs).
Defined.

End Cardapio.
