(* ===== verification/Clientes.v ===== *)
(** * The customer router (src/routes/clientes.js)

    The array [clientes] with its seeded customer, [GET /] and [POST /].
    POST checks [nome] then [telefone] (each a string, non-blank after
    trimming) and pushes [{ id: clientes.length + 1, nome: nome.trim(),
    telefone: telefone.trim() }]. *)

From Stdlib Require Import String.
From stdpp Require Import base list numbers.
From Stdlib Require Import ZArith Lia.
From S2P Require Import Prelude JsValue JsNumber Store Http.

Module Clientes.
Local Open Scope Z_scope.
Local Open Scope lanchonete_scope.

(** A customer: [{ id, nome, telefone }]. *)
Record cliente := {
  id : Z;
  nome : jsstring;
  telefone : jsstring;
}.

#[global] Instance cliente_has_id : HasId cliente := id.

(** [let clientes = [{ id: 1, nome: 'João Silva', telefone: '99999-0000' }]] *)
Definition clientes0 : list cliente :=
  [{| id := 1; nome := js "Jo" ++ [227%N] ++ js "o Silva"; telefone := js "99999-0000" |}].

Definition cliente_json (c : cliente) : value :=
  VObject [(js "id", VNumber (num_of_Z (id c))); (js "nome", VString (nome c));
           (js "telefone", VString (telefone c))].

(** [GET /]: [res.json(clientes)] *)
Definition get_clientes (cs : list cliente) : response := res_json (VArray (cliente_json <$> cs)).

(** 'Campo `nome` é obrigatório' *)
Definition msg_nome : jsstring := js "Campo `nome` " ++ [233%N] ++ js " obrigat" ++ [243%N] ++ js "rio".

(** 'Campo `telefone` é obrigatório' *)
Definition msg_telefone : jsstring :=
  js "Campo `telefone` " ++ [233%N] ++ js " obrigat" ++ [243%N] ++ js "rio".

(** [POST /] *)
Definition post_clientes (cs : list cliente) (body : value) : list cliente * response :=
  let b := js_or body (VObject []) in
  match required_string b.["nome"] with
  | None => (cs, res_error 400 msg_nome)
  | Some n =>
      match required_string b.["telefone"] with
      | None => (cs, res_error 400 msg_telefone)
      | Some t =>
          let novo := {| id := next_id cs; nome := trim n; telefone := trim t |} in
          (push cs novo, {| status := 201; res_body := Json (cliente_json novo) |})
      end
  end.

Definition corpo (body : value) : value := js_or body (VObject []).

(** C33: non-blank string [nome] and [telefone] add the customer numbered
    [clientes.length + 1] with both fields trimmed, answered with 201. *)
Theorem post_clientes_sucesso cs body n t :
  (corpo body).["nome"] = VString n → trim n ≠ [] →
  (corpo body).["telefone"] = VString t → trim t ≠ [] →
  let novo := {| id := Z.of_nat (length cs) + 1; nome := trim n; telefone := trim t |} in
  post_clientes cs body = (cs ++ [novo], {| status := 201; res_body := Json (cliente_json novo) |}).
Proof.
  intros Hn Hn' Ht Ht' novo. unfold post_clientes. fold (corpo body).
  rewrite (proj2 (required_string_Some _ n)) by done.
  by rewrite (proj2 (required_string_Some _ t)) by done.
Qed.

(** C34: a missing, non-string or blank [nome] is rejected with 400 and
    the [nome] message, whatever [telefone] is (spec.md 8: [nome: ""]). *)
Theorem post_clientes_nome_invalido cs body :
  (∀ s, (corpo body).["nome"] = VString s → Forall (λ c, is_js_space c = true) s) →
  post_clientes cs body = (cs, res_error 400 msg_nome).
Proof.
  intros Hn. unfold post_clientes. fold (corpo body).
  rewrite (proj2 (required_string_None _)); [done|].
  intros s Hs. apply trim_nil_iff. by apply Hn.
Qed.

(** C35: with a valid [nome], a missing, non-string or blank [telefone] is
    rejected with 400 and the [telefone] message. *)
Theorem post_clientes_telefone_invalido cs body n :
  (corpo body).["nome"] = VString n → trim n ≠ [] →
  (∀ s, (corpo body).["telefone"] = VString s → Forall (λ c, is_js_space c = true) s) →
  post_clientes cs body = (cs, res_error 400 msg_telefone).
Proof.
  intros Hn Hn' Ht. unfold post_clientes. fold (corpo body).
  rewrite (proj2 (required_string_Some _ n)) by done.
  rewrite (proj2 (required_string_None _)); [done|].
  intros s Hs. apply trim_nil_iff. by apply Ht.
Qed.

(** ** What a POST does to the array, for the application's invariant *)
Lemma post_clientes_cases cs body :
  (post_clientes cs body).1 = cs ∨
  ∃ n t, trim n ≠ [] ∧ trim t ≠ [] ∧
    (post_clientes cs body).1 = push cs {| id := next_id cs; nome := trim n; telefone := trim t |}.
Proof.
  unfold post_clientes. destruct (required_string _) as [n|] eqn:E; [|by left].
  apply required_string_Some in E as [_ Hn].
  destruct (required_string (_.["telefone"])) as [t|] eqn:E'; [|by left].
  apply required_string_Some in E' as [_ Ht]. right. eauto.
Qed.

(** ** Scenarios (spec.md 8) and witnesses *)

Definition corpo_cliente (nome telefone : value) : value :=
  VObject [(js "nome", nome); (js "telefone", telefone)].

Lemma post_clientes_sucesso_witness :
  post_clientes clientes0 (corpo_cliente (VString (js " Ana ")) (VString (js "123 "))) =
    (clientes0 ++ [{| id := 2; nome := js "Ana"; telefone := js "123" |}],
     {| status := 201;
        res_body := Json (cliente_json {| id := 2; nome := js "Ana"; telefone := js "123" |}) |}).
Proof.
  exact (post_clientes_sucesso clientes0 (corpo_cliente (VString (js " Ana ")) (VString (js "123 "))) (js " Ana ") (js "123 ") eq_refl ltac:(by vm_compute)
           eq_refl ltac:(by vm_compute)).
Defined.

(** [{ nome: "", telefone: "123" }] *)
Lemma post_clientes_nome_invalido_witness :
  post_clientes clientes0 (corpo_cliente (VString []) (VString (js "123"))) =
  (clientes0, res_error 400 msg_nome).
Proof. apply post_clientes_nome_invalido. intros s E. injection E as <-. constructor. Defined.

Lemma post_clientes_telefone_invalido_witness :
  post_clientes clientes0 (corpo_cliente (VString (js "Ana")) VNull) =
  (clientes0, res_error 400 msg_telefone).
Proof.
  apply (post_clientes_telefone_invalido _ _ (js "Ana")); [reflexivity|by vm_compute|].
  intros s E. discriminate E.
Defined.

End Clientes.
