(* ===== verification/App.v ===== *)
(** * The application (src/app.js)

    The state of the running program: the three arrays and the lines the
    logging middleware printed.  A request goes through the middleware in
    the order app.js installs them: the JSON parser (its result is the
    request body of the model), the logger, the three routers mounted at
    /cardapio, /pedidos and /clientes, and the 404 handler.  Routing
    follows Express 4's router: the path is [parseurl(req).pathname]
    ([Url]); when there is none, the router hands the request to the final
    handler (404) before any middleware, the logger included.  A mount
    matches the path by path-to-regexp's [^m\/?(?=\/|$)] with the [i] flag;
    [trim_prefix] then strips the matched prefix from the url (after the
    protocol and host of an absolute url) and the mounted router's route
    [/] matches when the path of that url is [/].  GET routes also serve
    HEAD; a matched path whose method has no route answers OPTIONS with
    the allowed methods and falls through to 404 otherwise.  A handler
    that throws ends with Express's default 500.

    The server is the relation [reachable] of the states a sequence of
    requests produces from the initial state; its invariant is proved by
    induction on it. *)

From Stdlib Require Import String.
From stdpp Require Import base list numbers.
From Stdlib Require Import ZArith Lia.
From S2P Require Import Prelude JsValue JsNumber Store Http Url Pedidos Cardapio Clientes.

Module App.
Local Open Scope Z_scope.
Local Open Scope lanchonete_scope.

Record state := {
  cardapio : list Cardapio.item;
  pedidos : list Pedidos.pedido;
  clientes : list Clientes.cliente;
  log : list jsstring;
}.

(** The arrays as the three modules initialise them; nothing logged. *)
Definition init : state :=
  {| cardapio := Cardapio.itens0; pedidos := Pedidos.pedidos0;
     clientes := Clientes.clientes0; log := [] |}.

Definition set_cardapio (st : state) xs : state :=
  {| cardapio := xs; pedidos := pedidos st; clientes := clientes st; log := log st |}.
Definition set_pedidos (st : state) ps : state :=
  {| cardapio := cardapio st; pedidos := ps; clientes := clientes st; log := log st |}.
Definition set_clientes (st : state) cs : state :=
  {| cardapio := cardapio st; pedidos := pedidos st; clientes := cs; log := log st |}.

Definition method_name (m : method) : jsstring :=
  match m with
  | GET => js "GET" | HEAD => js "HEAD" | POST => js "POST" | OtherMethod s => s
  end.

(** app.js 13-16: [console.log(`${req.method} ${req.url}`); next();] *)
Definition log_line (r : request) : jsstring := method_name (req_method r) ++ js " " ++ req_url r.

Definition logger (st : state) (r : request) : state :=
  {| cardapio := cardapio st; pedidos := pedidos st; clientes := clientes st;
     log := log st ++ [log_line r] |}.

(** [Layer.match] of [app.use(mount, router)]: path-to-regexp 0.1 turns
    [mount] into [^mount\/?(?=\/|$)] with the [i] flag; on the path [lp]
    with its ASCII letters in lower case (the [i] flag folds ASCII letters
    only), the result is the length of the matched prefix [layer.path]. *)
Definition mount_match (mount lp : jsstring) : option nat :=
  if bool_decide (take (length mount) lp = mount) then
    match drop (length mount) lp with
    | [] => Some (length mount)
    | c :: r =>
        if bool_decide (c = 47%N) then
          match r with
          | [] => Some (S (length mount))
          | d :: _ => if bool_decide (d = 47%N) then Some (S (length mount)) else Some (length mount)
          end
        else None
    end
  else None.

(** [getProtohost]: the protocol and host of an absolute url, up to the
    first [/] after its [://] ([''] for a url that starts with [/], and
    when there is no such [/]). *)
Definition protohost (url : jsstring) : jsstring :=
  match url with
  | [] => []
  | c :: _ =>
      if bool_decide (c = 47%N) then []
      else match Url.index_of_sub (js "://") (Url.cut_at (Url.is_char 63) url) with
           | Some k => match Url.index_where (Url.is_char 47) (drop (3 + k) url) with
                       | Some j => take (3 + k + j) url
                       | None => []
                       end
           | None => []
           end
  end.

(** [if (!protohost && req.url[0] !== '/') req.url = '/' + req.url] *)
Definition lead_slash (u : jsstring) : jsstring :=
  match u with c :: _ => if bool_decide (c = 47%N) then u else 47%N :: u | [] => [47%N] end.

(** [trim_prefix]: [req.url] for the mounted router once the matched
    prefix of length [removed] is cut after the protocol and host. *)
Definition inner_url (url : jsstring) (removed : nat) : jsstring :=
  let ph := protohost url in
  let u := ph ++ drop (length ph + removed) url in
  match ph with [] => lead_slash u | _ => u end.

(** The route [/] of the mounted router: [^\/?$] on the path of its url. *)
Definition route_root (url : jsstring) : bool :=
  match Url.url_pathname url with
  | Some p => bool_decide (p = [] ∨ p = js "/")
  | None => false
  end.

(** The route [/] of a router mounted at [mount] serves the request url. *)
Definition serves (mount url : jsstring) : bool :=
  match Url.url_pathname url with
  | Some p => match mount_match mount (Url.ascii_lower <$> p) with
              | Some k => route_root (inner_url url k)
              | None => false
              end
  | None => false
  end.

Definition not_found : response :=
  {| status := 404; res_body := Json (VObject [(js "error", VString (js "Not Found"))]) |}.

(** Express's automatic OPTIONS answer: the methods of the route. *)
Definition options_response : response :=
  {| status := 200; res_body := Text (js "GET,HEAD,POST") |}.

(** Express's final handler when no middleware answered (its page is
    reduced to the status message). *)
Definition final_not_found : response :=
  {| status := 404; res_body := Text (js "Not Found") |}.

(** Express's final handler for an exception (body text, no JSON). *)
Definition server_error : response :=
  {| status := 500; res_body := Text (js "Internal Server Error") |}.

Definition is_options (m : method) : bool :=
  match m with OtherMethod s => bool_decide (s = js "OPTIONS") | _ => false end.

Section routers.
Context `{JsConversions}.

(** The three routers on the route [/]: [None] is [next()]. *)
Definition router_cardapio (st : state) (r : request) : option (state * response) :=
  match req_method r with
  | GET | HEAD => Some (st, Cardapio.get_cardapio (cardapio st))
  | POST => let '(xs, res) := Cardapio.post_cardapio (cardapio st) (req_body r) in
            Some (set_cardapio st xs, res)
  | m => if is_options m then Some (st, options_response) else None
  end.

Definition router_pedidos (st : state) (r : request) : option (state * response) :=
  match req_method r with
  | GET | HEAD => Some (st, Pedidos.get_pedidos (pedidos st))
  | POST => match Pedidos.post_pedidos (pedidos st) (req_body r) with
            | Ok (ps, res) => Some (set_pedidos st ps, res)
            | Throw _ => Some (st, server_error)
            end
  | m => if is_options m then Some (st, options_response) else None
  end.

Definition router_clientes (st : state) (r : request) : option (state * response) :=
  match req_method r with
  | GET | HEAD => Some (st, Clientes.get_clientes (clientes st))
  | POST => let '(cs, res) := Clientes.post_clientes (clientes st) (req_body r) in
            Some (set_clientes st cs, res)
  | m => if is_options m then Some (st, options_response) else None
  end.

(** [app.use(mount, router)]: the router runs when it serves the path. *)
Definition mounted (mount : jsstring) (router : state → request → option (state * response))
    (st : state) (r : request) : option (state * response) :=
  if serves mount (req_url r) then router st r else None.

(** One request through app.js: logger, the three mounts in order, 404;
    a url without a path goes to the final handler first. *)
Definition app_handle (st : state) (r : request) : state * response :=
  match Url.url_pathname (req_url r) with
  | None => (st, final_not_found)
  | Some _ =>
    let st1 := logger st r in
    match mounted (js "/cardapio") router_cardapio st1 r with
    | Some x => x
    | None =>
      match mounted (js "/pedidos") router_pedidos st1 r with
      | Some x => x
      | None =>
        match mounted (js "/clientes") router_clientes st1 r with
        | Some x => x
        | None => (st1, not_found)
        end
      end
    end
  end.

(** The states the server reaches by a sequence of requests. *)
Inductive reachable : state → Prop :=
| reachable_init : reachable init
| reachable_step st r : reachable st → reachable (app_handle st r).1.
End routers.

(** ** The invariant of the running server

    Every array keeps the ids 1..n; names and phones are stored trimmed
    and non-empty; every order that is not the seeded one has a non-empty
    list of valid lines and the total the specification gives them (the
    left-to-right sum of doubles of [Pedidos.soma_linhas]). *)
Definition aparado (s : jsstring) : Prop := s ≠ [] ∧ trim s = s.

Definition inv_cardapio (xs : list Cardapio.item) : Prop :=
  ids_sequential xs ∧ Forall (λ i, aparado (Cardapio.nome i)) xs.

Definition inv_clientes (cs : list Clientes.cliente) : Prop :=
  ids_sequential cs ∧ Forall (λ c, aparado (Clientes.nome c) ∧ aparado (Clientes.telefone c)) cs.

Section invariant.
Context `{JsConversions}.

Definition pedido_ok (o : Pedidos.pedido) : Prop :=
  Pedidos.itens o ≠ [] ∧ Forall Pedidos.item_valido (Pedidos.itens o) ∧
  Pedidos.soma_linhas num_zero (Pedidos.itens o) (Ok (Pedidos.total o)).

Definition inv_pedidos (ps : list Pedidos.pedido) : Prop :=
  ids_sequential ps ∧ Forall (λ o, o ∈ Pedidos.pedidos0 ∨ pedido_ok o) ps.

Definition inv (st : state) : Prop :=
  inv_cardapio (cardapio st) ∧ inv_pedidos (pedidos st) ∧ inv_clientes (clientes st).

Lemma aparado_trim n : trim n ≠ [] → aparado (trim n).
Proof. split; [done|apply trim_idemp]. Qed.

Lemma Forall_push {A} (P : A → Prop) xs x : Forall P xs → P x → Forall P (push xs x).
Proof. intros. unfold push. apply Forall_app. by split; [|constructor]. Qed.

Lemma inv_cardapio_post xs b : inv_cardapio xs → inv_cardapio (Cardapio.post_cardapio xs b).1.
Proof.
  intros [Hs Hf]. destruct (Cardapio.post_cardapio_cases xs b) as [->|(n & p & Hn & ->)]; [done|].
  split; [by apply push_sequential|]. apply Forall_push; [done|]. by apply aparado_trim.
Qed.

Lemma inv_clientes_post cs b : inv_clientes cs → inv_clientes (Clientes.post_clientes cs b).1.
Proof.
  intros [Hs Hf].
  destruct (Clientes.post_clientes_cases cs b) as [->|(n & t & Hn & Ht & ->)]; [done|].
  split; [by apply push_sequential|]. apply Forall_push; [done|]. split; by apply aparado_trim.
Qed.

Lemma inv_pedidos_post ps b ps' r :
  Pedidos.post_pedidos ps b = Ok (ps', r) → inv_pedidos ps → inv_pedidos ps'.
Proof.
  intros Hr [Hs Hf]. destruct (Pedidos.post_pedidos_Ok_inv _ _ _ _ Hr) as [->|(o & -> & Ho & Hok)];
    [done|].
  split; [by apply push_sequential|]. apply Forall_push; [done|]. by right.
Qed.

(** What one request does to the state: nothing when its url has no
    path; otherwise the logger's line, then at most one POST handler's
    array. *)
Lemma app_handle_cases st r :
  let st1 := logger st r in
  (Url.url_pathname (req_url r) = None ∧ (app_handle st r).1 = st) ∨
  (is_Some (Url.url_pathname (req_url r)) ∧
   ((app_handle st r).1 = st1 ∨
    (app_handle st r).1 = set_cardapio st1 (Cardapio.post_cardapio (cardapio st1) (req_body r)).1 ∨
    (∃ ps' res, Pedidos.post_pedidos (pedidos st1) (req_body r) = Ok (ps', res) ∧
                (app_handle st r).1 = set_pedidos st1 ps') ∨
    (app_handle st r).1 = set_clientes st1 (Clientes.post_clientes (clientes st1) (req_body r)).1)).
Proof.
  unfold app_handle, mounted, router_cardapio, router_pedidos, router_clientes.
  destruct (Url.url_pathname (req_url r)) eqn:Hp; [right; split; [by eexists|]|by left].
  repeat case_match; simplify_eq/=; eauto 10.
Qed.

Lemma inv_logger st r : inv st → inv (logger st r).
Proof. done. Qed.

Lemma inv_app_handle st r : inv st → inv (app_handle st r).1.
Proof.
  intros Hi. pose proof (inv_logger st r Hi) as (Hc & Hp & Hcl).
  destruct (app_handle_cases st r) as [[_ ->]|[_ [->|[->|[(ps' & res & Hr & ->)| ->]]]]].
  - done.
  - by apply inv_logger.
  - split_and!; [by apply inv_cardapio_post|done|done].
  - split_and!; [done|by eapply inv_pedidos_post|done].
  - split_and!; [done|done|by apply inv_clientes_post].
Qed.

Lemma inv_init : inv init.
Proof.
  split_and!; split; try reflexivity.
  - repeat constructor; by vm_compute.
  - repeat constructor.
  - repeat constructor; by vm_compute.
Qed.
End invariant.

(** ** Routing lemmas *)

(** A path a mount matches agrees with the mount, up to ASCII case, on
    every code unit of the mount. *)
Lemma mount_match_lookup mount lp k i :
  mount_match mount lp = Some k → (i < length mount)%nat → lp !! i = mount !! i.
Proof.
  unfold mount_match. case_bool_decide as H; [|done]. intros _ Hi.
  rewrite <-H, lookup_take_lt by done. done.
Qed.

(** The matched prefix is a prefix: it is not longer than the path. *)
Lemma mount_match_le mount lp k : mount_match mount lp = Some k → (k ≤ length lp)%nat.
Proof.
  unfold mount_match. case_bool_decide as H; [|done].
  assert (length mount ≤ length lp)%nat by (rewrite <-H, length_take; lia).
  pose proof (take_drop (length mount) lp) as E.
  destruct (drop (length mount) lp) as [|c r] eqn:Hd; [by intros [= <-]|].
  apply (f_equal length) in E. rewrite length_app, length_take in E. simpl in E.
  repeat case_match; intros [= <-]; lia.
Qed.

Lemma app_prefix_cases (m e : jsstring) :
  (m ++ e = m ∨ m ++ e = m ++ js "/" ∨ m ++ e = m ++ js "//") ↔ (e = [] ∨ e = [47%N] ∨ e = [47%N; 47%N]).
Proof.
  split.
  - intros [H|[H|H]]; [left|right; left; by apply app_inv_head in H|right; right; by apply app_inv_head in H].
    apply (f_equal length) in H. rewrite length_app in H. destruct e; [done|simpl in H; lia].
  - intros [->|[->| ->]]; [left; apply app_nil_r|by right; left|by right; right].
Qed.

(** The route [/] matches what the mount leaves of the path exactly when
    the path is the mount, then at most two slashes. *)
Lemma mount_match_root mount lp :
  (match mount_match mount lp with Some k => drop k lp = [] ∨ drop k lp = [47%N] | None => False end) ↔
  (lp = mount ∨ lp = mount ++ js "/" ∨ lp = mount ++ js "//").
Proof.
  unfold mount_match. case_bool_decide as H.
  - pose proof (take_drop (length mount) lp) as E. rewrite H in E.
    remember (drop (length mount) lp) as e eqn:He. subst lp.
    rewrite app_prefix_cases.
    assert (Hs : ∀ l, drop (S (length mount)) (mount ++ l) = drop 1 l).
    { intros l. replace (S (length mount)) with (length mount + 1)%nat by lia.
      by rewrite <-drop_drop, drop_app_length. }
    destruct e as [|c r]; [rewrite drop_app_length; naive_solver|].
    case_bool_decide as Hc; [subst|naive_solver].
    destruct r as [|d r]; [rewrite Hs; naive_solver|].
    case_bool_decide as Hd'; [subst; rewrite Hs; naive_solver|rewrite drop_app_length; naive_solver].
  - split; [done|]. intros Hm. apply H.
    destruct Hm as [->|[->| ->]]; [apply take_ge; lia|by rewrite take_app_length..].
Qed.

Lemma serves_lookup mount url i :
  serves mount url = true → (i < length mount)%nat →
  ∃ p, Url.url_pathname url = Some p ∧ (Url.ascii_lower <$> p) !! i = mount !! i.
Proof.
  unfold serves. destruct (Url.url_pathname url) as [p|]; [|done].
  destruct (mount_match mount (Url.ascii_lower <$> p)) eqn:E; [|done]. intros _ Hi. exists p. split; [done|].
  by eapply mount_match_lookup.
Qed.

Lemma serves_path mount url : serves mount url = true → is_Some (Url.url_pathname url).
Proof. unfold serves. destruct (Url.url_pathname url); [by eexists|done]. Qed.

(** Two mounts that differ at a position both have serve disjoint urls. *)
Lemma serves_disjoint m1 m2 url i :
  (i < length m1)%nat → (i < length m2)%nat → m1 !! i ≠ m2 !! i →
  serves m1 url = true → serves m2 url = false.
Proof.
  intros H1 H2 Hd S1. destruct (serves m2 url) eqn:S2; [|done].
  destruct (serves_lookup _ _ i S1 H1) as (p & Hp & E1).
  destruct (serves_lookup _ _ i S2 H2) as (p' & Hp' & E2).
  rewrite Hp in Hp'. injection Hp' as <-. congruence.
Qed.

(** A url the /clientes mount serves is served by no other mount. *)
Lemma serves_clientes_only url :
  serves (js "/clientes") url = true →
  serves (js "/cardapio") url = false ∧ serves (js "/pedidos") url = false.
Proof.
  intros Hp. split.
  - apply (serves_disjoint (js "/clientes") (js "/cardapio") _ 2); [vm_compute; lia..|by vm_compute|done].
  - apply (serves_disjoint (js "/clientes") (js "/pedidos") _ 1); [vm_compute; lia..|by vm_compute|done].
Qed.

(** The mounts /cardapio and /pedidos serve disjoint urls. *)
Lemma serves_pedidos_not_cardapio url :
  serves (js "/pedidos") url = true → serves (js "/cardapio") url = false.
Proof.
  apply (serves_disjoint (js "/pedidos") (js "/cardapio") _ 1); [vm_compute; lia..|by vm_compute].
Qed.

(** ** Urls on parseurl's fast path *)

Definition no_stop (u : jsstring) : bool := forallb (λ c, negb (Url.fast_stop c)) u.

Lemma fastparse_ok_inv url : Url.fastparse_ok url = true → ∃ t, url = 47%N :: t ∧ no_stop t = true.
Proof.
  destruct url as [|c t]; [done|]. simpl. intros [Hc Ht]%andb_true_iff.
  apply bool_decide_eq_true in Hc as ->. eauto.
Qed.

Lemma no_stop_drop k u : no_stop u = true → no_stop (drop k u) = true.
Proof. apply forallb_drop. Qed.

Lemma fastparse_lead_slash u : no_stop u = true → Url.fastparse_ok (lead_slash u) = true.
Proof.
  destruct u as [|c u]; [done|]. intros H. unfold lead_slash.
  case_bool_decide as Hc; simpl; rewrite ?bool_decide_eq_true_2 by done; simpl.
  - by apply andb_true_iff in H as [_ H].
  - exact H.
Qed.

(** The mounted router's url, cut at its [?]: a leading [/] before what
    the mount left of the path. *)
Lemma lead_slash_cut d q :
  forallb (λ c, negb (Url.is_char 63 c)) d = true →
  match q with [] => True | c :: _ => Url.is_char 63 c = true end →
  Url.cut_at (Url.is_char 63) (lead_slash (d ++ q)) = lead_slash d.
Proof.
  intros Hd Hq. destruct d as [|c d]; simpl.
  - destruct q as [|c q]; [done|]. unfold lead_slash. unfold Url.is_char in Hq.
    apply bool_decide_eq_true in Hq as ->. rewrite bool_decide_eq_false_2 by done. simpl.
    done.
  - unfold lead_slash. case_bool_decide.
    + by apply (Url.cut_at_app_stop _ (c :: d) q).
    + simpl. f_equal. by apply (Url.cut_at_app_stop _ (c :: d) q).
Qed.

Lemma ascii_lower_slash c : Url.ascii_lower c = 47%N ↔ c = 47%N.
Proof. unfold Url.ascii_lower. case_decide; lia. Qed.

Lemma lead_slash_root d :
  (lead_slash d = [] ∨ lead_slash d = [47%N]) ↔
  (Url.ascii_lower <$> d = [] ∨ Url.ascii_lower <$> d = [47%N]).
Proof.
  unfold lead_slash. destruct d as [|c [|c' d]]; [by split; intros; [left|right]| |].
  - case_bool_decide as Hc; [subst; split; intros; by right|].
    split; [by intros [?|?]|]. intros [H|H]; simpl in H; [done|]. injection H as H. apply (proj1 (ascii_lower_slash c)) in H. by destruct Hc.
  - case_bool_decide; split; by intros [?|?].
Qed.

(** On the fast path, the mounted router serves the url when what the
    mount leaves of the path before [?] is empty or [/]. *)
Lemma serves_fast_match mount url :
  Url.fastparse_ok url = true →
  let lp := Url.ascii_lower <$> Url.cut_at (Url.is_char 63) url in
  serves mount url = true ↔
    match mount_match mount lp with Some k => drop k lp = [] ∨ drop k lp = [47%N] | None => False end.
Proof.
  intros Hf lp. destruct (fastparse_ok_inv _ Hf) as (t & Hu & Ht).
  unfold serves. rewrite Url.url_pathname_fast by done. subst lp.
  destruct (mount_match mount _) as [k|] eqn:Hm; [|done].
  pose proof (mount_match_le _ _ _ Hm) as Hk. rewrite length_fmap in Hk.
  pose proof (Url.cut_at_app_drop (Url.is_char 63) url) as Hsplit.
  pose proof (Url.cut_at_rest (Url.is_char 63) url) as Hq.
  pose proof (Url.cut_at_none (Url.is_char 63) url) as Hd.
  set (P := Url.cut_at (Url.is_char 63) url) in *. set (Q := drop (length P) url) in *.
  assert (Hns : no_stop (drop k url) = true) by (apply no_stop_drop; by rewrite Hu).
  unfold route_root, inner_url. replace (protohost url) with ([] : jsstring) by (by rewrite Hu).
  cbn [app length Nat.add].
  rewrite Url.url_pathname_fast by (by apply fastparse_lead_slash).
  rewrite Hsplit, drop_app_le by lia.
  rewrite lead_slash_cut; [|by apply forallb_drop|done].
  change (js "/") with [47%N]. rewrite bool_decide_eq_true, <-fmap_drop. apply lead_slash_root.
Qed.

(** The forms Express routes that a cut at [?] alone would not: a
    fragment, an absolute url (any letter case), a non-breaking space at
    the end; and urls without a path, which reach no middleware. *)
Example serves_examples :
  serves (js "/pedidos") (js "/pedidos#x") = true ∧
  serves (js "/pedidos") (js "http://h/pedidos") = true ∧
  serves (js "/pedidos") (js "HTTP://H/PEDIDOS/?x") = true ∧
  serves (js "/pedidos") (js "/pedidos" ++ [160%N]) = true ∧
  serves (js "/pedidos") (js "foo://h/pedidos") = false ∧
  serves (js "/pedidos") (js "/pedidos///") = false ∧
  Url.url_pathname (js "//a@b#x") = None ∧ Url.url_pathname (js "mailto:x") = None.
Proof. split_and!; by vm_compute. Qed.

Section theorems.
Context `{JsConversions}.

(** A request the /pedidos mount serves is answered by the order router. *)
Lemma app_handle_pedidos st r x :
  serves (js "/pedidos") (req_url r) = true → router_pedidos (logger st r) r = Some x →
  app_handle st r = x.
Proof.
  intros Hp Hx. destruct (serves_path _ _ Hp) as [p Hpath]. unfold app_handle, mounted.
  by rewrite Hpath, (serves_pedidos_not_cardapio _ Hp), Hp, Hx.
Qed.

(** C12: on parseurl's fast path (a url that starts with [/] and holds no
    white space or [#]), a mount serves the url exactly when the part
    before the first [?] is the mount, the mount and [/], or the mount and
    [//], ASCII letters compared without case. *)
Theorem serves_fast mount url :
  Url.fastparse_ok url = true →
  serves mount url = true ↔
    (let p := Url.ascii_lower <$> Url.cut_at (Url.is_char 63) url in
     p = mount ∨ p = mount ++ js "/" ∨ p = mount ++ js "//").
Proof. intros Hf. rewrite (serves_fast_match mount url Hf). apply mount_match_root. Qed.

(** C7: every state the server reaches by any sequence of requests
    satisfies the invariant: ids 1..n in each array, names and phones
    stored trimmed and non-empty, and every order but the seeded one
    with valid lines and the specified total. *)
Theorem reachable_inv st : reachable st → inv st.
Proof. induction 1; [apply inv_init|by apply inv_app_handle]. Qed.

(** C9: the logger runs first and exactly once on every request whose
    url has a path, known path or not: the log grows by the line
    "METHOD url"; a url parseurl gives no path (such as [mailto:x]) goes
    to Express's final handler before any middleware and is not logged. *)
Theorem app_log st r :
  log (app_handle st r).1 =
    log st ++ match Url.url_pathname (req_url r) with Some _ => [log_line r] | None => [] end.
Proof.
  destruct (app_handle_cases st r) as [[Hn ->]|[[p Hp] [->|[->|[(ps' & res & _ & ->)| ->]]]]];
    rewrite ?Hn, ?Hp; simpl; by rewrite ?app_nil_r.
Qed.

(** C10: a request whose url has a path that none of the three mounts
    serves gets 404 [{ error: 'Not Found' }] and changes nothing but the
    log.  Serving follows Express: the path is parseurl's (a fragment or
    an absolute url is routed by its path), a mount matches it up to
    ASCII case, and the mounted router's route [/] matches what remains. *)
Theorem app_not_found st r :
  is_Some (Url.url_pathname (req_url r)) →
  serves (js "/cardapio") (req_url r) = false →
  serves (js "/pedidos") (req_url r) = false →
  serves (js "/clientes") (req_url r) = false →
  app_handle st r = (logger st r, not_found).
Proof. intros [p Hp] Hc Hpd Hcl. unfold app_handle, mounted. by rewrite Hp, Hc, Hpd, Hcl. Qed.

(** C14: GET and HEAD requests change none of the three arrays. *)
Theorem app_get_preserva st r :
  req_method r = GET ∨ req_method r = HEAD →
  cardapio (app_handle st r).1 = cardapio st ∧ pedidos (app_handle st r).1 = pedidos st ∧
  clientes (app_handle st r).1 = clientes st.
Proof.
  intros Hm. unfold app_handle, mounted, router_cardapio, router_pedidos, router_clientes.
  destruct Hm as [Hm|Hm]; rewrite Hm; repeat case_match; simplify_eq/=; done.
Qed.

(** C11: a POST to a url the /pedidos mount serves (any letter case, a
    trailing slash, a query string, a fragment, an absolute url) runs
    the order handler on the array: its result becomes the new array and
    the response, and a throw gives Express's 500 with the array
    unchanged. *)
Theorem app_post_pedidos st r :
  serves (js "/pedidos") (req_url r) = true → req_method r = POST →
  app_handle st r =
    match Pedidos.post_pedidos (pedidos st) (req_body r) with
    | Ok (ps, res) => (set_pedidos (logger st r) ps, res)
    | Throw _ => (logger st r, server_error)
    end.
Proof.
  intros Hp Hm. apply app_handle_pedidos; [done|]. unfold router_pedidos. rewrite Hm.
  cbn [pedidos logger]. by destruct (Pedidos.post_pedidos _ _) as [[ps res]|].
Qed.

(** C13: after a POST that creates an order, a GET to a url the /pedidos
    mount serves answers with the whole order list, the new order last,
    and changes nothing but the log: the routers share one array. *)
Theorem app_get_apos_post st r r' o res :
  serves (js "/pedidos") (req_url r) = true → req_method r = POST →
  Pedidos.post_pedidos (pedidos st) (req_body r) = Ok (pedidos st ++ [o], res) →
  serves (js "/pedidos") (req_url r') = true → req_method r' = GET →
  let st1 := (app_handle st r).1 in
  app_handle st1 r' = (logger st1 r', res_json (VArray (Pedidos.pedido_json <$> pedidos st ++ [o]))).
Proof.
  intros Hp Hm Hpost Hp' Hm' st1.
  assert (Hst1 : st1 = set_pedidos (logger st r) (pedidos st ++ [o])).
  { subst st1. rewrite (app_handle_pedidos st r (set_pedidos (logger st r) (pedidos st ++ [o]), res));
      [done|done|]. unfold router_pedidos. rewrite Hm. cbn [pedidos logger]. by rewrite Hpost. }
  apply app_handle_pedidos; [done|]. unfold router_pedidos. rewrite Hm'. by rewrite Hst1.
Qed.

(** C8: in every reachable state no id occurs twice in any of the
    three arrays: ids are never reused (spec.md 5, single-threaded). *)
Theorem reachable_ids_unicos st :
  reachable st →
  NoDup (ids (cardapio st)) ∧ NoDup (ids (pedidos st)) ∧ NoDup (ids (clientes st)).
Proof.
  intros Hr. assert (Hi : inv st) by (induction Hr; [apply inv_init|by apply inv_app_handle]).
  destruct Hi as ([Hc _] & [Hp _] & [Hcl _]). split_and!; by apply ids_sequential_NoDup.
Qed.
End theorems.

(** ** Scenarios and witnesses *)

(** [POST /PEDIDOS/?via=app] with the body of the 17.00 order. *)
Definition req_pedido : request :=
  {| req_method := POST; req_url := js "/PEDIDOS/?via=app"; req_body := Pedidos.corpo_17 |}.

(** [GET /menu] *)
Definition req_menu : request := {| req_method := GET; req_url := js "/menu"; req_body := VUndefined |}.

Lemma reachable_inv_witness : inv (app_handle init req_pedido).1.
Proof. apply reachable_inv. apply reachable_step, reachable_init. Defined.

Lemma app_not_found_witness : app_handle init req_menu = (logger init req_menu, not_found).
Proof. apply app_not_found; [by eexists|reflexivity..]. Defined.

Lemma app_get_preserva_witness :
  cardapio (app_handle init req_menu).1 = cardapio init ∧
  pedidos (app_handle init req_menu).1 = pedidos init ∧
  clientes (app_handle init req_menu).1 = clientes init.
Proof. apply app_get_preserva. by left. Defined.

Lemma app_post_pedidos_witness :
  app_handle init req_pedido =
    match Pedidos.post_pedidos (pedidos init) (req_body req_pedido) with
    | Ok (ps, res) => (set_pedidos (logger init req_pedido) ps, res)
    | Throw _ => (logger init req_pedido, server_error)
    end.
Proof. apply app_post_pedidos; reflexivity. Defined.

(** [GET /pedidos] *)
Definition req_get_pedidos : request :=
  {| req_method := GET; req_url := js "/pedidos"; req_body := VUndefined |}.

Lemma serves_fast_witness :
  Url.fastparse_ok (js "/PEDIDOS//?via=app") = true ∧
  (serves (js "/pedidos") (js "/PEDIDOS//?via=app") = true ↔
    (let p := Url.ascii_lower <$> Url.cut_at (Url.is_char 63) (js "/PEDIDOS//?via=app") in
     p = js "/pedidos" ∨ p = js "/pedidos" ++ js "/" ∨ p = js "/pedidos" ++ js "//")).
Proof. split; [reflexivity|]. apply serves_fast. reflexivity. Defined.

Lemma app_get_apos_post_witness :
  ∃ o res, Pedidos.post_pedidos (pedidos init) (req_body req_pedido) = Ok (pedidos init ++ [o], res) ∧
    let st1 := (app_handle init req_pedido).1 in
    app_handle st1 req_get_pedidos =
      (logger st1 req_get_pedidos, res_json (VArray (Pedidos.pedido_json <$> pedidos init ++ [o]))).
Proof.
  destruct (Pedidos.post_pedidos (pedidos init) (req_body req_pedido)) as [[ps res]|e] eqn:E;
    [|by vm_compute in E].
  destruct (Pedidos.post_pedidos_Ok_cases _ _ _ _ E) as [[-> Hs]|(o & -> & _ & _)].
  { vm_compute in E. injection E as _ <-. by vm_compute in Hs. }
  exists o, res. split; [reflexivity|].
  apply (app_get_apos_post _ _ _ o res); [reflexivity|reflexivity|exact E|reflexivity|reflexivity].
Defined.

Lemma reachable_ids_unicos_witness :
  NoDup (ids (cardapio (app_handle init req_pedido).1)) ∧
  NoDup (ids (pedidos (app_handle init req_pedido).1)) ∧
  NoDup (ids (clientes (app_handle init req_pedido).1)).
Proof. apply reachable_ids_unicos. apply reachable_step, reachable_init. Defined.

End App.
