(* ===== verification/ContentType.v ===== *)
(** * The Content-Type header as [express.json()] reads it

    body-parser 1.x decides with type-is whether a request is JSON, and
    type-is parses the header with media-typer 0.3: the part before the
    first [;] must be [type/subtype] (letters, digits and a few marks, up
    to 127 each, spaces around), and the rest must be a sequence of
    parameters [; key=value] with spaces allowed around [;] and [=], the
    value a token or a quoted string; any other header is malformed and
    the request is not JSON.  body-parser then reads the [charset]
    parameter with the content-type module, whose grammar accepts every
    header media-typer accepts (its character classes contain
    media-typer's) with the same parameters, so one parser serves both:

    - [media_type] is media-typer's [parse]: the lower-cased
      [type/subtype] and the parameters, keys lower-cased, quoted values
      unescaped;
    - [charset] is [getCharset(req) || 'utf-8']: the last [charset]
      parameter (a later one overwrites an earlier one), lower-cased,
      ['utf-8'] when absent or empty;
    - [contentstream_ok] is the test of the Content-Encoding header that
      body-parser's [read] makes before reading: [deflate], [gzip] or
      [identity] (any letter case, absent meaning [identity]);
    - [iconv_known] is iconv-lite's [encodingExists] on a name that starts
      with [utf-]: its canonical form (lower case, a trailing [:dddd]
      dropped, only letters and digits kept) is one of the Unicode
      codecs of iconv-lite 0.4 (UTF-8, UTF-16 and UTF-7; UTF-32 came with
      0.5, after the body-parser 1.x line). *)

From Stdlib Require Import String.
From stdpp Require Import base list numbers.
From S2P Require Import Prelude JsValue JsNumber Url App.

Module ContentType.
Local Open Scope N_scope.

Definition is_alnum (c : N) : bool :=
  bool_decide (48 ≤ c ≤ 57 ∨ 65 ≤ c ≤ 90 ∨ 97 ≤ c ≤ 122).

(** [[A-Za-z0-9!#$&^_-]] and, for a subtype, also [.] and [+]. *)
Definition type_char (c : N) : bool := is_alnum c || bool_decide (c ∈ [33; 35; 36; 38; 94; 95; 45]).
Definition subtype_char (c : N) : bool := type_char c || bool_decide (c = 46 ∨ c = 43).

(** [[!#$%&'*+\-.0-9A-Z^_`a-z|~]]: a token character. *)
Definition is_tchar (c : N) : bool :=
  is_alnum c || bool_decide (c ∈ [33; 35; 36; 37; 38; 39; 42; 43; 45; 46; 94; 95; 96; 124; 126]).

(** A quoted string: [[ !\x23-\x5b\x5d-\x7e\x80-\xff]] or a backslash
    and [[\x20-\x7e]]. *)
Definition qd_char (c : N) : bool :=
  bool_decide (c = 32 ∨ c = 33 ∨ 35 ≤ c ≤ 91 ∨ 93 ≤ c ≤ 126 ∨ 128 ≤ c ≤ 255).
Definition esc_char (c : N) : bool := bool_decide (32 ≤ c ≤ 126).

Definition skip_spaces (s : jsstring) : jsstring := (span (λ c, bool_decide (c = 32)) s).2.

(** [[A-Za-z0-9][rest]{0,126}] *)
Definition media_name (rest : N → bool) (s : jsstring) : bool :=
  match s with
  | c :: r => is_alnum c && forallb rest r && bool_decide (length r ≤ 126)%nat
  | [] => false
  end.

(** The regular expression [^ *(type)\/(subtype) *$] on the lower-cased
    part before [;]: the media type [type/subtype]. *)
Definition type_part (t : jsstring) : option jsstring :=
  let t1 := skip_spaces (Url.ascii_lower <$> t) in
  let '(ty, r) := span (λ c, bool_decide (c ≠ 47)) t1 in   (* [r] starts with [/] *)
  match r with
  | _ :: r' =>
      let '(sub, r'') := span (λ c, bool_decide (c ≠ 32)) r' in
      if media_name type_char ty && media_name subtype_char sub &&
         forallb (λ c, bool_decide (c = 32)) r''
      then Some (ty ++ [47] ++ sub) else None
  | [] => None
  end.

(** The inside of a quoted string, unescaped, and the text after it. *)
Fixpoint lex_quoted (s : jsstring) : option (jsstring * jsstring) :=
  match s with
  | [] => None
  | c :: s' =>
      if decide (c = 34) then Some ([], s')
      else if decide (c = 92) then
        match s' with
        | d :: s'' => if esc_char d then prod_map (cons d) id <$> lex_quoted s'' else None
        | [] => None
        end
      else if qd_char c then prod_map (cons c) id <$> lex_quoted s'
      else None
  end.

(** One parameter after its [;]: [ *key *= *(value) *]. *)
Definition lex_param (s : jsstring) : option ((jsstring * jsstring) * jsstring) :=
  let '(k, s1) := span is_tchar (skip_spaces s) in
  match k, skip_spaces s1 with
  | _ :: _, c :: s2 =>
      if decide (c = 61) then
        match skip_spaces s2 with
        | d :: s3 =>
            if decide (d = 34) then
              '(v, s4) ← lex_quoted s3; Some ((Url.ascii_lower <$> k, v), skip_spaces s4)
            else
              let '(v, s4) := span is_tchar (d :: s3) in
              match v with
              | [] => None
              | _ :: _ => Some ((Url.ascii_lower <$> k, v), skip_spaces s4)
              end
        | [] => None
        end
      else None
  | _, _ => None
  end.

(** The parameters, each starting at its [;], to the end of the header;
    the fuel is the length of the text. *)
Fixpoint lex_params (fuel : nat) (s : jsstring) : option (list (jsstring * jsstring)) :=
  match s with
  | [] => Some []
  | c :: s' =>
      match fuel with
      | O => None
      | S f => if decide (c = 59) then
                 '(kv, r) ← lex_param s'; (λ l, kv :: l) <$> lex_params f r
               else None
      end
  end.

(** media-typer's [parse]: the media type and the parameters. *)
Definition media_type (ct : jsstring) : option (jsstring * list (jsstring * jsstring)) :=
  let '(t, ps) := span (λ c, bool_decide (c ≠ 59)) ct in
  ty ← type_part t; params ← lex_params (length ps) ps; Some (ty, params).

(** type-is's test for [application/json]. *)
Definition is_json_type (ct : jsstring) : bool :=
  match media_type ct with
  | Some (ty, _) => bool_decide (ty = js "application/json")
  | None => false
  end.

(** The value of the last parameter named [k]. *)
Definition last_param (k : jsstring) (ps : list (jsstring * jsstring)) : option jsstring :=
  foldl (λ acc kv, if decide (kv.1 = k) then Some kv.2 else acc) None ps.

(** body-parser's [getCharset(req) || 'utf-8']. *)
Definition charset (ct : jsstring) : jsstring :=
  match media_type ct ≫= (λ '(_, ps), last_param (js "charset") ps) with
  | Some (c :: cs) => Url.ascii_lower <$> (c :: cs)
  | _ => js "utf-8"
  end.

(** [charset.slice(0, 4) === 'utf-'] *)
Definition utf_charset (cs : jsstring) : bool := bool_decide (take 4 cs = js "utf-").

(** iconv-lite's canonical name of an encoding. *)
Definition iconv_canonical (cs : jsstring) : jsstring :=
  let cs' := match reverse cs with
             | d4 :: d3 :: d2 :: d1 :: 58 :: r =>
                 if forallb (λ c, bool_decide (48 ≤ c ≤ 57)) [d1; d2; d3; d4] then reverse r else cs
             | _ => cs
             end in
  filter (λ c, is_alnum c = true) (Url.ascii_lower <$> cs').

(** The Unicode codecs of iconv-lite 0.4. *)
Definition iconv_known (cs : jsstring) : bool :=
  bool_decide (iconv_canonical cs ∈ [js "utf8"; js "utf16"; js "utf16le"; js "utf16be"; js "utf7";
                                     js "utf7imap"]).

(** The charset passes both of body-parser's tests. *)
Definition charset_ok (ct : jsstring) : bool := utf_charset (charset ct) && iconv_known (charset ct).

(** [(req.headers['content-encoding'] || 'identity').toLowerCase()]; the
    ASCII lower-casing gives the same verdict below as [toLowerCase]: the
    only non-ASCII letter whose lower case is ASCII is the Kelvin sign,
    whose [k] occurs in none of the three names. *)
Definition encoding_name (enc : option jsstring) : jsstring :=
  match enc with
  | Some (c :: cs) => Url.ascii_lower <$> (c :: cs)
  | _ => js "identity"
  end.

(** body-parser's [contentstream(req, debug, inflate)] with [inflate]
    true: [deflate] and [gzip] are inflated, [identity] is read as is,
    any other encoding is a 415. *)
Definition contentstream_ok (enc : option jsstring) : bool :=
  bool_decide (encoding_name enc ∈ [js "deflate"; js "gzip"; js "identity"]).

(** [contentstream] passes the request itself, with its Content-Length,
    only for [identity]; an inflated stream has no known length. *)
Definition identity_encoding (enc : option jsstring) : bool :=
  bool_decide (encoding_name enc = js "identity").
End ContentType.
