(* ===== verification/Server.v ===== *)
(** * The server on the wire: [express.json()], errors and response text

    app.js installs [express.json()] first (line 9), before the logger.
    A request arrives as a method, a url, a Content-Type header and a body
    text; the JSON parser of body-parser 1.x (Express 4) turns it into
    [req.body] or into an error, and only then does the middleware stack of
    [App] run:

    - [req.body] starts as [{}]; a request without a body (no
      Content-Length and no Transfer-Encoding) or whose media type is not
      [application/json] (by media-typer's grammar of the header,
      [ContentType]) keeps it;
    - a charset that does not start with [utf-] is refused with 415, and
      so is a Content-Encoding other than [deflate], [gzip] and
      [identity];
    - raw-body then refuses with 413 a body of more than 100kb (102400
      bytes of UTF-8) whose length it knows up front (an [identity] body
      with a Content-Length); then it asks iconv-lite for a decoder, and a
      [utf-] charset iconv-lite does not know (such as utf-32) is refused
      with 415; a body of unknown length (chunked, or inflated) is
      refused with 413 while it is read, once it passes the limit;
    - an empty body gives [{}]; otherwise (strict mode) the first
      non-white-space character must be [{] or [[], and the text must be
      JSON: both failures are a SyntaxError with status 400;
    - an error skips every middleware that does not take an error (the
      logger, the routers, the 404 handler) and reaches Express's final
      handler, which answers with the status and a text page.

    Before any of this, Express's router looks for the path of the url
    ([Url.url_pathname]); a url without one goes to the final handler
    (404), and [express.json()] does not run.

    [wire] is the text a response carries: [JSON.stringify] of the value of
    [res.json], or the text sent as is.  [run] feeds a sequence of
    requests to the server; its theorems bound the ids by the number of
    requests. *)

From Stdlib Require Import String.
From stdpp Require Import base list numbers.
From Stdlib Require Import ZArith QArith Qcanon Lia.
From S2P Require Import Prelude JsValue JsNumber Store Http Url JsonPrint JsonParse Pedidos Cardapio Clientes App ContentType.

Module Server.
Import App ContentType.
Local Open Scope Z_scope.
Local Open Scope lanchonete_scope.

(** A request as it arrives: the Content-Type and Content-Encoding
    headers, whether the body comes with a Content-Length header (else it
    is chunked: Node refuses a request with both), and the body as the
    text the parser decodes (inflated when it is [deflate] or [gzip]);
    [raw_body] is [None] when the request has no body (no Content-Length,
    no Transfer-Encoding header). *)
Record raw_request := {
  raw_method : method;
  raw_url : jsstring;
  content_type : option jsstring;
  content_encoding : option jsstring;
  content_length : bool;
  raw_body : option jsstring;
}.

(** raw-body knows the length of the body before reading it. *)
Definition length_known (rq : raw_request) : bool :=
  content_length rq && identity_encoding (content_encoding rq).

(** The bytes of a text in UTF-8: a surrogate pair takes four. *)
Definition utf8_units (c : N) : N :=
  if decide (c < 128)%N then 1 else if decide (c < 2048)%N then 2
  else if decide (55296 ≤ c ≤ 57343)%N then 2 else 3.

Definition utf8_length (s : jsstring) : N := foldr (λ c n, utf8_units c + n)%N 0%N s.

(** body-parser's [limit] option, default ['100kb']. *)
Definition json_limit : N := 102400.

(** The first character that is not JSON white space. *)
Definition first_char (s : jsstring) : option N := head (skip_ws s).

Inductive parsed := Parsed (v : value) | ParseError (status : Z).

(** The middleware [express.json()]. *)
Definition express_json (rq : raw_request) : parsed :=
  match raw_body rq, content_type rq with
  | Some text, Some ct =>
      if is_json_type ct then
        let cs := charset ct in
        if negb (utf_charset cs) then ParseError 415
        else if negb (contentstream_ok (content_encoding rq)) then ParseError 415
        else if length_known rq && bool_decide (json_limit < utf8_length text)%N then ParseError 413
        else if negb (iconv_known cs) then ParseError 415
        else if decide (json_limit < utf8_length text)%N then ParseError 413
        else match text with
             | [] => Parsed (VObject [])
             | _ :: _ =>
                 if bool_decide (first_char text = Some 123%N ∨ first_char text = Some 91%N) then
                   match json_parse text with
                   | Some v => Parsed v
                   | None => ParseError 400
                   end
                 else ParseError 400
             end
      else Parsed (VObject [])
  | _, _ => Parsed (VObject [])
  end.

(** Express's final handler for an error: its status, and a page with
    the status message (the page's HTML and, outside production, the
    stack trace are not modelled). *)
Definition status_message (s : Z) : jsstring :=
  if decide (s = 413) then js "Payload Too Large"
  else if decide (s = 415) then js "Unsupported Media Type" else js "Bad Request".

Definition express_error (s : Z) : response := {| status := s; res_body := Text (status_message s) |}.

Section server.
Context `{JsConversions}.

(** app.js: Express's router finds the path, runs [express.json()],
    then the stack of [App.app_handle]. *)
Definition server_handle (st : state) (rq : raw_request) : state * response :=
  match Url.url_pathname (raw_url rq) with
  | None => (st, final_not_found)
  | Some _ =>
      match express_json rq with
      | ParseError s => (st, express_error s)
      | Parsed b => app_handle st {| req_method := raw_method rq; req_url := raw_url rq; req_body := b |}
      end
  end.

(** The text of a response body. *)
Definition wire (r : response) : jsstring :=
  match res_body r with Json v => json_text v | Text s => s end.

(** A sequence of requests, handled one after the other. *)
Definition run (st : state) (rqs : list raw_request) : state :=
  foldl (λ st rq, (server_handle st rq).1) st rqs.
End server.

(** ** What one request does to the state *)

Section lemmas.
Context `{JsConversions}.

Lemma server_handle_cases st rq :
  (server_handle st rq).1 = st ∨ ∃ r, (server_handle st rq).1 = (app_handle st r).1.
Proof. unfold server_handle. repeat case_match; eauto. Qed.

Lemma inv_server_handle st rq : inv st → inv (server_handle st rq).1.
Proof. intros Hi. destruct (server_handle_cases st rq) as [->|[r ->]]; [done|by apply inv_app_handle]. Qed.

Lemma inv_run rqs st : inv st → inv (run st rqs).
Proof. revert st. induction rqs as [|rq rqs IH]; intros st Hi; [done|]. apply IH, inv_server_handle, Hi. Qed.

Lemma run_app st rqs rqs' : run st (rqs ++ rqs') = run (run st rqs) rqs'.
Proof. unfold run. by rewrite foldl_app. Qed.

(** The three arrays grow by at most one record a request. *)
Definition grows_by_one (st st' : state) : Prop :=
  (length (cardapio st') ≤ length (cardapio st) + 1)%nat ∧
  (length (pedidos st') ≤ length (pedidos st) + 1)%nat ∧
  (length (clientes st') ≤ length (clientes st) + 1)%nat.

Lemma app_handle_grows st r : grows_by_one st (app_handle st r).1.
Proof.
  destruct (app_handle_cases st r) as [[_ ->]|[_ [->|[->|[(ps' & res & Hr & ->)| ->]]]]];
    unfold grows_by_one; simpl; split_and!; try lia.
  - destruct (Cardapio.post_cardapio_cases (cardapio st) (req_body r)) as [->|(n & p & _ & ->)];
      [lia|rewrite length_push; lia].
  - cbn [pedidos logger] in Hr.
    destruct (Pedidos.post_pedidos_Ok_inv _ _ _ _ Hr) as [->|(o & -> & _)]; [lia|rewrite length_push; lia].
  - destruct (Clientes.post_clientes_cases (clientes st) (req_body r)) as [->|(n & t & _ & _ & ->)];
      [lia|rewrite length_push; lia].
Qed.

Lemma server_handle_grows st rq : grows_by_one st (server_handle st rq).1.
Proof.
  destruct (server_handle_cases st rq) as [->|[r ->]]; [unfold grows_by_one; lia|].
  apply app_handle_grows.
Qed.

Lemma run_lengths rqs st :
  (length (cardapio (run st rqs)) ≤ length (cardapio st) + length rqs)%nat ∧
  (length (pedidos (run st rqs)) ≤ length (pedidos st) + length rqs)%nat ∧
  (length (clientes (run st rqs)) ≤ length (clientes st) + length rqs)%nat.
Proof.
  revert st. induction rqs as [|rq rqs IH]; intros st; simpl; [lia|].
  destruct (IH (server_handle st rq).1) as (H1 & H2 & H3).
  destruct (server_handle_grows st rq) as (G1 & G2 & G3). lia.
Qed.


End lemmas.

(** ** Theorems *)

Section theorems.
Context `{JsConversions}.






(** every state the server reaches from its start by any sequence of
    requests, as they arrive (parser errors included), satisfies the
    invariant of [App]. *)
Theorem run_inv rqs : inv (run init rqs).
Proof. apply inv_run, inv_init. Qed.

(** after [k] requests the ids are at most [k + 2] on the menu and
    [k + 1] among orders and customers: one request adds at most one
    record. *)
Theorem run_ids_bounded rqs :
  let st := run init rqs in
  (∀ i, i ∈ cardapio st → 1 ≤ Cardapio.id i ≤ Z.of_nat (length rqs) + 2) ∧
  (∀ o, o ∈ pedidos st → 1 ≤ Pedidos.id o ≤ Z.of_nat (length rqs) + 1) ∧
  (∀ c, c ∈ clientes st → 1 ≤ Clientes.id c ≤ Z.of_nat (length rqs) + 1).
Proof.
  intros st. destruct (inv_run rqs init inv_init) as ([Hc _] & [Hp _] & [Hcl _]).
  destruct (run_lengths rqs init) as (L1 & L2 & L3). simpl in L1, L2, L3.
  split_and!; intros r Hr.
  - pose proof (id_range _ r Hc Hr) as R. unfold id_of, Cardapio.item_has_id in R. lia.
  - pose proof (id_range _ r Hp Hr) as R. unfold id_of, Pedidos.pedido_has_id in R. lia.
  - pose proof (id_range _ r Hcl Hr) as R. unfold id_of, Clientes.cliente_has_id in R. lia.
Qed.

(** while fewer than 2^53 - 3 requests have been handled, the id the
    next POST computes ([length + 1]) is below 2^53 on every array, so the
    double arithmetic of JavaScript computes it exactly, as the model's
    integers do. *)
Theorem run_next_id_exact rqs :
  (Z.of_nat (length rqs) + 3 < 2 ^ 53) →
  let st := run init rqs in
  next_id (cardapio st) < 2 ^ 53 ∧ next_id (pedidos st) < 2 ^ 53 ∧ next_id (clientes st) < 2 ^ 53.
Proof.
  intros Hk st. destruct (run_lengths rqs init) as (L1 & L2 & L3). simpl in L1, L2, L3.
  unfold next_id. subst st. split_and!; lia.
Qed.

(** the text of the answer to an order whose total is NaN (C28)
    carries [total: null]: a JSON client reading it finds the total
    null. *)
Theorem wire_total_NaN o :
  Pedidos.total o = NaN → Forall number_text (finite_numbers (Pedidos.pedido_json o)) →
  (λ v, v.["total"]) <$> json_parse (wire {| status := 201; res_body := Json (Pedidos.pedido_json o) |})
  = Some VNull.
Proof.
  intros Ht Hn. unfold wire. cbn [res_body]. unfold json_text.
  destruct (serialize (Pedidos.pedido_json o)) as [t|] eqn:E; [|by apply serialize_None in E].
  change (default [] (Some t)) with t. rewrite (json_roundtrip _ _ E Hn).
  unfold Pedidos.pedido_json. rewrite Ht.
  destruct (Pedidos.clienteId o) as [| |b|[]|s|xs|fs]; reflexivity.
Qed.


End theorems.

(** ** Scenarios and witnesses *)

Definition post_pedidos_raw (ct body : jsstring) : raw_request :=
  {| raw_method := POST; raw_url := js "/pedidos"; content_type := Some ct; content_encoding := None; content_length := true;
     raw_body := Some body |}.

Definition json_ct : jsstring := js "application/json; charset=utf-8".

(** [{"clienteId":1,"itens":[{"id":2,"quantidade":3,"preco":5}]}] *)
Definition corpo_json : value :=
  VObject [(js "clienteId", VNumber (num_of_Z 1));
           (js "itens", VArray [VObject [(js "id", VNumber (num_of_Z 2));
                                         (js "quantidade", VNumber (num_of_Z 3));
                                         (js "preco", VNumber (num_of_Z 5))]])].






Lemma run_next_id_exact_witness :
  let st := run init [post_pedidos_raw json_ct (json_text corpo_json)] in
  next_id (cardapio st) < 2 ^ 53 ∧ next_id (pedidos st) < 2 ^ 53 ∧ next_id (clientes st) < 2 ^ 53.
Proof. apply run_next_id_exact. simpl. lia. Defined.



End Server.
