(* ===== verification/Listen.v ===== *)
(** * Start-up: the port and [app.listen] (src/app.js, lines 33-36)

    [const PORT = process.env.PORT || 3000;] then
    [app.listen(PORT, () => console.log(`Lanchonete API ouvindo na porta ${PORT}`))].
    Express's [app.listen] is [http.createServer(app).listen(...)], that
    is Node's [net.Server.prototype.listen] with the arguments as given:

    - [normalizeArgs] makes a string that is not a number [>= 0] (its
      [isPipeName]: [Number(s) >= 0] is false) the [path] of a local
      socket, and anything else the [port];
    - a [port] that is a string or a number goes through [validatePort]:
      a blank string, a value whose [+port] is not an integer in
      [0, 2^32) ([+port !== (+port >>> 0)]), or one above 65535 throws
      ERR_SOCKET_BAD_PORT, a RangeError the module does not catch, so the
      process stops before serving anything;
    - otherwise the server binds the TCP port [+port], and once it listens
      the callback prints the line with [PORT] as the template converts it
      (ToString: the environment's text as it is, or ["3000"]).

    [boot] is that start: the bound endpoint and the state the requests of
    [Server.run] then start from, or [None] for the RangeError.  [binds]
    is the rule of the endpoint written from the three cases above, and
    [boot_binds] shows [boot] follows it exactly.  The socket layer itself
    (the host, IPv4/IPv6, the listen backlog) is not modelled. *)

From Stdlib Require Import String.
From stdpp Require Import base list numbers.
From Stdlib Require Import ZArith QArith Qcanon Lia.
From S2P Require Import Prelude JsValue JsNumber Http App Server.

Module Listen.
Import App.
Local Open Scope Z_scope.

(** [process.env.PORT]: absent or a string. *)
Definition env_port (env : option jsstring) : value :=
  match env with Some s => VString s | None => VUndefined end.

(** app.js 33: [const PORT = process.env.PORT || 3000;] *)
Definition PORT (env : option jsstring) : value := js_or (env_port env) (VNumber (num_of_Z 3000)).

(** Where the server listens: a TCP port, or the path of a local socket. *)
Inductive endpoint := TcpPort (p : Z) | Pipe (path : jsstring).

#[export] Instance endpoint_eq_dec : EqDecision endpoint.
Proof. solve_decision. Defined.

Section listen.
Context `{JsConversions}.

(** net's [toNumber(x)]: [(x = Number(x)) >= 0 ? x : false]. *)
Definition to_nonneg_number (v : value) : option number :=
  match to_number v with
  | Ok n => if num_le num_zero n then Some n else None
  | Throw _ => None
  end.

(** net's [isPipeName(s)]: a string whose [toNumber] is [false]. *)
Definition is_pipe_name (v : value) : bool :=
  match v with VString _ => bool_decide (to_nonneg_number v = None) | _ => false end.

(** [+port === (+port >>> 0)]: an integer in [0, 2^32). *)
Definition uint32_exact (n : number) : option Z :=
  match n with
  | Num q => if decide (Qden q = 1%positive ∧ 0 ≤ Qnum q < 2 ^ 32) then Some (Qnum q) else None
  | _ => None
  end.

(** validatePort(port, 'options.port', true) of node's validators: the
    port [port | 0], or [None] for ERR_SOCKET_BAD_PORT. *)
Definition validate_port (port : value) : option Z :=
  match port with
  | VNumber _ | VString _ =>
      let blank := match port with VString s => bool_decide (trim s = []) | _ => false end in
      if blank then None
      else match to_number port with
           | Ok n => match uint32_exact n with
                     | Some p => if decide (p ≤ 65535) then Some p else None
                     | None => None
                     end
           | Throw _ => None
           end
  | _ => None
  end.

(** [server.listen(port, cb)] after [normalizeArgs]: a pipe name is the
    path; [undefined] and [null] ask for any free port (0); a string or
    number is validated; anything else is refused. *)
Definition listen (port : value) : option endpoint :=
  match port with
  | VString s => if is_pipe_name port then Some (Pipe s) else TcpPort <$> validate_port port
  | VNumber _ => TcpPort <$> validate_port port
  | VUndefined | VNull => Some (TcpPort 0)
  | _ => None
  end.

(** app.js 35: the template [`Lanchonete API ouvindo na porta ${PORT}`]. *)
Definition listening_line (port : value) : jsstring :=
  js "Lanchonete API ouvindo na porta " ++ match to_string port with Ok s => s | Throw _ => [] end.

(** app.js 33-36: the endpoint and the state once the callback has
    printed its line; [None] when [listen] throws. *)
Definition boot (env : option jsstring) : option (endpoint * state) :=
  let port := PORT env in
  match listen port with
  | Some e => Some (e, {| cardapio := cardapio init; pedidos := pedidos init;
                          clientes := clientes init; log := [listening_line port] |})
  | None => None
  end.

(** The endpoint a value of [process.env.PORT] leads to, case by case. *)
Inductive binds : option jsstring → endpoint → Prop :=
| binds_unset : binds None (TcpPort 3000)
| binds_empty : binds (Some []) (TcpPort 3000)
| binds_port s p :
    s ≠ [] → trim s ≠ [] → string_to_number s = num_of_Z p → 0 ≤ p ≤ 65535 →
    binds (Some s) (TcpPort p)
| binds_pipe s :
    s ≠ [] → num_le num_zero (string_to_number s) = false → binds (Some s) (Pipe s).

(** ** The endpoint [boot] binds *)

Lemma uint32_exact_spec n p : uint32_exact n = Some p ↔ n = num_of_Z p ∧ 0 ≤ p < 2 ^ 32.
Proof.
  destruct n as [q| | |]; simpl; try (split; [done|by intros [? ?]]).
  case_decide as Hq; split.
  - intros [= <-]. split; [|lia]. unfold num_of_Z. f_equal. apply Qc_is_canon. destruct Hq as [Hd _].
    unfold Qeq. simpl. rewrite Hd. lia.
  - intros [[= ->] ?]. by simpl.
  - done.
  - intros [[= ->] ?]. simpl in Hq. lia.
Qed.

Lemma num_le_zero_Z p : num_le num_zero (num_of_Z p) = bool_decide (0 ≤ p).
Proof.
  unfold num_le, num_zero, num_of_Z. rewrite <-Z2Qc_inj_0.
  apply bool_decide_ext. symmetry. apply Z2Qc_inj_le.
Qed.

Lemma PORT_string s : s ≠ [] → PORT (Some s) = VString s.
Proof. intros. unfold PORT, js_or. simpl. by destruct s. Qed.

Lemma listen_string s :
  s ≠ [] →
  listen (VString s) =
    if num_le num_zero (string_to_number s) then
      if bool_decide (trim s = []) then None
      else match uint32_exact (string_to_number s) with
           | Some p => if decide (p ≤ 65535) then Some (TcpPort p) else None
           | None => None
           end
    else Some (Pipe s).
Proof.
  intros Hs. unfold listen, is_pipe_name, to_nonneg_number, validate_port. cbn [to_number].
  destruct (num_le num_zero (string_to_number s)).
  - rewrite bool_decide_eq_false_2 by done. cbn -[trim uint32_exact].
    destruct (bool_decide (trim s = [])); [done|].
    destruct (uint32_exact _); [|done]. by case_decide.
  - by rewrite bool_decide_eq_true_2.
Qed.
End listen.

Section boot_theorems.
Context `{JsConversions}.

Lemma num_of_Z_inj p p' : num_of_Z p = num_of_Z p' → p = p'.
Proof. intros E. by injection E. Qed.

Lemma boot_endpoint env e : (∃ st, boot env = Some (e, st)) ↔ listen (PORT env) = Some e.
Proof.
  unfold boot. destruct (listen (PORT env)) as [e'|].
  - split; [by intros [st [= -> _]]|intros [= ->]; eauto].
  - split; [by intros [st ?]|done].
Qed.

Lemma listen_default s : s = [] → listen (PORT (Some s)) = Some (TcpPort 3000) ∧ listen (PORT None) = Some (TcpPort 3000).
Proof. by intros ->. Qed.

(** C15: the start-up follows [binds]: with [PORT] unset or empty the
    server listens on TCP port 3000; with a text whose Number is an
    integer 0..65535 (and that is not blank) on that port; with a text
    whose Number is NaN or negative on a local socket of that name; and
    in every other case (a blank text, a fraction, a port above 65535,
    Infinity) [app.listen] throws and nothing is served. *)
Theorem boot_binds env e : (∃ st, boot env = Some (e, st)) ↔ binds env e.
Proof.
  rewrite boot_endpoint. destruct env as [s|].
  2: { rewrite (proj2 (listen_default [] eq_refl)). split; [intros [= <-]; constructor|by inversion 1]. }
  destruct (decide (s = [])) as [Hs|Hs].
  { rewrite (proj1 (listen_default s Hs)). subst. split; [intros [= <-]; constructor|inversion 1; done]. }
  rewrite PORT_string, listen_string by done.
  destruct (num_le num_zero (string_to_number s)) eqn:Hle.
  - case_bool_decide as Ht.
    + split; [done|]. inversion 1; subst; done || congruence.
    + destruct (uint32_exact (string_to_number s)) as [p|] eqn:Hu.
      * apply uint32_exact_spec in Hu as [Hn Hp].
        case_decide; split; try (intros [= <-]; constructor; done || lia); try done;
          intros Hb; inversion Hb; subst; try done; try congruence;
          match goal with Hn' : string_to_number _ = num_of_Z _ |- _ =>
            rewrite Hn in Hn'; apply num_of_Z_inj in Hn'; subst end; done || lia.
      * split; [done|]. intros Hb; inversion Hb; subst; try done; try congruence.
        match goal with Hn' : string_to_number _ = num_of_Z ?p' |- _ =>
          assert (uint32_exact (string_to_number s) = Some p') as Hu'
            by (apply uint32_exact_spec; split; [done|lia]) end.
        congruence.
  - split; [intros [= <-]; by constructor|].
    intros Hb; inversion Hb; subst; try done.
    match goal with Hn' : string_to_number _ = num_of_Z _ |- _ => rewrite Hn', num_le_zero_Z in Hle end.
    apply bool_decide_eq_false in Hle. lia.
Qed.

Lemma server_handle_log st rq : ∃ l, log (Server.server_handle st rq).1 = log st ++ l.
Proof.
  destruct (Server.server_handle_cases st rq) as [->|[r ->]]; [exists []; by rewrite app_nil_r|].
  destruct (app_handle_cases st r) as [[_ ->]|[_ [->|[->|[(ps' & res & _ & ->)| ->]]]]];
    [exists []; by rewrite app_nil_r|exists [log_line r]; done..].
Qed.

Lemma run_log st rqs : ∃ l, log (Server.run st rqs) = log st ++ l.
Proof.
  revert st. induction rqs as [|rq rqs IH]; intros st; [exists []; by rewrite app_nil_r|].
  destruct (server_handle_log st rq) as [l1 E1]. destruct (IH (Server.server_handle st rq).1) as [l2 E2].
  exists (l1 ++ l2). cbn [Server.run foldl] in *. unfold Server.run in E2.
  rewrite E2, E1. by rewrite <-(assoc_L (++)).
Qed.

Lemma boot_state env e st :
  boot env = Some (e, st) → inv st ∧ log st = [listening_line (PORT env)].
Proof.
  unfold boot. destruct (listen (PORT env)); intros; simplify_eq/=. split; [apply inv_init|done].
Qed.

(** A server that starts serves any sequence of requests from the
    seeded arrays with the invariant of [App] kept, and the first line of
    its output is the listening message with [PORT] as the environment
    wrote it. *)
Theorem boot_run env e st rqs :
  boot env = Some (e, st) →
  inv (Server.run st rqs) ∧ ∃ l, log (Server.run st rqs) = listening_line (PORT env) :: l.
Proof.
  intros Hb. destruct (boot_state env e st Hb) as [Hi Hl]. split; [by apply Server.inv_run|].
  destruct (run_log st rqs) as [l ->]. rewrite Hl. by exists l.
Qed.
End boot_theorems.

(** [PORT=0x1F90]: Number reads the hexadecimal text, the server binds
    port 8080, and the line printed says 0x1F90. *)
Lemma boot_run_witness :
  boot (Some (js "0x1F90")) =
    Some (TcpPort 8080, {| cardapio := cardapio init; pedidos := pedidos init; clientes := clientes init;
                           log := [js "Lanchonete API ouvindo na porta 0x1F90"] |}) ∧
  inv (Server.run {| cardapio := cardapio init; pedidos := pedidos init; clientes := clientes init;
                     log := [js "Lanchonete API ouvindo na porta 0x1F90"] |} []) ∧
  ∃ l, log (Server.run {| cardapio := cardapio init; pedidos := pedidos init; clientes := clientes init;
                          log := [js "Lanchonete API ouvindo na porta 0x1F90"] |} []) =
       listening_line (PORT (Some (js "0x1F90"))) :: l.
Proof.
  assert (Hb : boot (Some (js "0x1F90")) =
    Some (TcpPort 8080, {| cardapio := cardapio init; pedidos := pedidos init; clientes := clientes init;
                           log := [js "Lanchonete API ouvindo na porta 0x1F90"] |})) by reflexivity.
  split; [exact Hb|]. exact (boot_run _ _ _ [] Hb).
Defined.
End Listen.
